(** * aredis/pubsub.py: the publish/subscribe session and its cluster variant

    A shallow embedding of [PubSub] and [ClusterPubSub] (src/aredis/pubsub.py)
    as state-passing functions over a [world]: the fields of the session
    object together with the environment the coroutines run in (the outcome
    of every awaited network operation, the clock, the trace of the calls
    made on the collaborators). *)

From Stdlib Require Import List String Ascii ZArith NArith Arith Bool Lia.
From Stdlib Require Import Permutation.
Import ListNotations.

Set Implicit Arguments.

(** ** Python values *)

(** A [str] is a sequence of code points, a [bytes] a sequence of 8-bit
    characters. *)
Definition text := list N.
Definition bytes := string.

Definition lit (s : string) : text :=
  map N_of_ascii (list_ascii_of_string s).

Inductive pyval : Type :=
| PNone
| PInt (z : Z)
| PStr (s : text)
| PBytes (b : bytes).

Definition text_eq_dec : forall a b : text, {a = b} + {a <> b} :=
  list_eq_dec N.eq_dec.

Definition pyval_eq_dec : forall a b : pyval, {a = b} + {a <> b}.
Proof.
  decide equality.
  - apply Z.eq_dec.
  - apply text_eq_dec.
  - apply string_dec.
Defined.

(** ** Exceptions

    The classes the module catches by name, the ones its own statements
    raise, and [OtherError] for any other [Exception] a collaborator may
    raise.  [CancelledError] is the class imported on line 3
    ([asyncio.futures.CancelledError]), an [Exception] like the others, so
    that [except Exception] catches every [exn]. *)
Inductive exn : Type :=
| CancelledError
| ConnectionError
| TimeoutError
| IndexError
| UnicodeError
| AttributeError
| TypeError
| OtherError (name : string).

Definition exn_eq_dec : forall a b : exn, {a = b} + {a <> b}.
Proof. decide equality. apply string_dec. Defined.

Inductive result (A : Type) : Type :=
| Ok (a : A)
| Err (e : exn).
Arguments Ok {A} a.
Arguments Err {A} e.

(** ** Dictionaries

    A Python [dict] keeps its keys unique and in insertion order; the order
    is what [iterkeys] and [iteritems] hand to the commands sent. *)
Module Dict.

Section Ops.
Variable V : Type.

Definition t := list (pyval * V).

Fixpoint get (k : pyval) (d : t) : option V :=
  match d with
  | [] => None
  | (k', v) :: d' => if pyval_eq_dec k k' then Some v else get k d'
  end.

(** [d[k] = v]: an existing key keeps its place. *)
Fixpoint set (k : pyval) (v : V) (d : t) : t :=
  match d with
  | [] => [(k, v)]
  | (k', v') :: d' =>
      if pyval_eq_dec k k' then (k', v) :: d' else (k', v') :: set k v d'
  end.

(** [del d[k]]: [None] stands for the [KeyError] of an absent key. *)
Fixpoint del (k : pyval) (d : t) : option t :=
  match d with
  | [] => None
  | (k', v) :: d' =>
      if pyval_eq_dec k k' then Some d'
      else match del k d' with
           | Some d'' => Some ((k', v) :: d'')
           | None => None
           end
  end.

(** [d.update(new)] *)
Definition update (d new : t) : t :=
  fold_left (fun acc kv => set (fst kv) (snd kv) acc) new d.

Definition keys (d : t) : list pyval := map fst d.

Definition is_empty (d : t) : bool :=
  match d with [] => true | _ => false end.

Definition wf (d : t) : Prop := NoDup (keys d).
End Ops.

Arguments get {V} k d.
Arguments set {V} k v d.
Arguments del {V} k d.
Arguments update {V} d new.
Arguments keys {V} d.
Arguments is_empty {V} d.
Arguments wf {V} d.

(** [dict.fromkeys(ks)]: every key bound to [None]. *)
Definition fromkeys {V} (ks : list pyval) : t (option V) :=
  fold_left (fun acc k => set k None acc) ks [].

End Dict.

(** ** Codecs

    [self.encoding] names a codec; the session is modelled with the codec
    itself: [str.encode] and [bytes.decode] under that name, both of which
    can raise a [UnicodeError]. *)
Record codec : Type := {
  str_encode : text -> option bytes;
  bytes_decode : bytes -> option text
}.

Module Codec.

Fixpoint ascii_encode (s : text) : option bytes :=
  match s with
  | [] => Some EmptyString
  | c :: s' =>
      if (c <? 128)%N then
        match ascii_encode s' with
        | Some b => Some (String (ascii_of_N c) b)
        | None => None
        end
      else None
  end.

Fixpoint ascii_decode (b : bytes) : option text :=
  match b with
  | EmptyString => Some []
  | String c b' =>
      if (N_of_ascii c <? 128)%N then
        match ascii_decode b' with
        | Some s => Some (N_of_ascii c :: s)
        | None => None
        end
      else None
  end.

Definition ascii_codec : codec :=
  {| str_encode := ascii_encode; bytes_decode := ascii_decode |}.




(** UTF-8, strict: no overlong form, no surrogate, nothing above U+10FFFF. *)
Definition is_cont (c : ascii) : bool :=
  ((128 <=? N_of_ascii c) && (N_of_ascii c <? 192))%N.

Definition cont_bits (c : ascii) : N := (N_of_ascii c - 128)%N.

Definition is_scalar (cp : N) : bool :=
  ((cp <? 55296) || ((57343 <? cp) && (cp <=? 1114111)))%N.

Fixpoint utf8_decode (b : bytes) : option text :=
  match b with
  | EmptyString => Some []
  | String c1 r1 =>
      let n1 := N_of_ascii c1 in
      let emit (cp lo : N) (rest : option text) :=
        if ((lo <=? cp) && is_scalar cp)%N then
          match rest with Some s => Some (cp :: s) | None => None end
        else None in
      if (n1 <? 128)%N then emit n1 0%N (utf8_decode r1)
      else if (n1 <? 192)%N then None
      else match r1 with
      | EmptyString => None
      | String c2 r2 =>
        if negb (is_cont c2) then None
        else if (n1 <? 224)%N then
          emit ((n1 - 192) * 64 + cont_bits c2)%N 128%N (utf8_decode r2)
        else match r2 with
        | EmptyString => None
        | String c3 r3 =>
          if negb (is_cont c3) then None
          else if (n1 <? 240)%N then
            emit (((n1 - 224) * 64 + cont_bits c2) * 64 + cont_bits c3)%N
                 2048%N (utf8_decode r3)
          else match r3 with
          | EmptyString => None
          | String c4 r4 =>
            if negb (is_cont c4) then None
            else if (n1 <? 248)%N then
              emit ((((n1 - 240) * 64 + cont_bits c2) * 64 + cont_bits c3) * 64
                    + cont_bits c4)%N 65536%N (utf8_decode r4)
            else None
          end
        end
      end
  end.

Definition utf8_char (cp : N) : option bytes :=
  let a := ascii_of_N in
  let one (x : ascii) := String x EmptyString in
  if negb (is_scalar cp) then None
  else if (cp <? 128)%N then Some (one (a cp))
  else if (cp <? 2048)%N then
    Some (String (a (192 + cp / 64)) (one (a (128 + cp mod 64))))%N
  else if (cp <? 65536)%N then
    Some (String (a (224 + cp / 4096))
            (String (a (128 + (cp / 64) mod 64)) (one (a (128 + cp mod 64)))))%N
  else
    Some (String (a (240 + cp / 262144))
            (String (a (128 + (cp / 4096) mod 64))
               (String (a (128 + (cp / 64) mod 64))
                  (one (a (128 + cp mod 64))))))%N.

Fixpoint utf8_encode (s : text) : option bytes :=
  match s with
  | [] => Some EmptyString
  | cp :: s' =>
      match utf8_char cp, utf8_encode s' with
      | Some b, Some b' => Some (b ++ b')%string
      | _, _ => None
      end
  end.

Definition utf8_codec : codec :=
  {| str_encode := utf8_encode; bytes_decode := utf8_decode |}.

End Codec.

(** ** The session and its environment *)

(** A handler is a caller-supplied callback, named by a number; [None] as a
    mapping value is Python's [None]. *)
Definition handler := nat.
Definition mapping := Dict.t (option handler).

Record connection : Type := {
  conn_id : nat;
  retry_on_timeout : bool
}.

Record message : Type := {
  msg_type : text;
  msg_pattern : pyval;
  msg_channel : pyval;
  msg_data : pyval
}.

(** What an awaited call hands back. *)
Inductive retval : Type :=
| RNone
| RBool (b : bool)
| RReply (r : list pyval).

Inductive outcome : Type :=
| Returns (v : retval)
| Raises (e : exn).

(** The calls made on the collaborators, in program order. *)
Inductive event : Type :=
| EvGetConnection (purpose : option string) (channel : option pyval)
                  (c : nat)
| EvRegisterConnectCallback (c : nat)
| EvClearConnectCallbacks (c : nat)
| EvSendCommand (c : nat) (args : list pyval) (out : outcome)
| EvReadResponse (c : nat) (out : outcome)
| EvCanRead (c : nat) (out : outcome)
| EvConnect (c : nat) (out : outcome)
| EvDisconnect (c : nat)
| EvHandler (h : handler) (m : message) (out : outcome)
| EvPoolInitialize
| EvIncrementReinitializeCounter
| EvSleep (n : nat)
| EvEnsureFuture (coro : string)
| EvPrint (what : string).

(** The attributes of [self]. *)
Record session : Type := {
  connection_ : option connection;
  channels : mapping;
  patterns : mapping;
  ignore_subscribe_messages : bool;
  decode_responses : bool;
  encoding : codec;
  last_pong : option nat;
  reconnect_closed_coro : bool
}.

(** The environment: [oracle] gives the outcome of the n-th awaited network
    operation or handler call, [tick] counts them; [now] is the clock read by
    [time.time()] and advanced by [asyncio.sleep]; [trace] has the latest
    event last. *)
Record environment : Type := {
  oracle : nat -> outcome;
  tick : nat;
  now : nat;
  next_conn : nat;
  pool_retry_on_timeout : bool;
  reinitialize_counter : nat;
  trace : list event
}.

Record world : Type := {
  self : session;
  env : environment
}.

Definition set_connection (c : option connection) (s : session) : session :=
  {| connection_ := c; channels := channels s; patterns := patterns s;
     ignore_subscribe_messages := ignore_subscribe_messages s;
     decode_responses := decode_responses s; encoding := encoding s;
     last_pong := last_pong s;
     reconnect_closed_coro := reconnect_closed_coro s |}.

Definition set_channels (d : mapping) (s : session) : session :=
  {| connection_ := connection_ s; channels := d; patterns := patterns s;
     ignore_subscribe_messages := ignore_subscribe_messages s;
     decode_responses := decode_responses s; encoding := encoding s;
     last_pong := last_pong s;
     reconnect_closed_coro := reconnect_closed_coro s |}.

Definition set_patterns (d : mapping) (s : session) : session :=
  {| connection_ := connection_ s; channels := channels s; patterns := d;
     ignore_subscribe_messages := ignore_subscribe_messages s;
     decode_responses := decode_responses s; encoding := encoding s;
     last_pong := last_pong s;
     reconnect_closed_coro := reconnect_closed_coro s |}.

Definition set_last_pong (t : option nat) (s : session) : session :=
  {| connection_ := connection_ s; channels := channels s;
     patterns := patterns s;
     ignore_subscribe_messages := ignore_subscribe_messages s;
     decode_responses := decode_responses s; encoding := encoding s;
     last_pong := t;
     reconnect_closed_coro := reconnect_closed_coro s |}.

Definition set_reconnect_closed_coro (b : bool) (s : session) : session :=
  {| connection_ := connection_ s; channels := channels s;
     patterns := patterns s;
     ignore_subscribe_messages := ignore_subscribe_messages s;
     decode_responses := decode_responses s; encoding := encoding s;
     last_pong := last_pong s;
     reconnect_closed_coro := b |}.

Definition log (ev : event) (e : environment) : environment :=
  {| oracle := oracle e; tick := tick e; now := now e;
     next_conn := next_conn e;
     pool_retry_on_timeout := pool_retry_on_timeout e;
     reinitialize_counter := reinitialize_counter e;
     trace := trace e ++ [ev] |}.

Definition advance_tick (e : environment) : environment :=
  {| oracle := oracle e; tick := S (tick e); now := now e;
     next_conn := next_conn e;
     pool_retry_on_timeout := pool_retry_on_timeout e;
     reinitialize_counter := reinitialize_counter e;
     trace := trace e |}.

Definition advance_clock (n : nat) (e : environment) : environment :=
  {| oracle := oracle e; tick := tick e; now := now e + n;
     next_conn := next_conn e;
     pool_retry_on_timeout := pool_retry_on_timeout e;
     reinitialize_counter := reinitialize_counter e;
     trace := trace e |}.

Definition advance_next_conn (e : environment) : environment :=
  {| oracle := oracle e; tick := tick e; now := now e;
     next_conn := S (next_conn e);
     pool_retry_on_timeout := pool_retry_on_timeout e;
     reinitialize_counter := reinitialize_counter e;
     trace := trace e |}.

Definition advance_reinitialize_counter (e : environment) : environment :=
  {| oracle := oracle e; tick := tick e; now := now e;
     next_conn := next_conn e;
     pool_retry_on_timeout := pool_retry_on_timeout e;
     reinitialize_counter := S (reinitialize_counter e);
     trace := trace e |}.

(** ** A state and exception monad for the method bodies *)

Definition M (A : Type) : Type := world -> result A * world.

Definition ret {A} (a : A) : M A := fun w => (Ok a, w).

Definition raise {A} (e : exn) : M A := fun w => (Err e, w).

Definition bind {A B} (m : M A) (k : A -> M B) : M B :=
  fun w =>
    match m w with
    | (Ok a, w') => k a w'
    | (Err e, w') => (Err e, w')
    end.

(** [try: m except Exception as e: h e] *)
Definition try_except {A} (m : M A) (h : exn -> M A) : M A :=
  fun w =>
    match m w with
    | (Ok a, w') => (Ok a, w')
    | (Err e, w') => h e w'
    end.

Declare Scope py_scope.
Delimit Scope py_scope with py.
Notation "x <- m ;; k" := (bind m (fun x => k))
  (at level 61, m at next level, right associativity) : py_scope.
Notation "m ;; k" := (bind m (fun _ => k))
  (at level 61, right associativity) : py_scope.
Open Scope py_scope.

Definition lift {A} (r : result A) : M A :=
  match r with Ok a => ret a | Err e => raise e end.

Definition get_self : M session := fun w => (Ok (self w), w).

Definition modify_self (f : session -> session) : M unit :=
  fun w => (Ok tt, {| self := f (self w); env := env w |}).

Definition get_env : M environment := fun w => (Ok (env w), w).

Definition modify_env (f : environment -> environment) : M unit :=
  fun w => (Ok tt, {| self := self w; env := f (env w) |}).

(** The world once [ev] is added to the trace. *)
Definition record (ev : event) (w : world) : world :=
  {| self := self w; env := log ev (env w) |}.

Definition emit (ev : event) : M unit := fun w => (Ok tt, record ev w).

(** The outcome the environment gives to the next awaited call, and the
    world once that call is answered and recorded with its outcome. *)
Definition next_outcome (w : world) : outcome :=
  oracle (env w) (tick (env w)).

Definition answered (call : outcome -> event) (w : world) : world :=
  {| self := self w;
     env := log (call (next_outcome w)) (advance_tick (env w)) |}.

(** An awaited operation of a collaborator: the environment decides whether
    it returns or raises. *)
Definition await (call : outcome -> event) : M retval :=
  fun w =>
    match next_outcome w with
    | Returns v => (Ok v, answered call w)
    | Raises e => (Err e, answered call w)
    end.

Definition truthy (v : retval) : bool :=
  match v with
  | RNone => false
  | RBool b => b
  | RReply r => match r with [] => false | _ => true end
  end.

(** *** The connection and the pool, at their boundary

    [send_command], [read_response], [can_read] and [connect] are awaited and
    may raise: each takes its outcome from the environment.  What [connect]
    does on the connection's side, the call of the registered connect
    callbacks included, belongs to the connection and is part of that
    outcome: the commands that a callback sends and what it does to the
    session are not part of the step that [connect] is here, and
    [on_connect] is studied as a call of its own.  The synchronous calls
    and the awaited calls on the pool and the node table are recorded and
    return. *)
Definition send_command (c : connection) (args : list pyval) : M retval :=
  await (EvSendCommand (conn_id c) args).

Definition read_response (c : connection) : M retval :=
  await (EvReadResponse (conn_id c)).

Definition can_read (c : connection) : M retval :=
  await (EvCanRead (conn_id c)).

Definition connect (c : connection) : M retval :=
  await (EvConnect (conn_id c)).

Definition disconnect (c : connection) : M unit :=
  emit (EvDisconnect (conn_id c)).

Definition clear_connect_callbacks (c : connection) : M unit :=
  emit (EvClearConnectCallbacks (conn_id c)).

Definition register_connect_callback (c : connection) : M unit :=
  emit (EvRegisterConnectCallback (conn_id c)).

Definition get_connection (purpose : option string) (channel : option pyval)
  : M connection :=
  e <- get_env ;;
  let c := {| conn_id := next_conn e;
              retry_on_timeout := pool_retry_on_timeout e |} in
  modify_env advance_next_conn ;;
  emit (EvGetConnection purpose channel (conn_id c)) ;;
  ret c.

Definition sleep (n : nat) : M unit :=
  modify_env (advance_clock n) ;; emit (EvSleep n).

Definition print (what : string) : M unit := emit (EvPrint what).

Definition index (r : list pyval) (i : nat) : M pyval :=
  match nth_error r i with
  | Some v => ret v
  | None => raise IndexError
  end.

Definition pool_initialize : M unit := emit EvPoolInitialize.

Definition increment_reinitialize_counter : M unit :=
  modify_env advance_reinitialize_counter ;;
  emit EvIncrementReinitializeCounter.

Definition call_handler (h : handler) (m : message) : M retval :=
  await (EvHandler h m).

Definition mem (x : pyval) (l : list pyval) : bool :=
  existsb (fun y => if pyval_eq_dec x y then true else false) l.

Definition kwargs := list (text * option handler).

(** The result of a [while] loop run with fuel. *)
Inductive loop (A : Type) : Type :=
| Ended (a : A)
| OutOfFuel.
Arguments Ended {A} a.
Arguments OutOfFuel {A}.

(** ** class PubSub *)
Module PubSub.

Definition PUBLISH_MESSAGE_TYPES : list text := [lit "message"; lit "pmessage"].
Definition UNSUBSCRIBE_MESSAGE_TYPES : list text :=
  [lit "unsubscribe"; lit "punsubscribe"].

Definition is_type (t : text) (types : list text) : bool :=
  existsb (fun y => if text_eq_dec t y then true else false) types.

(** [encode], lines 80-89. *)
Definition encode (value : pyval) : M pyval :=
  s <- get_self ;;
  match value with
  | PBytes b =>
      if decode_responses s then
        match bytes_decode (encoding s) b with
        | Some t => ret (PStr t)
        | None => raise UnicodeError
        end
      else ret value
  | PStr t =>
      if negb (decode_responses s) then
        match str_encode (encoding s) t with
        | Some b => ret (PBytes b)
        | None => raise UnicodeError
        end
      else ret value
  | _ => ret value
  end.

(** [subscribed], lines 91-94. *)
Definition subscribed (s : session) : bool :=
  negb (Dict.is_empty (channels s)) || negb (Dict.is_empty (patterns s)).

(** [_execute], lines 111-135.  [command] is the bound method applied to its
    arguments, run once in the [try] and once more after a reconnect. *)
Definition _execute (connection : connection) (command : M retval)
  : M retval :=
  try_except command (fun e =>
    match e with
    | CancelledError =>
        r <- can_read connection ;;
        (if truthy r then disconnect connection else ret tt) ;;
        ret RNone
    | ConnectionError | TimeoutError =>
        disconnect connection ;;
        if negb (retry_on_timeout connection)
           && (if exn_eq_dec e TimeoutError then true else false)
        then raise e
        else
          try_except (connect connection)
            (fun e' => clear_connect_callbacks connection ;; raise e') ;;
          command
    | _ => raise e
    end).

(** [execute_command], lines 96-109. *)
Definition execute_command (args : list pyval) : M unit :=
  s <- get_self ;;
  connection <-
    match connection_ s with
    | None =>
        c <- get_connection None None ;;
        modify_self (set_connection (Some c)) ;;
        register_connect_callback c ;;
        ret c
    | Some c => ret c
    end ;;
  _execute connection (send_command connection args) ;;
  ret tt.

Section Methods.

(** [self.execute_command], which [ClusterPubSub] overrides, and
    [aredis.utils.list_or_args] and [aredis.utils.nativestr], whose
    module is not part of this file. *)
Variable self_execute_command : list pyval -> M unit.
Variable list_or_args : pyval -> list pyval -> list pyval.
Variable nativestr : pyval -> result text.

(** [map(self.encode, args)] *)
Fixpoint encode_all (args : list pyval) : M (list pyval) :=
  match args with
  | [] => ret []
  | a :: rest =>
      k <- encode a ;;
      ks <- encode_all rest ;;
      ret (k :: ks)
  end.

(** [for name, handler in iteritems(kwargs): new[self.encode(name)] = handler] *)
Fixpoint encode_kwargs (kw : kwargs) (new : mapping) : M mapping :=
  match kw with
  | [] => ret new
  | (name, h) :: rest =>
      k <- encode (PStr name) ;;
      encode_kwargs rest (Dict.set k h new)
  end.

(** The dictionary [new_channels] / [new_patterns] built by lines 160-165
    and 190-195. *)
Definition new_entries (args : list pyval) (kw : kwargs) : M mapping :=
  let args := match args with
              | [] => []
              | a :: rest => list_or_args a rest
              end in
  ks <- encode_all args ;;
  encode_kwargs kw (Dict.update [] (Dict.fromkeys ks)).

(** [psubscribe], lines 152-171. *)
Definition psubscribe (args : list pyval) (kw : kwargs) : M unit :=
  new_patterns <- new_entries args kw ;;
  ret_val <- self_execute_command
               (PStr (lit "PSUBSCRIBE") :: Dict.keys new_patterns) ;;
  modify_self (fun s =>
    set_patterns (Dict.update (patterns s) new_patterns) s) ;;
  ret ret_val.

(** [subscribe], lines 182-201. *)
Definition subscribe (args : list pyval) (kw : kwargs) : M unit :=
  new_channels <- new_entries args kw ;;
  ret_val <- self_execute_command
               (PStr (lit "SUBSCRIBE") :: Dict.keys new_channels) ;;
  modify_self (fun s =>
    set_channels (Dict.update (channels s) new_channels) s) ;;
  ret ret_val.

(** [k.decode(self.encoding)] when the session does not decode responses
    (lines 68-69, 75-76); only [bytes] has a [decode]. *)
Definition native_key (s : session) (k : pyval) : result pyval :=
  if negb (decode_responses s) then
    match k with
    | PBytes b =>
        match bytes_decode (encoding s) b with
        | Some t => Ok (PStr t)
        | None => Err UnicodeError
        end
    | _ => Err AttributeError
    end
  else Ok k.

(** The loops of lines 66-70 and 73-77. *)
Fixpoint native_items (s : session) (items : mapping) (acc : mapping)
  : result mapping :=
  match items with
  | [] => Ok acc
  | (k, v) :: rest =>
      match native_key s k with
      | Ok k' => native_items s rest (Dict.set k' v acc)
      | Err e => Err e
      end
  end.

(** Passing a dictionary as the keyword arguments of the bound methods
    [subscribe] and [psubscribe] (lines 71 and 78): the names must be
    [str], and the name [self] is the one of the first parameter of the
    method, which the bound method has filled already.  Either way the call
    raises a [TypeError] before the body of the method runs. *)
Fixpoint as_kwargs (d : mapping) : result kwargs :=
  match d with
  | [] => Ok []
  | (PStr name, v) :: rest =>
      if text_eq_dec name (lit "self") then Err TypeError
      else
        match as_kwargs rest with
        | Ok kw => Ok ((name, v) :: kw)
        | Err e => Err e
        end
  | _ :: _ => Err TypeError
  end.

(** [on_connect], lines 60-78. *)
Definition on_connect : M unit :=
  s <- get_self ;;
  (if negb (Dict.is_empty (channels s)) then
     channels' <- lift (native_items s (channels s) []) ;;
     kw <- lift (as_kwargs channels') ;;
     subscribe [] kw
   else ret tt) ;;
  s <- get_self ;;
  (if negb (Dict.is_empty (patterns s)) then
     patterns' <- lift (native_items s (patterns s) []) ;;
     kw <- lift (as_kwargs patterns') ;;
     psubscribe [] kw
   else ret tt).

(** [d.get(k, None)] *)
Definition get_handler (k : pyval) (d : mapping) : option handler :=
  match Dict.get k d with
  | Some v => v
  | None => None
  end.

(** [try: del d[k] except KeyError: pass] *)
Definition discard (k : pyval) (d : mapping) : mapping :=
  match Dict.del k d with
  | Some d' => d'
  | None => d
  end.

(** [handle_message], lines 230-280. *)
Definition handle_message (response : list pyval)
           (ignore_subscribe_messages_arg : bool) : M (option message) :=
  r0 <- index response 0 ;;
  message_type <- lift (nativestr r0) ;;
  message <-
    (if text_eq_dec message_type (lit "pmessage") then
       p <- index response 1 ;;
       c <- index response 2 ;;
       d <- index response 3 ;;
       ret {| msg_type := message_type; msg_pattern := p;
              msg_channel := c; msg_data := d |}
     else
       c <- index response 1 ;;
       d <- index response 2 ;;
       ret {| msg_type := message_type; msg_pattern := PNone;
              msg_channel := c; msg_data := d |}) ;;
  (if is_type message_type UNSUBSCRIBE_MESSAGE_TYPES then
     if text_eq_dec message_type (lit "punsubscribe") then
       modify_self (fun s =>
         set_patterns (discard (msg_channel message) (patterns s)) s)
     else
       modify_self (fun s =>
         set_channels (discard (msg_channel message) (channels s)) s)
   else ret tt) ;;
  s <- get_self ;;
  if is_type message_type PUBLISH_MESSAGE_TYPES then
    let handler :=
      if text_eq_dec message_type (lit "pmessage")
      then get_handler (msg_pattern message) (patterns s)
      else get_handler (msg_channel message) (channels s) in
    match handler with
    | Some h => call_handler h message ;; ret None
    | None => ret (Some message)
    end
  else
    if ignore_subscribe_messages_arg || ignore_subscribe_messages s
    then ret None
    else ret (Some message).

End Methods.

(** [reset], lines 46-55.  The result is the connection handed back by
    [connection_pool.release], when one was held. *)
Definition reset : M (option connection) :=
  s <- get_self ;;
  released <-
    match connection_ s with
    | Some c =>
        disconnect c ;;
        clear_connect_callbacks c ;;
        modify_self (set_connection None) ;;
        ret (Some c)
    | None => ret None
    end ;;
  modify_self (set_channels []) ;;
  modify_self (set_patterns []) ;;
  ret released.

(** [close], lines 57-58. *)
Definition close : M (option connection) := reset.

(** [parse_response], lines 137-150.  Under [asyncio.wait_for] a timeout
    reaches the read as a cancellation and is then raised as a timeout
    error; with every other exception of the read it ends in the
    [except Exception: return None] of line 148. *)
Definition parse_response (block : bool) (timeout : Z) : M retval :=
  s <- get_self ;;
  match connection_ s with
  | None => raise (OtherError "RuntimeError")
  | Some connection =>
      let coro := _execute connection (read_response connection) in
      if negb block && (0 <? timeout)%Z then
        try_except coro (fun _ => ret RNone)
      else coro
  end.

(** [response[0]], the first thing either [handle_message] does: only a
    list can be subscripted. *)
Definition as_reply (response : retval) : M (list pyval) :=
  match response with
  | RReply r => ret r
  | _ => raise TypeError
  end.

(** The first key bound to [None], as the loops of lines 283-290 meet it. *)
Fixpoint first_unhandled (d : mapping) : option pyval :=
  match d with
  | [] => None
  | (k, None) :: _ => Some k
  | (_, Some _) :: d' => first_unhandled d'
  end.

Section Pull.

Variable self_execute_command : list pyval -> M unit.
Variable self_handle_message : list pyval -> bool -> M (option message).
Variable list_or_args : pyval -> list pyval -> list pyval.

(** [punsubscribe], lines 173-180. *)
Definition punsubscribe (args : list pyval) : M unit :=
  let args := match args with
              | [] => []
              | a :: rest => list_or_args a rest
              end in
  self_execute_command (PStr (lit "PUNSUBSCRIBE") :: args).

(** [unsubscribe], lines 203-210. *)
Definition unsubscribe (args : list pyval) : M unit :=
  let args := match args with
              | [] => []
              | a :: rest => list_or_args a rest
              end in
  self_execute_command (PStr (lit "UNSUBSCRIBE") :: args).

(** [listen], lines 212-215. *)
Definition listen : M (option message) :=
  s <- get_self ;;
  if subscribed s then
    response <- parse_response true 0 ;;
    r <- as_reply response ;;
    self_handle_message r false
  else ret None.

(** [get_message], lines 217-228. *)
Definition get_message (ignore_subscribe_messages_arg : bool) (timeout : Z)
  : M (option message) :=
  response <- parse_response false timeout ;;
  if truthy response then
    r <- as_reply response ;;
    self_handle_message r ignore_subscribe_messages_arg
  else ret None.

(** [run_in_thread], lines 282-293, up to the start of the worker thread,
    which schedules [PubSubWorkerThread._run] on the loop. *)
Definition run_in_thread (daemon : bool) : M unit :=
  s <- get_self ;;
  match first_unhandled (channels s) with
  | Some _ => raise (OtherError "PubSubError")
  | None =>
      match first_unhandled (patterns s) with
      | Some _ => raise (OtherError "PubSubError")
      | None => emit (EvEnsureFuture "PubSubWorkerThread._run")
      end
  end.

End Pull.

End PubSub.

(** ** class ClusterPubSub(PubSub) *)
Module ClusterPubSub.

Section Methods.
Variable nativestr : pyval -> result text.

(** [handle_message], lines 349-356. *)
Definition handle_message (response : list pyval)
           (ignore_subscribe_messages_arg : bool) : M (option message) :=
  r0 <- index response 0 ;;
  if pyval_eq_dec r0 (PStr (lit "pong")) then
    e <- get_env ;;
    modify_self (set_last_pong (Some (now e))) ;;
    ret None
  else if negb (mem r0 [PStr (lit "message"); PStr (lit "subscribe")]) then
    print "response not recegnized" ;;
    ret None
  else
    PubSub.handle_message nativestr response ignore_subscribe_messages_arg.
End Methods.

(** [execute_command], lines 428-467.  The method calls itself from its
    [except] clause; [fuel] bounds the depth of that recursion and
    [execute_command] below supplies enough of it for every [tries]. *)
Fixpoint execute_command_rec (fuel : nat) (args : list pyval) (tries : nat)
  : M unit :=
  match fuel with
  | 0 => raise (OtherError "RecursionError")
  | S fuel' =>
      pool_initialize ;;
      s <- get_self ;;
      match connection_ s with
      | None =>
          channel <- index args 1 ;;
          c <- get_connection (Some "pubsub"%string) (Some channel) ;;
          modify_self (set_connection (Some c)) ;;
          e <- get_env ;;
          modify_self (set_last_pong (Some (now e))) ;;
          register_connect_callback c ;;
          s' <- get_self ;;
          if reconnect_closed_coro s' then ret tt
          else
            emit (EvEnsureFuture "reconnect_closed") ;;
            modify_self (set_reconnect_closed_coro true)
      | Some _ => ret tt
      end ;;
      try_except
        (s <- get_self ;;
         match connection_ s with
         | Some connection =>
             PubSub._execute connection (send_command connection args) ;;
             ret tt
         | None => raise AttributeError
         end)
        (fun e =>
           if 25 <? tries then
             print "too many pubsub retries, giving up" ;;
             raise e
           else
             let tries := tries + 1 in
             increment_reinitialize_counter ;;
             modify_self (set_connection None) ;;
             sleep (tries + 1) ;;
             print "Redis pubsub _execute exception" ;;
             execute_command_rec fuel' args tries)
  end.

Definition execute_command (args : list pyval) (tries : nat) : M unit :=
  execute_command_rec (S (26 - tries)) args tries.

(** [ping_handler], lines 358-365, taken on its own: [fuel] bounds the
    number of iterations. *)
Fixpoint ping_handler (fuel : nat) : M (loop unit) :=
  match fuel with
  | 0 => ret OutOfFuel
  | S fuel' =>
      s <- get_self ;;
      match connection_ s with
      | None => ret (Ended tt)
      | Some c =>
          try_except
            (send_command c [PStr (lit "ping")] ;; ret tt)
            (fun _ => print "unable to ping cluster connection") ;;
          sleep 2 ;;
          ping_handler fuel'
      end
  end.

End ClusterPubSub.

(** ** class PubSubWorkerThread *)
Module PubSubWorkerThread.

Section Methods.
Variable nativestr : pyval -> result text.

(** [_run], lines 307-312, for a worker of a [PubSub] session; [fuel]
    bounds the iterations of the loop.  [Ended released] stands for the
    normal end: [pubsub.close()] handed [released] back to the pool and
    [_running] was set to [False]. *)
Fixpoint _run (fuel : nat) : M (loop (option connection)) :=
  match fuel with
  | 0 => ret OutOfFuel
  | S fuel' =>
      s <- get_self ;;
      if PubSub.subscribed s then
        PubSub.get_message (PubSub.handle_message nativestr) true 0 ;;
        _run fuel'
      else
        released <- PubSub.close ;;
        ret (Ended released)
  end.

End Methods.

End PubSubWorkerThread.


(** ** Instances for the examples *)
Module Examples.

(** A stand-in for [aredis.utils.nativestr]: a [str] is returned as it is
    and a [bytes] that is valid UTF-8 is decoded. *)
Definition nativestr (x : pyval) : result text :=
  match x with
  | PStr s => Ok s
  | PBytes b =>
      match Codec.utf8_decode b with
      | Some s => Ok s
      | None => Err UnicodeError
      end
  | _ => Err AttributeError
  end.

(** [aredis.utils.list_or_args] on names given one by one. *)
Definition list_or_args (k : pyval) (rest : list pyval) : list pyval :=
  k :: rest.

Definition new_session (decode : bool) (enc : codec) : session :=
  {| connection_ := None; channels := []; patterns := [];
     ignore_subscribe_messages := false;
     decode_responses := decode; encoding := enc;
     last_pong := None; reconnect_closed_coro := false |}.

Definition new_environment (o : nat -> outcome) : environment :=
  {| oracle := o; tick := 0; now := 100; next_conn := 0;
     pool_retry_on_timeout := false; reinitialize_counter := 0;
     trace := [] |}.

Definition new_world (decode : bool) (enc : codec) (o : nat -> outcome)
  : world :=
  {| self := new_session decode enc; env := new_environment o |}.

(** The n-th outcome is the n-th element of [l], and a normal return after
    that. *)
Definition script (l : list outcome) : nat -> outcome :=
  fun n => nth n l (Returns RNone).

Definition always (o : outcome) : nat -> outcome := fun _ => o.

Definition news : pyval := PStr (lit "news").

(** A session in text mode subscribed to [news] with handler 7 and to the
    pattern [n*] with handler 9. *)
Definition subscribed_world (o : nat -> outcome) : world :=
  {| self := set_patterns [(PStr (lit "n*"), Some 9)]
               (set_channels [(news, Some 7)]
                  (new_session true Codec.utf8_codec));
     env := new_environment o |}.

(** A session in raw-byte mode (UTF-8) with the same subscriptions. *)
Definition raw_world (o : nat -> outcome) : world :=
  {| self := set_patterns [(PBytes "n*"%string, None)]
               (set_channels [(PBytes "news"%string, Some 7)]
                  (new_session false Codec.utf8_codec));
     env := new_environment o |}.

(** The one-byte name [0xFF], which no UTF-8 text encodes to. *)
Definition undecodable : pyval := PBytes (String (ascii_of_N 255) EmptyString).

Definition conn0 : connection := {| conn_id := 0; retry_on_timeout := false |}.

Definition subscribe_news : list pyval :=
  [PStr (lit "SUBSCRIBE"); PBytes "news"%string].

End Examples.

(** ** Auxiliary notions for the statements *)

(** The events of the connection itself, as opposed to those of the pool,
    the node table, the clock and the callbacks. *)
Definition is_wire (ev : event) : bool :=
  match ev with
  | EvSendCommand _ _ _ | EvReadResponse _ _ | EvCanRead _ _
  | EvConnect _ _ | EvDisconnect _ | EvClearConnectCallbacks _ => true
  | _ => false
  end.

(** [wire_step w w']: from [w] to [w'] only the connection was used; the
    attributes of [self], the pool and the node table are as they were. *)
Definition wire_step (w w' : world) : Prop :=
  self w' = self w /\
  oracle (env w') = oracle (env w) /\
  next_conn (env w') = next_conn (env w) /\
  reinitialize_counter (env w') = reinitialize_counter (env w) /\
  exists tr, trace (env w') = trace (env w) ++ tr /\ forallb is_wire tr = true.

Definition wire_only {A} (m : M A) : Prop :=
  forall w, wire_step w (snd (m w)).

(** The connection [PubSub.execute_command] works on: the one held, or the
    next one of the pool; and the world once it is held and the reconnect
    hook registered. *)
Definition held_connection (w : world) : connection :=
  match connection_ (self w) with
  | Some c => c
  | None => {| conn_id := next_conn (env w);
               retry_on_timeout := pool_retry_on_timeout (env w) |}
  end.

Definition acquired (w : world) : world :=
  match connection_ (self w) with
  | Some _ => w
  | None =>
      let c := held_connection w in
      record (EvRegisterConnectCallback (conn_id c))
        (record (EvGetConnection None None (conn_id c))
           {| self := set_connection (Some c) (self w);
              env := advance_next_conn (env w) |})
  end.

(** Counting on a trace: the calls of [connection_pool.initialize] (one at
    the start of every [ClusterPubSub.execute_command]), the connections
    taken from the pool, and the durations slept. *)
Definition is_pool_initialize (ev : event) : bool :=
  match ev with EvPoolInitialize => true | _ => false end.

Definition is_get_connection (ev : event) : bool :=
  match ev with EvGetConnection _ _ _ => true | _ => false end.

Definition attempts (tr : list event) : nat :=
  List.length (filter is_pool_initialize tr).

Definition acquisitions (tr : list event) : nat :=
  List.length (filter is_get_connection tr).

Definition sleeps (tr : list event) : list nat :=
  flat_map (fun ev => match ev with EvSleep n => [n] | _ => [] end) tr.

(** The statements of [ClusterPubSub.execute_command] before its [try]
    (lines 437-452) and those of its [except] clause between the test of
    [tries] and the recursive call (lines 461-466, [tries] already
    incremented). *)
Definition cluster_prelude (args : list pyval) : M unit :=
  pool_initialize ;;
  s <- get_self ;;
  match connection_ s with
  | None =>
      channel <- index args 1 ;;
      c <- get_connection (Some "pubsub"%string) (Some channel) ;;
      modify_self (set_connection (Some c)) ;;
      e <- get_env ;;
      modify_self (set_last_pong (Some (now e))) ;;
      register_connect_callback c ;;
      s' <- get_self ;;
      if reconnect_closed_coro s' then ret tt
      else
        emit (EvEnsureFuture "reconnect_closed") ;;
        modify_self (set_reconnect_closed_coro true)
  | Some _ => ret tt
  end.

Definition cluster_backoff (tries : nat) : M unit :=
  increment_reinitialize_counter ;;
  modify_self (set_connection None) ;;
  sleep (tries + 1) ;;
  print "Redis pubsub _execute exception".

(** One attempt of [ClusterPubSub.execute_command]: the statements before
    the [try] and the protected [_execute] of the send (lines 437-457). *)
Definition cluster_attempt (args : list pyval) : M unit :=
  cluster_prelude args ;;
  s <- get_self ;;
  match connection_ s with
  | Some connection =>
      PubSub._execute connection (send_command connection args) ;; ret tt
  | None => raise AttributeError
  end.

(** [attempts_fail n args tries w]: from the world [w], in a call made with
    [tries], the next [n] attempts all raise, each one run in the world the
    back-off after the previous one leaves. *)
Fixpoint attempts_fail (n : nat) (args : list pyval) (tries : nat)
         (w : world) : bool :=
  match n with
  | 0 => true
  | S n' =>
      match cluster_attempt args w with
      | (Err _, w1) =>
          attempts_fail n' args (tries + 1)
            (snd (cluster_backoff (tries + 1) w1))
      | (Ok _, _) => false
      end
  end.

(** A stored key can be replayed by [on_connect] when it has the form the
    session gives to its keys and survives the trip through keyword
    arguments: a [str] in a session that decodes responses; otherwise a
    [bytes] that decodes under the session's encoding to a text that encodes
    back to the same bytes. *)
Definition replayable (decode : bool) (enc : codec) (k : pyval) : bool :=
  match k with
  | PStr _ => decode
  | PBytes b =>
      if decode then false
      else match bytes_decode enc b with
           | Some t =>
               match str_encode enc t with
               | Some b' => if string_dec b' b then true else false
               | None => false
               end
           | None => false
           end
  | _ => false
  end.

(** The keyword name under which a stored key is replayed, and the keyword
    arguments that replay a mapping: one per entry, in the order of the
    mapping, with the handler of the entry. *)
Definition native_name (enc : codec) (k : pyval) : text :=
  match k with
  | PStr t => t
  | PBytes b => match bytes_decode enc b with Some t => t | None => [] end
  | _ => []
  end.

(** A key whose replayed name is not [self], the one name that the bound
    methods [subscribe] and [psubscribe] cannot take as a keyword. *)
Definition not_self (enc : codec) (k : pyval) : bool :=
  if text_eq_dec (native_name enc k) (lit "self") then false else true.

(** The keys [on_connect] replays: those that can be replayed as keyword
    arguments and are not named [self]. *)
Definition replays (decode : bool) (enc : codec) (k : pyval) : bool :=
  replayable decode enc k && not_self enc k.

Definition replay_kwargs (enc : codec) (d : mapping) : kwargs :=
  map (fun kv => (native_name enc (fst kv), snd kv)) d.

(** The dictionary built by the loops of [on_connect] from a mapping. *)
Definition named (enc : codec) (d : mapping) : mapping :=
  map (fun kv => (PStr (native_name enc (fst kv)), snd kv)) d.

(** [if d: m] *)
Definition when_nonempty (d : mapping) (m : M unit) : M unit :=
  if negb (Dict.is_empty d) then m else ret tt.

(** The invariant of the data model: a session that tracks a subscription
    holds a connection. *)
Definition connected_if_subscribed (s : session) : Prop :=
  PubSub.subscribed s = true -> connection_ s <> None.

(** A computation that keeps a property of the session, however it ends. *)
Definition keeps {A} (P : session -> Prop) (m : M A) : Prop :=
  forall w, P (self w) -> P (self (snd (m w))).

(** The acknowledgements of an [unsubscribe] or [punsubscribe] command, as
    the broker sends them: one reply per key, with the number of
    subscriptions left. *)
Inductive ack : Type :=
| AckChannel (k n : pyval)
| AckPattern (k n : pyval).

Definition reply_of (a : ack) : list pyval :=
  match a with
  | AckChannel k n => [PStr (lit "unsubscribe"); k; n]
  | AckPattern k n => [PStr (lit "punsubscribe"); k; n]
  end.

Definition channel_acks (l : list ack) : list pyval :=
  flat_map (fun a => match a with AckChannel k _ => [k] | _ => [] end) l.

Definition pattern_acks (l : list ack) : list pyval :=
  flat_map (fun a => match a with AckPattern k _ => [k] | _ => [] end) l.

(** What one round of [ping_handler] records on connection [c] when the
    ping meets outcome [o]. *)
Definition ping_round (c : nat) (o : outcome) : list event :=
  EvSendCommand c [PStr (lit "ping")] o
  :: match o with
     | Returns _ => []
     | Raises _ => [EvPrint "unable to ping cluster connection"]
     end
  ++ [EvSleep 2].

(** The world [w] once its session holds connection [c]. *)
Definition with_connection (c : connection) (w : world) : world :=
  {| self := set_connection (Some c) (self w); env := env w |}.

(** * Properties *)

(** ** Dictionaries *)

Lemma get_del_none {V} (k : pyval) (d : Dict.t V) :
  Dict.del k d = None <-> Dict.get k d = None.
Proof.
  induction d as [|[k' v] d IH]; simpl; [tauto|].
  destruct (pyval_eq_dec k k'); [split; discriminate|].
  destruct (Dict.del k d); split; intros H; try discriminate;
    try (apply IH; assumption).
  apply IH in H. discriminate.
Qed.

Lemma get_del_other {V} (k k' : pyval) (d d' : Dict.t V) :
  Dict.del k d = Some d' -> k' <> k -> Dict.get k' d' = Dict.get k' d.
Proof.
  revert d'. induction d as [|[k0 v] d IH]; simpl; intros d' H Hne.
  - discriminate.
  - destruct (pyval_eq_dec k k0) as [->|Hk].
    + injection H as <-. destruct (pyval_eq_dec k' k0); congruence.
    + destruct (Dict.del k d) as [d''|]; [|discriminate].
      injection H as <-. simpl.
      destruct (pyval_eq_dec k' k0); [reflexivity|]. now apply IH.
Qed.

Lemma get_not_in {V} (k : pyval) (d : Dict.t V) :
  ~ In k (Dict.keys d) -> Dict.get k d = None.
Proof.
  induction d as [|[k' v] d IH]; simpl; intros H; [reflexivity|].
  destruct (pyval_eq_dec k k') as [->|]; [tauto|]. apply IH. tauto.
Qed.

Lemma get_del_same {V} (k : pyval) (d d' : Dict.t V) :
  Dict.wf d -> Dict.del k d = Some d' -> Dict.get k d' = None.
Proof.
  unfold Dict.wf. revert d'.
  induction d as [|[k0 v] d IH]; simpl; intros d' Hwf H.
  - discriminate.
  - inversion Hwf as [|? ? Hnin Hwf']; subst.
    destruct (pyval_eq_dec k k0) as [->|Hk].
    + injection H as <-. now apply get_not_in.
    + destruct (Dict.del k d) as [d''|]; [|discriminate].
      injection H as <-. simpl.
      destruct (pyval_eq_dec k k0); [contradiction|]. now apply IH.
Qed.

Lemma discard_absent (k : pyval) (d : mapping) :
  Dict.get k d = None -> PubSub.discard k d = d.
Proof.
  intros H. unfold PubSub.discard.
  apply get_del_none in H. now rewrite H.
Qed.

Lemma discard_other (k k' : pyval) (d : mapping) :
  k' <> k -> Dict.get k' (PubSub.discard k d) = Dict.get k' d.
Proof.
  intros H. unfold PubSub.discard.
  destruct (Dict.del k d) eqn:E; [|reflexivity].
  eapply get_del_other; eauto.
Qed.

Lemma discard_same (k : pyval) (d : mapping) :
  Dict.wf d -> Dict.get k (PubSub.discard k d) = None.
Proof.
  intros H. unfold PubSub.discard.
  destruct (Dict.del k d) eqn:E.
  - eapply get_del_same; eauto.
  - now apply get_del_none.
Qed.

(** ** Message dispatch *)

Ltac literal_neq :=
  match goal with
  | H : lit _ = lit _ |- _ => cbv in H; discriminate H
  | H : PStr _ = PStr _ |- _ => cbv in H; discriminate H
  | H : _ = _ |- _ => discriminate H
  end.

Ltac run :=
  cbv beta iota zeta delta
      [bind ret raise lift get_self get_env modify_self modify_env
       try_except emit index nth_error].

Section Dispatch.
Variable nativestr : pyval -> result text.

Let handle := PubSub.handle_message nativestr.

Lemma handle_message_plain (w : world) (t c d : pyval) (rest : list pyval)
      (ign : bool) (ty : text) :
  nativestr t = Ok ty ->
  ty <> lit "pmessage" ->
  handle (t :: c :: d :: rest) ign w =
  let m := {| msg_type := ty; msg_pattern := PNone;
              msg_channel := c; msg_data := d |} in
  let s1 :=
    if PubSub.is_type ty PubSub.UNSUBSCRIBE_MESSAGE_TYPES then
      if text_eq_dec ty (lit "punsubscribe")
      then set_patterns (PubSub.discard c (patterns (self w))) (self w)
      else set_channels (PubSub.discard c (channels (self w))) (self w)
    else self w in
  let w1 := {| self := s1; env := env w |} in
  if PubSub.is_type ty PubSub.PUBLISH_MESSAGE_TYPES then
    match PubSub.get_handler c (channels s1) with
    | Some h => (call_handler h m ;; ret None) w1
    | None => (Ok (Some m), w1)
    end
  else if ign || ignore_subscribe_messages s1 then (Ok None, w1)
       else (Ok (Some m), w1).
Proof.
  intros Hty Hnp. unfold handle, PubSub.handle_message. run.
  rewrite Hty. run.
  destruct (text_eq_dec ty (lit "pmessage")) as [E|_]; [contradiction|].
  run.
  destruct (PubSub.is_type ty PubSub.UNSUBSCRIBE_MESSAGE_TYPES);
    [destruct (text_eq_dec ty (lit "punsubscribe"))|]; run;
    destruct (PubSub.is_type ty PubSub.PUBLISH_MESSAGE_TYPES); run;
    destruct w; cbn [self env msg_channel msg_pattern];
    try (match goal with
         | |- context [PubSub.get_handler ?k ?m] =>
             destruct (PubSub.get_handler k m)
         end);
    try (match goal with
         | |- context [ign || ?b] => destruct (ign || b)
         end);
    reflexivity.
Qed.

Lemma handle_message_pmessage (w : world) (t p c d : pyval)
      (rest : list pyval) (ign : bool) :
  nativestr t = Ok (lit "pmessage") ->
  handle (t :: p :: c :: d :: rest) ign w =
  let m := {| msg_type := lit "pmessage"; msg_pattern := p;
              msg_channel := c; msg_data := d |} in
  match PubSub.get_handler p (patterns (self w)) with
  | Some h => (call_handler h m ;; ret None) w
  | None => (Ok (Some m), w)
  end.
Proof.
  intros Hty. unfold handle, PubSub.handle_message. run.
  rewrite Hty. run.
  destruct (text_eq_dec (lit "pmessage") (lit "pmessage")) as [_|E];
    [|contradiction].
  run.
  replace (PubSub.is_type (lit "pmessage") PubSub.UNSUBSCRIBE_MESSAGE_TYPES)
    with false by reflexivity.
  replace (PubSub.is_type (lit "pmessage") PubSub.PUBLISH_MESSAGE_TYPES)
    with true by reflexivity.
  run. destruct w; cbn [self env msg_channel msg_pattern].
  destruct (text_eq_dec (lit "pmessage") (lit "pmessage")) as [_|E];
    [|contradiction].
  match goal with
  | |- context [PubSub.get_handler ?k ?m] =>
      destruct (PubSub.get_handler k m)
  end; reflexivity.
Qed.

(** What one handler call does to the world. *)
Lemma call_handler_returns (w : world) (h : handler) (m : message)
      (v : retval) :
  next_outcome w = Returns v ->
  (call_handler h m ;; ret (@None message)) w =
  (Ok None, answered (EvHandler h m) w) /\
  trace (env (answered (EvHandler h m) w)) =
  trace (env w) ++ [EvHandler h m (Returns v)].
Proof.
  intros H. unfold call_handler, await, answered. run. rewrite H.
  split; reflexivity.
Qed.

(** C4.  A delivery ([message] or [pmessage]) is routed by its channel,
    respectively its pattern: with a handler registered under that key
    the handler is called once with the parsed message (the only event
    added to the trace) and [handle_message] returns [None]; with no
    handler (the key absent, or bound to [None]) the parsed message is
    returned and the world is left as it was. *)
Theorem handle_message_delivery
        (w : world) (t : pyval) (rest : list pyval) (ign : bool) :
  (forall c d,
      nativestr t = Ok (lit "message") ->
      let m := {| msg_type := lit "message"; msg_pattern := PNone;
                  msg_channel := c; msg_data := d |} in
      (forall h v,
          PubSub.get_handler c (channels (self w)) = Some h ->
          next_outcome w = Returns v ->
          exists w',
            handle (t :: c :: d :: rest) ign w = (Ok None, w') /\
            self w' = self w /\
            trace (env w') = trace (env w) ++ [EvHandler h m (Returns v)])
      /\ (PubSub.get_handler c (channels (self w)) = None ->
          handle (t :: c :: d :: rest) ign w = (Ok (Some m), w)))
  /\
  (forall p c d,
      nativestr t = Ok (lit "pmessage") ->
      let m := {| msg_type := lit "pmessage"; msg_pattern := p;
                  msg_channel := c; msg_data := d |} in
      (forall h v,
          PubSub.get_handler p (patterns (self w)) = Some h ->
          next_outcome w = Returns v ->
          exists w',
            handle (t :: p :: c :: d :: rest) ign w = (Ok None, w') /\
            self w' = self w /\
            trace (env w') = trace (env w) ++ [EvHandler h m (Returns v)])
      /\ (PubSub.get_handler p (patterns (self w)) = None ->
          handle (t :: p :: c :: d :: rest) ign w = (Ok (Some m), w))).
Proof.
  split.
  - intros c d Hty m.
    assert (Hnp : lit "message" <> lit "pmessage") by (intro; literal_neq).
    pose proof (handle_message_plain w c d rest ign Hty Hnp) as E.
    replace (PubSub.is_type (lit "message") PubSub.UNSUBSCRIBE_MESSAGE_TYPES)
      with false in E by reflexivity.
    replace (PubSub.is_type (lit "message") PubSub.PUBLISH_MESSAGE_TYPES)
      with true in E by reflexivity.
    cbv zeta in E. cbn [self channels] in E.
    assert (Hw : {| self := self w; env := env w |} = w) by (now destruct w).
    rewrite Hw in E. split.
    + intros h v Hh Hv. rewrite Hh in E.
      destruct (call_handler_returns w h m Hv) as [E1 E2].
      fold m in E. rewrite E1 in E.
      eexists. split; [exact E|]. split; [reflexivity|exact E2].
    + intros Hh. rewrite Hh in E. exact E.
  - intros p c d Hty m.
    pose proof (handle_message_pmessage w p c d rest ign Hty) as E.
    cbv zeta in E. split.
    + intros h v Hh Hv. rewrite Hh in E.
      destruct (call_handler_returns w h m Hv) as [E1 E2].
      fold m in E. rewrite E1 in E.
      eexists. split; [exact E|]. split; [reflexivity|exact E2].
    + intros Hh. rewrite Hh in E. exact E.
Qed.

(** C5.  An [unsubscribe] acknowledgement removes its key from the channel
    mapping and a [punsubscribe] acknowledgement from the pattern mapping:
    afterwards the key is unbound there, every other key is bound as
    before, an absent key leaves the mapping as it was and raises
    nothing, and the other mapping and the environment are untouched. *)
Theorem handle_message_unsubscribe_ack
        (w : world) (t c d : pyval) (rest : list pyval) (ign : bool) :
  Dict.wf (channels (self w)) ->
  Dict.wf (patterns (self w)) ->
  (nativestr t = Ok (lit "unsubscribe") ->
   exists r w',
     handle (t :: c :: d :: rest) ign w = (Ok r, w') /\
     channels (self w') = PubSub.discard c (channels (self w)) /\
     Dict.get c (channels (self w')) = None /\
     (forall k, k <> c ->
                Dict.get k (channels (self w')) =
                Dict.get k (channels (self w))) /\
     (Dict.get c (channels (self w)) = None ->
      channels (self w') = channels (self w)) /\
     patterns (self w') = patterns (self w) /\
     env w' = env w)
  /\
  (nativestr t = Ok (lit "punsubscribe") ->
   exists r w',
     handle (t :: c :: d :: rest) ign w = (Ok r, w') /\
     patterns (self w') = PubSub.discard c (patterns (self w)) /\
     Dict.get c (patterns (self w')) = None /\
     (forall k, k <> c ->
                Dict.get k (patterns (self w')) =
                Dict.get k (patterns (self w))) /\
     (Dict.get c (patterns (self w)) = None ->
      patterns (self w') = patterns (self w)) /\
     channels (self w') = channels (self w) /\
     env w' = env w).
Proof.
  intros Hc Hp. split; intros Hty.
  - assert (Hnp : lit "unsubscribe" <> lit "pmessage")
      by (intro; literal_neq).
    pose proof (handle_message_plain w c d rest ign Hty Hnp) as E.
    replace (PubSub.is_type (lit "unsubscribe")
               PubSub.UNSUBSCRIBE_MESSAGE_TYPES) with true in E
      by reflexivity.
    replace (PubSub.is_type (lit "unsubscribe")
               PubSub.PUBLISH_MESSAGE_TYPES) with false in E
      by reflexivity.
    destruct (text_eq_dec (lit "unsubscribe") (lit "punsubscribe"))
      as [E'|_]; [literal_neq|].
    cbv zeta in E.
    match type of E with
    | _ = (if ?b then _ else _) =>
        destruct b; (do 2 eexists; split; [exact E|]; cbn;
          repeat split;
          [now apply discard_same
          |intros; now apply discard_other
          |intros; now apply discard_absent])
    end.
  - assert (Hnp : lit "punsubscribe" <> lit "pmessage")
      by (intro; literal_neq).
    pose proof (handle_message_plain w c d rest ign Hty Hnp) as E.
    replace (PubSub.is_type (lit "punsubscribe")
               PubSub.UNSUBSCRIBE_MESSAGE_TYPES) with true in E
      by reflexivity.
    replace (PubSub.is_type (lit "punsubscribe")
               PubSub.PUBLISH_MESSAGE_TYPES) with false in E
      by reflexivity.
    destruct (text_eq_dec (lit "punsubscribe") (lit "punsubscribe"))
      as [_|E']; [|contradiction].
    cbv zeta in E.
    match type of E with
    | _ = (if ?b then _ else _) =>
        destruct b; (do 2 eexists; split; [exact E|]; cbn;
          repeat split;
          [now apply discard_same
          |intros; now apply discard_other
          |intros; now apply discard_absent])
    end.
Qed.

(** C6.  A subscribe or unsubscribe acknowledgement ([subscribe],
    [unsubscribe], [psubscribe], [punsubscribe]) yields [None] exactly
    when the caller's [ignore_subscribe_messages] argument or the
    session's flag is set; otherwise it yields the parsed message: the
    type token, the channel taken from the reply, no pattern. *)
Theorem handle_message_ack_suppression
        (w : world) (t c d : pyval) (rest : list pyval) (ign : bool)
        (ty : text) :
  nativestr t = Ok ty ->
  In ty [lit "subscribe"; lit "unsubscribe";
         lit "psubscribe"; lit "punsubscribe"] ->
  let r := fst (handle (t :: c :: d :: rest) ign w) in
  let m := {| msg_type := ty; msg_pattern := PNone;
              msg_channel := c; msg_data := d |} in
  (r = Ok None <-> ign || ignore_subscribe_messages (self w) = true) /\
  (ign || ignore_subscribe_messages (self w) = false -> r = Ok (Some m)).
Proof.
  intros Hty Hin r m. subst r.
  assert (Hnp : ty <> lit "pmessage").
  { intros ->. cbn in Hin.
    repeat (destruct Hin as [Hin|Hin]; [literal_neq|]). exact Hin. }
  rewrite (handle_message_plain w c d rest ign Hty Hnp).
  assert (Hpub : PubSub.is_type ty PubSub.PUBLISH_MESSAGE_TYPES = false).
  { cbn in Hin.
    repeat (destruct Hin as [<-|Hin]; [reflexivity|]). contradiction. }
  cbv zeta. rewrite Hpub.
  assert (Hflag : forall s',
    s' = (if PubSub.is_type ty PubSub.UNSUBSCRIBE_MESSAGE_TYPES
          then if text_eq_dec ty (lit "punsubscribe")
               then set_patterns (PubSub.discard c (patterns (self w)))
                      (self w)
               else set_channels (PubSub.discard c (channels (self w)))
                      (self w)
          else self w) ->
    ignore_subscribe_messages s' = ignore_subscribe_messages (self w)).
  { intros s' ->.
    destruct (PubSub.is_type ty PubSub.UNSUBSCRIBE_MESSAGE_TYPES);
      [destruct (text_eq_dec ty (lit "punsubscribe"))|]; reflexivity. }
  rewrite (Hflag _ eq_refl).
  destruct (ign || ignore_subscribe_messages (self w)); cbn.
  - split; [tauto|discriminate].
  - split; [split; discriminate|reflexivity].
Qed.

End Dispatch.

(** ** Message dispatch in the cluster variant *)

Section ClusterDispatch.
Variable nativestr : pyval -> result text.

Let handle := ClusterPubSub.handle_message nativestr.

Lemma cluster_handle_unrecognized
      (w : world) (x : pyval) (rest : list pyval) (ign : bool) :
  x <> PStr (lit "pong") ->
  mem x [PStr (lit "message"); PStr (lit "subscribe")] = false ->
  handle (x :: rest) ign w = (Ok None, record (EvPrint "response not recegnized") w).
Proof.
  intros Hp Hm. unfold handle, ClusterPubSub.handle_message. run.
  destruct (pyval_eq_dec x (PStr (lit "pong"))) as [E|_];
    [contradiction|].
  rewrite Hm. reflexivity.
Qed.

Lemma cluster_handle_forwarded
      (w : world) (x : pyval) (rest : list pyval) (ign : bool) :
  mem x [PStr (lit "message"); PStr (lit "subscribe")] = true ->
  handle (x :: rest) ign w =
  PubSub.handle_message nativestr (x :: rest) ign w.
Proof.
  intros Hm. unfold handle, ClusterPubSub.handle_message. run.
  destruct (pyval_eq_dec x (PStr (lit "pong"))) as [->|_].
  - discriminate Hm.
  - rewrite Hm. reflexivity.
Qed.

(** C8.  A reply whose first element is the string [pong] stores the
    current time in [last_pong], changes no other attribute of the session
    and nothing of the environment, and returns [None];
    a reply whose first element is neither [pong] nor one of the types
    the cluster variant dispatches ([message], [subscribe]) is reported
    through [print] and dropped: [None] is returned, no exception is
    raised and the session is untouched. *)
Theorem cluster_handle_message_pong_and_unknown
        (w : world) (x : pyval) (rest : list pyval) (ign : bool) :
  (exists w',
     handle (PStr (lit "pong") :: rest) ign w = (Ok None, w') /\
     last_pong (self w') = Some (now (env w)) /\
     connection_ (self w') = connection_ (self w) /\
     channels (self w') = channels (self w) /\
     patterns (self w') = patterns (self w) /\
     ignore_subscribe_messages (self w') = ignore_subscribe_messages (self w)
     /\
     decode_responses (self w') = decode_responses (self w) /\
     encoding (self w') = encoding (self w) /\
     reconnect_closed_coro (self w') = reconnect_closed_coro (self w) /\
     env w' = env w)
  /\
  (x <> PStr (lit "pong") ->
   mem x [PStr (lit "message"); PStr (lit "subscribe")] = false ->
   exists w',
     handle (x :: rest) ign w = (Ok None, w') /\
     self w' = self w /\
     trace (env w') = trace (env w) ++ [EvPrint "response not recegnized"]).
Proof.
  split.
  - exists {| self := set_last_pong (Some (now (env w))) (self w);
              env := env w |}.
    split; [|repeat split].
    unfold handle, ClusterPubSub.handle_message. run.
    destruct (pyval_eq_dec (PStr (lit "pong")) (PStr (lit "pong")))
      as [_|E]; [reflexivity|contradiction].
  - intros Hp Hm. exists (record (EvPrint "response not recegnized") w).
    split; [now apply cluster_handle_unrecognized|].
    split; reflexivity.
Qed.

(** C9.  The cluster variant hands a reply to the dispatch of [PubSub]
    only when its first element is [message] or [subscribe].  A reply of
    type [pmessage], [psubscribe], [unsubscribe] or [punsubscribe] is
    printed and dropped: the result is [None], the session (both mappings
    included) is as before, and the trace gains the [print] and no handler
    call. *)
Theorem cluster_handle_message_forwards_two_types
        (w : world) (x : pyval) (rest : list pyval) (ign : bool) :
  (x = PStr (lit "message") \/ x = PStr (lit "subscribe") ->
   handle (x :: rest) ign w =
   PubSub.handle_message nativestr (x :: rest) ign w)
  /\
  (In x [PStr (lit "pmessage"); PStr (lit "psubscribe");
         PStr (lit "unsubscribe"); PStr (lit "punsubscribe")] ->
   exists w',
     handle (x :: rest) ign w = (Ok None, w') /\
     self w' = self w /\
     channels (self w') = channels (self w) /\
     patterns (self w') = patterns (self w) /\
     trace (env w') = trace (env w) ++ [EvPrint "response not recegnized"]).
Proof.
  split.
  - intros [-> | ->]; now apply cluster_handle_forwarded.
  - intros Hin. exists (record (EvPrint "response not recegnized") w).
    assert (Hx : x <> PStr (lit "pong") /\
                 mem x [PStr (lit "message"); PStr (lit "subscribe")]
                 = false).
    { cbn in Hin.
      repeat (destruct Hin as [<-|Hin];
              [split; [intro; literal_neq|reflexivity]|]).
      contradiction. }
    destruct Hx as [Hp Hm].
    split; [now apply cluster_handle_unrecognized|].
    repeat split; reflexivity.
Qed.

End ClusterDispatch.

(** ** Command execution *)

Lemma wire_step_refl (w : world) : wire_step w w.
Proof.
  repeat split. exists []. now rewrite app_nil_r.
Qed.

Lemma wire_step_trans (w1 w2 w3 : world) :
  wire_step w1 w2 -> wire_step w2 w3 -> wire_step w1 w3.
Proof.
  intros (S1 & O1 & N1 & R1 & t1 & T1 & F1) (S2 & O2 & N2 & R2 & t2 & T2 & F2).
  repeat split; try congruence.
  exists (t1 ++ t2). split.
  - now rewrite T2, T1, app_assoc.
  - now rewrite forallb_app, F1, F2.
Qed.

Lemma wire_step_record (ev : event) (w : world) :
  is_wire ev = true -> wire_step w (record ev w).
Proof.
  intros H. repeat split. exists [ev]. split; [reflexivity|].
  cbn. now rewrite H.
Qed.

Lemma wire_step_answered (call : outcome -> event) (w : world) :
  (forall o, is_wire (call o) = true) -> wire_step w (answered call w).
Proof.
  intros H. repeat split. exists [call (next_outcome w)].
  split; [reflexivity|]. cbn. now rewrite H.
Qed.

Lemma wire_only_ret {A} (a : A) : wire_only (ret a).
Proof. intros w. apply wire_step_refl. Qed.

Lemma wire_only_raise {A} (e : exn) : wire_only (@raise A e).
Proof. intros w. apply wire_step_refl. Qed.

Lemma wire_only_emit (ev : event) : is_wire ev = true -> wire_only (emit ev).
Proof. intros H w. now apply wire_step_record. Qed.

Lemma wire_only_await (call : outcome -> event) :
  (forall o, is_wire (call o) = true) -> wire_only (await call).
Proof.
  intros H w. unfold await.
  destruct (next_outcome w); now apply wire_step_answered.
Qed.

Lemma wire_only_bind {A B} (m : M A) (k : A -> M B) :
  wire_only m -> (forall a, wire_only (k a)) -> wire_only (bind m k).
Proof.
  intros Hm Hk w. unfold bind. specialize (Hm w).
  destruct (m w) as [[a|e] w']; cbn in *; [|assumption].
  eapply wire_step_trans; [exact Hm|apply Hk].
Qed.

Lemma wire_only_try_except {A} (m : M A) (h : exn -> M A) :
  wire_only m -> (forall e, wire_only (h e)) -> wire_only (try_except m h).
Proof.
  intros Hm Hh w. unfold try_except. specialize (Hm w).
  destruct (m w) as [[a|e] w']; cbn in *; [assumption|].
  eapply wire_step_trans; [exact Hm|apply Hh].
Qed.

Lemma wire_only_send_command (c : connection) (args : list pyval) :
  wire_only (send_command c args).
Proof. apply wire_only_await. reflexivity. Qed.

Lemma wire_only_read_response (c : connection) :
  wire_only (read_response c).
Proof. apply wire_only_await. reflexivity. Qed.

Create HintDb wire.

#[local] Hint Resolve wire_only_ret wire_only_raise wire_only_bind
  wire_only_try_except wire_only_send_command wire_only_read_response : wire.

(** [_execute] touches nothing but the connection it is given. *)
Lemma _execute_wire_only (c : connection) (command : M retval) :
  wire_only command -> wire_only (PubSub._execute c command).
Proof.
  intros Hc. unfold PubSub._execute.
  apply wire_only_try_except; [assumption|].
  intros e.
  destruct e; auto with wire;
    unfold can_read, disconnect, connect, clear_connect_callbacks;
    repeat (first [ apply wire_only_bind; [|intros ?]
                  | apply wire_only_try_except; [|intros ?]
                  | apply wire_only_emit; reflexivity
                  | apply wire_only_await; reflexivity
                  | match goal with
                    | |- wire_only (if ?b then _ else _) => destruct b
                    end
                  | solve [auto with wire] ]).
Qed.

Lemma _execute_ok (c : connection) (command : M retval) (w w1 : world)
      (v : retval) :
  command w = (Ok v, w1) -> PubSub._execute c command w = (Ok v, w1).
Proof.
  intros H. unfold PubSub._execute, try_except. now rewrite H.
Qed.

(** A cancelled command: [can_read] is awaited, the connection is
    disconnected when it answers with a true value, and [None] is
    returned. *)
Lemma _execute_cancelled (c : connection) (command : M retval)
      (w w1 : world) (v : retval) :
  command w = (Err CancelledError, w1) ->
  next_outcome w1 = Returns v ->
  PubSub._execute c command w =
  (Ok RNone,
   if truthy v
   then record (EvDisconnect (conn_id c)) (answered (EvCanRead (conn_id c)) w1)
   else answered (EvCanRead (conn_id c)) w1).
Proof.
  intros H Hv. unfold PubSub._execute, try_except. rewrite H.
  unfold can_read, await, disconnect. run. rewrite Hv.
  destruct (truthy v); reflexivity.
Qed.

(** C7.  When the command raises a [ConnectionError] or a [TimeoutError],
    [_execute] disconnects.  A [TimeoutError] on a connection whose
    [retry_on_timeout] is off is then raised again, with no [connect].
    Otherwise [connect] is awaited: if it raises, the connect callbacks are
    cleared and that exception propagates; if it returns, the command is
    run one more time and [_execute] is exactly that second run, whose
    result or exception is handed to the caller with no further handling. *)
Theorem _execute_reconnects_and_retries_once
        (c : connection) (command : M retval) (w w1 : world) (e : exn) :
  command w = (Err e, w1) ->
  e = ConnectionError \/ e = TimeoutError ->
  let w2 := record (EvDisconnect (conn_id c)) w1 in
  let w3 := answered (EvConnect (conn_id c)) w2 in
  (e = TimeoutError -> retry_on_timeout c = false ->
   PubSub._execute c command w = (Err TimeoutError, w2))
  /\
  (e = ConnectionError \/ retry_on_timeout c = true ->
   (forall v, next_outcome w2 = Returns v ->
              PubSub._execute c command w = command w3)
   /\
   (forall e', next_outcome w2 = Raises e' ->
               PubSub._execute c command w =
               (Err e', record (EvClearConnectCallbacks (conn_id c)) w3))).
Proof.
  intros H He w2 w3. split.
  - intros -> Hr. unfold PubSub._execute, try_except. rewrite H.
    unfold disconnect. run. rewrite Hr. reflexivity.
  - intros Hretry.
    assert (Hgo : negb (retry_on_timeout c)
                  && (if exn_eq_dec e TimeoutError then true else false)
                  = false).
    { destruct Hretry as [-> | ->]; [|reflexivity].
      destruct (retry_on_timeout c); reflexivity. }
    split.
    + intros v Hv. unfold PubSub._execute, try_except. rewrite H.
      destruct He as [-> | ->]; unfold disconnect, connect, await; run;
        fold w2; rewrite Hgo, Hv; reflexivity.
    + intros e' He'. unfold PubSub._execute, try_except. rewrite H.
      destruct He as [-> | ->];
        unfold disconnect, connect, await, clear_connect_callbacks; run;
        fold w2; rewrite Hgo, He'; reflexivity.
Qed.

Lemma trace_answered (call : outcome -> event) (w : world) :
  trace (env (answered call w)) = trace (env w) ++ [call (next_outcome w)].
Proof. reflexivity. Qed.

Lemma trace_record (ev : event) (w : world) :
  trace (env (record ev w)) = trace (env w) ++ [ev].
Proof. reflexivity. Qed.

(** When [_execute] of a send returns and the send was not cancelled, the
    last event on the trace is that send, returned: either the first one or
    the one made after the reconnect. *)
Lemma _execute_send_returned (c : connection) (args : list pyval)
      (w w1 : world) (v : retval) :
  PubSub._execute c (send_command c args) w = (Ok v, w1) ->
  next_outcome w <> Raises CancelledError ->
  exists v' tr,
    trace (env w1) = tr ++ [EvSendCommand (conn_id c) args (Returns v')].
Proof.
  unfold PubSub._execute, try_except, send_command at 1, await at 1.
  destruct (next_outcome w) as [v0|e] eqn:E0.
  - intros H _. injection H as _ <-.
    exists v0, (trace (env w)). now rewrite trace_answered, E0.
  - intros H Hc.
    destruct e; try discriminate H; try congruence;
      unfold disconnect, connect, clear_connect_callbacks in H;
      revert H; run; cbn [negb andb];
      (match goal with
       | |- context [negb (retry_on_timeout c) && ?b] =>
           destruct (negb (retry_on_timeout c) && b); [discriminate|]
       end);
      unfold await at 1;
      (match goal with
       | |- context [match next_outcome ?x with _ => _ end] =>
           destruct (next_outcome x) as [v1|e1]; [|discriminate]
       end);
      unfold send_command, await;
      (match goal with
       | |- context [match next_outcome ?x with _ => _ end] =>
           destruct (next_outcome x) as [v2|e2] eqn:E2; [|discriminate]
       end);
      intros H; injection H as _ <-;
      eexists; eexists; rewrite trace_answered, E2; reflexivity.
Qed.

Lemma execute_command_eq (args : list pyval) (w : world) :
  PubSub.execute_command args w =
  match PubSub._execute (held_connection w)
          (send_command (held_connection w) args) (acquired w) with
  | (Ok _, w') => (Ok tt, w')
  | (Err e, w') => (Err e, w')
  end.
Proof.
  unfold PubSub.execute_command, acquired, held_connection. run.
  destruct w as [s e]. cbn [self env].
  destruct (connection_ s) as [c|]; reflexivity.
Qed.

Lemma acquired_registry (w : world) :
  channels (self (acquired w)) = channels (self w) /\
  patterns (self (acquired w)) = patterns (self w).
Proof.
  unfold acquired. destruct (connection_ (self w)); split; reflexivity.
Qed.

(** [execute_command] leaves both mappings as they are. *)
Lemma execute_command_registry (args : list pyval) (w : world) :
  channels (self (snd (PubSub.execute_command args w))) = channels (self w) /\
  patterns (self (snd (PubSub.execute_command args w))) = patterns (self w).
Proof.
  rewrite execute_command_eq.
  destruct (@_execute_wire_only (held_connection w)
              (send_command (held_connection w) args)
              (wire_only_send_command _ _) (acquired w)) as (K & _).
  destruct (PubSub._execute _ _ (acquired w)) as [[v|e] w']; cbn in *;
    rewrite K; apply acquired_registry.
Qed.

(** ** The mappings under [set] and [update] *)

Lemma get_set_same {V} (k : pyval) (v : V) (d : Dict.t V) :
  Dict.get k (Dict.set k v d) = Some v.
Proof.
  induction d as [|[k' v'] d IH]; simpl.
  - destruct (pyval_eq_dec k k); congruence.
  - destruct (pyval_eq_dec k k') as [->|Hk]; simpl.
    + destruct (pyval_eq_dec k' k'); congruence.
    + destruct (pyval_eq_dec k k'); congruence.
Qed.

Lemma get_set_other {V} (k k' : pyval) (v : V) (d : Dict.t V) :
  k' <> k -> Dict.get k' (Dict.set k v d) = Dict.get k' d.
Proof.
  intros Hne. induction d as [|[k0 v0] d IH]; simpl.
  - destruct (pyval_eq_dec k' k); congruence.
  - destruct (pyval_eq_dec k k0) as [->|Hk]; simpl.
    + destruct (pyval_eq_dec k' k0); congruence.
    + destruct (pyval_eq_dec k' k0); congruence.
Qed.

Lemma in_keys_set {V} (k k' : pyval) (v : V) (d : Dict.t V) :
  In k' (Dict.keys (Dict.set k v d)) <-> k' = k \/ In k' (Dict.keys d).
Proof.
  induction d as [|[k0 v0] d IH]; simpl.
  - intuition congruence.
  - destruct (pyval_eq_dec k k0) as [->|Hk]; simpl.
    + intuition congruence.
    + rewrite IH. intuition congruence.
Qed.

Lemma wf_set {V} (k : pyval) (v : V) (d : Dict.t V) :
  Dict.wf d -> Dict.wf (Dict.set k v d).
Proof.
  unfold Dict.wf. induction d as [|[k0 v0] d IH]; simpl; intros H.
  - constructor; [intros []|constructor].
  - inversion H as [|? ? Hnin Hd]; subst.
    destruct (pyval_eq_dec k k0) as [->|Hk]; simpl.
    + now constructor.
    + constructor; [|now apply IH].
      intros Hin. apply in_keys_set in Hin. destruct Hin; congruence.
Qed.

Lemma wf_update {V} (d new : Dict.t V) :
  Dict.wf d -> Dict.wf (Dict.update d new).
Proof.
  unfold Dict.update. revert d.
  induction new as [|[k v] new IH]; simpl; intros d H; [assumption|].
  apply IH. now apply wf_set.
Qed.

Lemma wf_fromkeys_from {V} (ks : list pyval) (acc : Dict.t (option V)) :
  Dict.wf acc ->
  Dict.wf (fold_left (fun a k => Dict.set k None a) ks acc).
Proof.
  revert acc. induction ks as [|k ks IH]; simpl; intros acc H; [assumption|].
  apply IH. now apply wf_set.
Qed.

Lemma wf_nil {V} : Dict.wf (@nil (pyval * V)).
Proof. constructor. Qed.

Lemma get_update_absent {V} (k : pyval) (d new : Dict.t V) :
  ~ In k (Dict.keys new) -> Dict.get k (Dict.update d new) = Dict.get k d.
Proof.
  unfold Dict.update. revert d.
  induction new as [|[k0 v0] new IH]; simpl; intros d H; [reflexivity|].
  rewrite IH by tauto. apply get_set_other. intros ->. tauto.
Qed.

Lemma get_update_present {V} (k : pyval) (d new : Dict.t V) :
  Dict.wf new -> In k (Dict.keys new) ->
  Dict.get k (Dict.update d new) = Dict.get k new.
Proof.
  unfold Dict.wf. revert d.
  induction new as [|[k0 v0] new IH]; simpl; intros d Hwf Hin; [tauto|].
  inversion Hwf as [|? ? Hnin Hwf']; subst.
  destruct (pyval_eq_dec k k0) as [->|Hk].
  - change (fold_left _ new (Dict.set k0 v0 d))
      with (Dict.update (Dict.set k0 v0 d) new).
    rewrite get_update_absent by assumption. apply get_set_same.
  - destruct Hin as [Hin|Hin]; [congruence|].
    change (fold_left _ new (Dict.set k0 v0 d))
      with (Dict.update (Dict.set k0 v0 d) new).
    now apply IH.
Qed.

Lemma in_keys_update {V} (k : pyval) (d new : Dict.t V) :
  In k (Dict.keys new) \/ In k (Dict.keys d) ->
  In k (Dict.keys (Dict.update d new)).
Proof.
  unfold Dict.update. revert d.
  induction new as [|[k0 v0] new IH]; simpl; intros d H.
  - tauto.
  - apply IH. rewrite in_keys_set. intuition.
Qed.

(** ** Subscribing *)

Lemma encode_pure (value : pyval) (w : world) :
  snd (PubSub.encode value w) = w.
Proof.
  unfold PubSub.encode. run.
  destruct value; try reflexivity.
  - destruct (negb (decode_responses (self w))); [|reflexivity].
    destruct (str_encode (encoding (self w)) s); reflexivity.
  - destruct (decode_responses (self w)); [|reflexivity].
    destruct (bytes_decode (encoding (self w)) b); reflexivity.
Qed.

Lemma encode_all_pure (args : list pyval) (w : world) :
  snd (PubSub.encode_all args w) = w.
Proof.
  induction args as [|a args IH]; [reflexivity|].
  cbn [PubSub.encode_all]. unfold bind.
  pose proof (encode_pure a w) as E.
  destruct (PubSub.encode a w) as [[k|e] w1]; cbn in E; subst w1;
    [|reflexivity].
  destruct (PubSub.encode_all args w) as [[ks|e] w2]; cbn in IH; subst w2;
    reflexivity.
Qed.

Lemma encode_kwargs_pure (kw : kwargs) (new : mapping) (w : world) :
  snd (PubSub.encode_kwargs kw new w) = w.
Proof.
  revert new. induction kw as [|[name h] kw IH]; intros new; [reflexivity|].
  cbn [PubSub.encode_kwargs]. unfold bind.
  pose proof (encode_pure (PStr name) w) as E.
  destruct (PubSub.encode (PStr name) w) as [[k|e] w1]; cbn in E; subst w1;
    [|reflexivity].
  apply IH.
Qed.

Lemma encode_kwargs_wf (kw : kwargs) (new new' : mapping) (w : world) :
  Dict.wf new ->
  fst (PubSub.encode_kwargs kw new w) = Ok new' -> Dict.wf new'.
Proof.
  revert new. induction kw as [|[name h] kw IH]; intros new Hwf.
  - cbn. intros E. injection E as <-. assumption.
  - cbn [PubSub.encode_kwargs]. unfold bind.
    pose proof (encode_pure (PStr name) w) as E.
    destruct (PubSub.encode (PStr name) w) as [[k|e] w1]; cbn in E; subst w1.
    + apply IH. now apply wf_set.
    + discriminate.
Qed.

Section Subscribing.
Variable list_or_args : pyval -> list pyval -> list pyval.

Lemma new_entries_pure (args : list pyval) (kw : kwargs) (w : world) :
  snd (PubSub.new_entries list_or_args args kw w) = w.
Proof.
  unfold PubSub.new_entries, bind.
  match goal with
  | |- context [PubSub.encode_all ?a w] =>
      pose proof (encode_all_pure a w) as E;
      destruct (PubSub.encode_all a w) as [[ks|e] w1]
  end; cbn in E; subst w1; [|reflexivity].
  apply encode_kwargs_pure.
Qed.

Lemma new_entries_wf (args : list pyval) (kw : kwargs) (w : world)
      (new : mapping) :
  fst (PubSub.new_entries list_or_args args kw w) = Ok new -> Dict.wf new.
Proof.
  unfold PubSub.new_entries, bind.
  match goal with
  | |- context [PubSub.encode_all ?a w] =>
      pose proof (encode_all_pure a w) as E;
      destruct (PubSub.encode_all a w) as [[ks|e] w1]
  end; cbn in E; subst w1; [|discriminate].
  apply encode_kwargs_wf. apply wf_update. apply wf_nil.
Qed.

Lemma new_entries_eq (args : list pyval) (kw : kwargs) (w : world)
      (new : mapping) :
  fst (PubSub.new_entries list_or_args args kw w) = Ok new ->
  PubSub.new_entries list_or_args args kw w = (Ok new, w).
Proof.
  intros H. pose proof (new_entries_pure args kw w) as P.
  destruct (PubSub.new_entries list_or_args args kw w); cbn in *.
  congruence.
Qed.

End Subscribing.

Lemma acquired_environment (w : world) :
  oracle (env (acquired w)) = oracle (env w) /\
  tick (env (acquired w)) = tick (env w).
Proof.
  unfold acquired. destruct (connection_ (self w)); split; reflexivity.
Qed.

Lemma execute_command_returned (cmd : list pyval) (w w1 : world) :
  PubSub.execute_command cmd w = (Ok tt, w1) ->
  oracle (env w) (tick (env w)) <> Raises CancelledError ->
  exists v tr,
    trace (env w1) =
    tr ++ [EvSendCommand (conn_id (held_connection w)) cmd (Returns v)].
Proof.
  rewrite execute_command_eq. intros H Hc.
  destruct (PubSub._execute (held_connection w)
              (send_command (held_connection w) cmd) (acquired w))
    as [[v|e] w'] eqn:E; [|discriminate].
  injection H as <-.
  apply (_execute_send_returned _ _ _ E).
  unfold next_outcome. destruct (acquired_environment w) as [-> ->].
  exact Hc.
Qed.

Section Registry.
Variable list_or_args : pyval -> list pyval -> list pyval.

Let subscribe := PubSub.subscribe PubSub.execute_command list_or_args.
Let psubscribe := PubSub.psubscribe PubSub.execute_command list_or_args.
Let new_entries := PubSub.new_entries list_or_args.

(** [subscribe] and [psubscribe] over any [execute_command]: the command
    runs in the world the call was made in, and the update is applied to
    the world the command leaves. *)
Lemma subscribe_eq (exec : list pyval -> M unit) (args : list pyval)
      (kw : kwargs) (w : world) (new : mapping) :
  fst (new_entries args kw w) = Ok new ->
  PubSub.subscribe exec list_or_args args kw w =
  match exec (PStr (lit "SUBSCRIBE") :: Dict.keys new) w with
  | (Ok r, w1) =>
      (Ok r, {| self := set_channels
                          (Dict.update (channels (self w1)) new) (self w1);
                env := env w1 |})
  | (Err e, w1) => (Err e, w1)
  end.
Proof.
  intros H. apply new_entries_eq in H.
  unfold PubSub.subscribe, bind. unfold new_entries in H. rewrite H.
  destruct (exec _ w) as [[r|e] w1]; reflexivity.
Qed.

Lemma psubscribe_eq (exec : list pyval -> M unit) (args : list pyval)
      (kw : kwargs) (w : world) (new : mapping) :
  fst (new_entries args kw w) = Ok new ->
  PubSub.psubscribe exec list_or_args args kw w =
  match exec (PStr (lit "PSUBSCRIBE") :: Dict.keys new) w with
  | (Ok r, w1) =>
      (Ok r, {| self := set_patterns
                          (Dict.update (patterns (self w1)) new) (self w1);
                env := env w1 |})
  | (Err e, w1) => (Err e, w1)
  end.
Proof.
  intros H. apply new_entries_eq in H.
  unfold PubSub.psubscribe, bind. unfold new_entries in H. rewrite H.
  destruct (exec _ w) as [[r|e] w1]; reflexivity.
Qed.

(** C2.  Let [new] be the encoded keys (with their handlers) of a
    [subscribe] call.  If sending [SUBSCRIBE] raises, the call raises the
    same exception and both mappings are as before the call.  If the send
    returns, the channel mapping was still the old one when it returned,
    and the call then returns in a world whose channel mapping is the old
    one updated by [new], whose pattern mapping is the old one and whose
    environment is the one the send left (nothing is recorded after the
    send): every key of [new] is in the channel mapping with the handler
    given in the call.  The last event before the update is then the
    returned [send_command] of [SUBSCRIBE] with the keys of [new], unless
    the send was cancelled.  The same holds of [psubscribe], [PSUBSCRIBE]
    and the pattern mapping. *)
Theorem subscribe_registry_ordering
        (w : world) (args : list pyval) (kw : kwargs) (new : mapping) :
  fst (new_entries args kw w) = Ok new ->
  ((forall e w1,
       PubSub.execute_command
         (PStr (lit "SUBSCRIBE") :: Dict.keys new) w = (Err e, w1) ->
       subscribe args kw w = (Err e, w1) /\
       channels (self w1) = channels (self w) /\
       patterns (self w1) = patterns (self w))
   /\
   (forall w1,
       PubSub.execute_command
         (PStr (lit "SUBSCRIBE") :: Dict.keys new) w = (Ok tt, w1) ->
       channels (self w1) = channels (self w) /\
       (exists w',
           subscribe args kw w = (Ok tt, w') /\
           channels (self w') = Dict.update (channels (self w)) new /\
           patterns (self w') = patterns (self w) /\
           connection_ (self w') = connection_ (self w1) /\
           env w' = env w1 /\
           (forall k, In k (Dict.keys new) ->
                      In k (Dict.keys (channels (self w'))) /\
                      Dict.get k (channels (self w')) = Dict.get k new)) /\
       (oracle (env w) (tick (env w)) <> Raises CancelledError ->
        exists v tr,
          trace (env w1) =
          tr ++ [EvSendCommand (conn_id (held_connection w))
                   (PStr (lit "SUBSCRIBE") :: Dict.keys new) (Returns v)])))
  /\
  ((forall e w1,
       PubSub.execute_command
         (PStr (lit "PSUBSCRIBE") :: Dict.keys new) w = (Err e, w1) ->
       psubscribe args kw w = (Err e, w1) /\
       channels (self w1) = channels (self w) /\
       patterns (self w1) = patterns (self w))
   /\
   (forall w1,
       PubSub.execute_command
         (PStr (lit "PSUBSCRIBE") :: Dict.keys new) w = (Ok tt, w1) ->
       patterns (self w1) = patterns (self w) /\
       (exists w',
           psubscribe args kw w = (Ok tt, w') /\
           patterns (self w') = Dict.update (patterns (self w)) new /\
           channels (self w') = channels (self w) /\
           connection_ (self w') = connection_ (self w1) /\
           env w' = env w1 /\
           (forall k, In k (Dict.keys new) ->
                      In k (Dict.keys (patterns (self w'))) /\
                      Dict.get k (patterns (self w')) = Dict.get k new)) /\
       (oracle (env w) (tick (env w)) <> Raises CancelledError ->
        exists v tr,
          trace (env w1) =
          tr ++ [EvSendCommand (conn_id (held_connection w))
                   (PStr (lit "PSUBSCRIBE") :: Dict.keys new) (Returns v)]))).
Proof.
  intros Hnew.
  pose proof (new_entries_wf _ _ _ _ Hnew) as Hwf.
  assert (Hkeys : forall d k, In k (Dict.keys new) ->
            In k (Dict.keys (Dict.update d new)) /\
            Dict.get k (Dict.update d new) = Dict.get k new).
  { intros d k Hin. split.
    - apply in_keys_update. now left.
    - now apply get_update_present. }
  split; split.
  - intros e w1 Hx.
    pose proof (execute_command_registry
                  (PStr (lit "SUBSCRIBE") :: Dict.keys new) w) as R.
    rewrite Hx in R. cbn in R.
    unfold subscribe. rewrite (subscribe_eq _ _ _ _ Hnew), Hx. tauto.
  - intros w1 Hx.
    pose proof (execute_command_registry
                  (PStr (lit "SUBSCRIBE") :: Dict.keys new) w) as R.
    rewrite Hx in R. cbn in R. destruct R as [Rc Rp].
    split; [exact Rc|]. split.
    + eexists. split.
      * unfold subscribe. rewrite (subscribe_eq _ _ _ _ Hnew), Hx. reflexivity.
      * cbn. rewrite Rc.
        split; [reflexivity|]. split; [exact Rp|].
        split; [reflexivity|]. split; [reflexivity|].
        intros k Hk. now apply Hkeys.
    + now apply execute_command_returned.
  - intros e w1 Hx.
    pose proof (execute_command_registry
                  (PStr (lit "PSUBSCRIBE") :: Dict.keys new) w) as R.
    rewrite Hx in R. cbn in R.
    unfold psubscribe. rewrite (psubscribe_eq _ _ _ _ Hnew), Hx. tauto.
  - intros w1 Hx.
    pose proof (execute_command_registry
                  (PStr (lit "PSUBSCRIBE") :: Dict.keys new) w) as R.
    rewrite Hx in R. cbn in R. destruct R as [Rc Rp].
    split; [exact Rp|]. split.
    + eexists. split.
      * unfold psubscribe. rewrite (psubscribe_eq _ _ _ _ Hnew), Hx. reflexivity.
      * cbn. rewrite Rp.
        split; [reflexivity|]. split; [exact Rc|].
        split; [reflexivity|]. split; [reflexivity|].
        intros k Hk. now apply Hkeys.
    + now apply execute_command_returned.
Qed.

(** What a cancelled send leaves on the trace: the send, the [can_read],
    and a [disconnect] when [can_read] answered with a true value. *)
Lemma execute_command_cancelled (cmd : list pyval) (w : world)
      (v : retval) :
  oracle (env w) (tick (env w)) = Raises CancelledError ->
  oracle (env w) (S (tick (env w))) = Returns v ->
  let c := conn_id (held_connection w) in
  exists w1,
    PubSub._execute (held_connection w)
      (send_command (held_connection w) cmd) (acquired w) = (Ok RNone, w1)
    /\ PubSub.execute_command cmd w = (Ok tt, w1)
    /\ trace (env w1) =
       trace (env (acquired w))
       ++ [EvSendCommand c cmd (Raises CancelledError);
           EvCanRead c (Returns v)]
       ++ (if truthy v then [EvDisconnect c] else []).
Proof.
  intros H0 H1 c.
  destruct (acquired_environment w) as [Ho Ht].
  assert (Hq : next_outcome (acquired w) = Raises CancelledError).
  { unfold next_outcome. now rewrite Ho, Ht. }
  assert (Hs : send_command (held_connection w) cmd (acquired w) =
               (Err CancelledError,
                answered (EvSendCommand c cmd) (acquired w))).
  { unfold send_command, await. rewrite Hq. reflexivity. }
  assert (Hn : next_outcome (answered (EvSendCommand c cmd) (acquired w))
               = Returns v).
  { unfold next_outcome, answered. cbn. now rewrite Ho, Ht. }
  pose proof (_execute_cancelled (held_connection w) _ _ Hs Hn) as E.
  eexists. split; [exact E|]. split.
  - rewrite execute_command_eq, E. reflexivity.
  - fold c.
    destruct (truthy v);
      rewrite ?trace_record, !trace_answered, Hn, Hq, <- !app_assoc;
      reflexivity.
Qed.

(** C10.  When the send awaited inside [_execute] is cancelled and
    [can_read] answers, [_execute] returns [None]: the trace gains the
    cancelled send, the [can_read] and, only when [can_read] answered with
    a true value, a [disconnect]; no send that returned is on it.  The
    enclosing [subscribe] (resp. [psubscribe]) then returns normally with
    the keys of the call put in the channel (resp. pattern) mapping. *)
Theorem cancelled_send_still_registers
        (w : world) (args : list pyval) (kw : kwargs) (new : mapping)
        (v : retval) :
  fst (new_entries args kw w) = Ok new ->
  oracle (env w) (tick (env w)) = Raises CancelledError ->
  oracle (env w) (S (tick (env w))) = Returns v ->
  let c := conn_id (held_connection w) in
  let tail cmd :=
    [EvSendCommand c cmd (Raises CancelledError); EvCanRead c (Returns v)]
    ++ (if truthy v then [EvDisconnect c] else []) in
  (exists w',
      PubSub._execute (held_connection w)
        (send_command (held_connection w)
           (PStr (lit "SUBSCRIBE") :: Dict.keys new)) (acquired w)
      = (Ok RNone, w') /\
      trace (env w') =
      trace (env (acquired w))
      ++ tail (PStr (lit "SUBSCRIBE") :: Dict.keys new))
  /\
  (exists w',
      subscribe args kw w = (Ok tt, w') /\
      channels (self w') = Dict.update (channels (self w)) new /\
      (forall k, In k (Dict.keys new) ->
                 In k (Dict.keys (channels (self w')))) /\
      trace (env w') =
      trace (env (acquired w))
      ++ tail (PStr (lit "SUBSCRIBE") :: Dict.keys new))
  /\
  (exists w',
      psubscribe args kw w = (Ok tt, w') /\
      patterns (self w') = Dict.update (patterns (self w)) new /\
      (forall k, In k (Dict.keys new) ->
                 In k (Dict.keys (patterns (self w')))) /\
      trace (env w') =
      trace (env (acquired w))
      ++ tail (PStr (lit "PSUBSCRIBE") :: Dict.keys new)).
Proof.
  intros Hnew H0 H1 c tail.
  split; [|split].
  - destruct (execute_command_cancelled
                (PStr (lit "SUBSCRIBE") :: Dict.keys new) w H0 H1)
      as (w1 & E & _ & T).
    exists w1. split; assumption.
  - destruct (execute_command_cancelled
                (PStr (lit "SUBSCRIBE") :: Dict.keys new) w H0 H1)
      as (w1 & _ & E & T).
    pose proof (execute_command_registry
                  (PStr (lit "SUBSCRIBE") :: Dict.keys new) w) as R.
    rewrite E in R. cbn in R. destruct R as [Rc Rp].
    eexists. split; [|split; [|split]].
    + unfold subscribe. rewrite (subscribe_eq _ _ _ _ Hnew), E.
      reflexivity.
    + cbn. now rewrite Rc.
    + intros k Hk. cbn. apply in_keys_update. now left.
    + exact T.
  - destruct (execute_command_cancelled
                (PStr (lit "PSUBSCRIBE") :: Dict.keys new) w H0 H1)
      as (w1 & _ & E & T).
    pose proof (execute_command_registry
                  (PStr (lit "PSUBSCRIBE") :: Dict.keys new) w) as R.
    rewrite E in R. cbn in R. destruct R as [Rc Rp].
    eexists. split; [|split; [|split]].
    + unfold psubscribe. rewrite (psubscribe_eq _ _ _ _ Hnew), E.
      reflexivity.
    + cbn. now rewrite Rp.
    + intros k Hk. cbn. apply in_keys_update. now left.
    + exact T.
Qed.

End Registry.

(** ** The bounded retry of the cluster variant *)

Lemma attempts_app (t1 t2 : list event) :
  attempts (t1 ++ t2) = attempts t1 + attempts t2.
Proof. unfold attempts. now rewrite filter_app, length_app. Qed.

Lemma acquisitions_app (t1 t2 : list event) :
  acquisitions (t1 ++ t2) = acquisitions t1 + acquisitions t2.
Proof. unfold acquisitions. now rewrite filter_app, length_app. Qed.

Lemma sleeps_app (t1 t2 : list event) :
  sleeps (t1 ++ t2) = sleeps t1 ++ sleeps t2.
Proof. unfold sleeps. apply flat_map_app. Qed.

Lemma wire_counts (tr : list event) :
  forallb is_wire tr = true ->
  attempts tr = 0 /\ acquisitions tr = 0 /\ sleeps tr = [].
Proof.
  induction tr as [|ev tr IH]; cbn; [tauto|].
  intros H. apply andb_prop in H. destruct H as [Hev Htr].
  destruct (IH Htr) as (A & B & C).
  unfold attempts, acquisitions in *. cbn.
  destruct ev; try discriminate; cbn; auto.
Qed.

Lemma wire_step_counts (w w' : world) :
  wire_step w w' ->
  attempts (trace (env w')) = attempts (trace (env w)) /\
  acquisitions (trace (env w')) = acquisitions (trace (env w)) /\
  sleeps (trace (env w')) = sleeps (trace (env w)).
Proof.
  intros (_ & _ & _ & _ & tr & T & F).
  destruct (wire_counts _ F) as (A & B & C).
  rewrite T, attempts_app, acquisitions_app, sleeps_app, A, B, C.
  rewrite app_nil_r. repeat split; lia.
Qed.

(** One call of the method, as the prelude, one [_execute] and the
    [except] clause. *)
Lemma execute_command_rec_step (fuel : nat) (args : list pyval) (tries : nat)
      (w : world) :
  ClusterPubSub.execute_command_rec (S fuel) args tries w =
  match cluster_prelude args w with
  | (Err e, w0) => (Err e, w0)
  | (Ok _, w0) =>
      match
        match connection_ (self w0) with
        | Some c =>
            match PubSub._execute c (send_command c args) w0 with
            | (Ok _, w1) => (Ok tt, w1)
            | (Err e, w1) => (Err e, w1)
            end
        | None => (Err AttributeError, w0)
        end
      with
      | (Ok a, w1) => (Ok a, w1)
      | (Err e, w1) =>
          if 25 <? tries then
            (Err e, record (EvPrint "too many pubsub retries, giving up") w1)
          else
            ClusterPubSub.execute_command_rec fuel args (tries + 1)
              (snd (cluster_backoff (tries + 1) w1))
      end
  end.
Proof.
  cbn [ClusterPubSub.execute_command_rec].
  unfold cluster_prelude, cluster_backoff, pool_initialize, get_connection,
    register_connect_callback, print, increment_reinitialize_counter, sleep.
  run. unfold record. destruct w as [s e].
  cbn -[PubSub._execute send_command Nat.ltb
        ClusterPubSub.execute_command_rec].
  destruct (connection_ s) as [c|] eqn:Ec;
    cbn -[PubSub._execute send_command Nat.ltb
          ClusterPubSub.execute_command_rec];
    rewrite ?Ec; cbv beta iota.
  - match goal with
    | |- context [PubSub._execute ?c ?m ?w] =>
        destruct (PubSub._execute c m w) as [[v|e1] w1]
    end; [reflexivity|].
    destruct (25 <? tries); reflexivity.
  - destruct args as [|a0 [|ch args']]; try reflexivity.
    cbn -[PubSub._execute send_command Nat.ltb
          ClusterPubSub.execute_command_rec].
    destruct (reconnect_closed_coro s);
      cbn -[PubSub._execute send_command Nat.ltb
            ClusterPubSub.execute_command_rec];
      match goal with
      | |- context [PubSub._execute ?c ?m ?w] =>
          destruct (PubSub._execute c m w) as [[v|e1] w1]
      end; try reflexivity;
      destruct (25 <? tries); reflexivity.
Qed.

Ltac counts :=
  cbn -[attempts acquisitions sleeps];
  rewrite ?attempts_app, ?acquisitions_app, ?sleeps_app;
  cbn; rewrite ?app_nil_r; repeat split; try reflexivity; try lia.

Lemma cluster_prelude_facts (args : list pyval) (channel : pyval)
      (w : world) :
  nth_error args 1 = Some channel ->
  exists w0 c,
    cluster_prelude args w = (Ok tt, w0) /\
    connection_ (self w0) = Some c /\
    oracle (env w0) = oracle (env w) /\
    reinitialize_counter (env w0) = reinitialize_counter (env w) /\
    attempts (trace (env w0)) = attempts (trace (env w)) + 1 /\
    sleeps (trace (env w0)) = sleeps (trace (env w)) /\
    acquisitions (trace (env w0)) =
    acquisitions (trace (env w))
    + match connection_ (self w) with Some _ => 0 | None => 1 end.
Proof.
  intros Hch. destruct args as [|a0 [|ch args']]; try discriminate Hch.
  unfold cluster_prelude, pool_initialize, get_connection,
    register_connect_callback. run.
  unfold record. destruct w as [s e]. cbn -[attempts acquisitions sleeps].
  destruct (connection_ s) as [c|] eqn:Ec;
    cbn -[attempts acquisitions sleeps]; rewrite ?Ec;
    cbn -[attempts acquisitions sleeps].
  - do 2 eexists. split; [reflexivity|].
    cbn -[attempts acquisitions sleeps]. rewrite Ec. counts.
  - destruct (reconnect_closed_coro s); cbn -[attempts acquisitions sleeps];
      (do 2 eexists; split; [reflexivity|]; counts).
Qed.

Lemma cluster_backoff_facts (tries : nat) (w : world) :
  let w' := snd (cluster_backoff tries w) in
  connection_ (self w') = None /\
  oracle (env w') = oracle (env w) /\
  reinitialize_counter (env w') = S (reinitialize_counter (env w)) /\
  attempts (trace (env w')) = attempts (trace (env w)) /\
  sleeps (trace (env w')) = sleeps (trace (env w)) ++ [tries + 1] /\
  acquisitions (trace (env w')) = acquisitions (trace (env w)).
Proof.
  unfold cluster_backoff, increment_reinitialize_counter, sleep, print.
  run. unfold record. counts.
Qed.

Section ClusterRetry.
Variable args : list pyval.
Variable channel : pyval.
Hypothesis has_channel : nth_error args 1 = Some channel.

(** One attempt: the prelude returns with a connection held, and the
    attempt ends as the [_execute] of the send does. *)
Lemma cluster_attempt_facts (w : world) :
  exists c w0 r w1,
    cluster_prelude args w = (Ok tt, w0) /\
    connection_ (self w0) = Some c /\
    PubSub._execute c (send_command c args) w0 = (r, w1) /\
    cluster_attempt args w =
    (match r with Ok _ => Ok tt | Err e => Err e end, w1) /\
    reinitialize_counter (env w1) = reinitialize_counter (env w) /\
    attempts (trace (env w1)) = attempts (trace (env w)) + 1 /\
    sleeps (trace (env w1)) = sleeps (trace (env w)) /\
    acquisitions (trace (env w1)) =
    acquisitions (trace (env w))
    + match connection_ (self w) with Some _ => 0 | None => 1 end.
Proof.
  destruct (@cluster_prelude_facts args channel w has_channel)
    as (w0 & c & P & Pc & Po & Pr & Pa & Ps & Pq).
  pose proof (@_execute_wire_only c (send_command c args)
                (wire_only_send_command c args) w0) as W.
  destruct (@wire_step_counts _ _ W) as (Wa & Wq & Ws).
  destruct W as (_ & _ & _ & Wr & _).
  destruct (PubSub._execute c (send_command c args) w0) as [r w1] eqn:X.
  cbn [snd] in *.
  exists c, w0, r, w1.
  split; [exact P|]. split; [exact Pc|]. split; [exact X|]. split.
  - unfold cluster_attempt. unfold bind at 1. rewrite P.
    unfold bind at 1. unfold get_self. rewrite Pc.
    unfold bind, ret. rewrite X. destruct r; reflexivity.
  - rewrite Wr, Wa, Ws, Wq. repeat split; assumption.
Qed.

(** One call of the method, as one attempt and the [except] clause. *)
Lemma execute_command_rec_attempt (fuel tries : nat) (w : world) :
  ClusterPubSub.execute_command_rec (S fuel) args tries w =
  match cluster_attempt args w with
  | (Ok a, w1) => (Ok a, w1)
  | (Err e, w1) =>
      if 25 <? tries then
        (Err e, record (EvPrint "too many pubsub retries, giving up") w1)
      else
        ClusterPubSub.execute_command_rec fuel args (tries + 1)
          (snd (cluster_backoff (tries + 1) w1))
  end.
Proof.
  destruct (cluster_attempt_facts w) as (c & w0 & r & w1 & P & Pc & X & A & _).
  rewrite execute_command_rec_step, P, Pc, X, A.
  destruct r as [v|e]; reflexivity.
Qed.

Lemma attempts_fail_S (n tries : nat) (w : world) :
  attempts_fail (S n) args tries w =
  match cluster_attempt args w with
  | (Err _, w1) =>
      attempts_fail n args (tries + 1) (snd (cluster_backoff (tries + 1) w1))
  | (Ok _, _) => false
  end.
Proof. reflexivity. Qed.

Lemma retry_loop (n : nat) :
  forall tries w,
    26 - tries = n ->
    exists k r w',
      ClusterPubSub.execute_command_rec (S n) args tries w = (r, w') /\
      k <= n /\
      attempts (trace (env w')) = attempts (trace (env w)) + S k /\
      sleeps (trace (env w')) = sleeps (trace (env w)) ++ seq (tries + 2) k /\
      reinitialize_counter (env w') = reinitialize_counter (env w) + k /\
      acquisitions (trace (env w')) =
      acquisitions (trace (env w)) + k
      + match connection_ (self w) with Some _ => 0 | None => 1 end /\
      (attempts_fail (S n) args tries w = true ->
       k = n /\
       exists e c wl wl',
         r = Err e /\
         PubSub._execute c (send_command c args) wl = (Err e, wl') /\
         w' = record (EvPrint "too many pubsub retries, giving up") wl') /\
      (attempts_fail (S n) args tries w = false -> r = Ok tt).
Proof.
  induction n as [|n IH]; intros tries w Htries;
    destruct (cluster_attempt_facts w)
      as (c & w0 & r1 & w1 & P & Pc & X & A & Ar & Aa & As & Aq);
    rewrite execute_command_rec_attempt, attempts_fail_S, A;
    destruct r1 as [v|e].
  - exists 0, (Ok tt), w1. split; [reflexivity|].
    rewrite Aa, As, Ar, Aq. cbn [seq]. rewrite app_nil_r.
    do 5 (split; [first [lia|reflexivity]|]).
    split; [discriminate|reflexivity].
  - assert (Hlt : (25 <? tries) = true) by (apply Nat.ltb_lt; lia).
    rewrite Hlt.
    exists 0, (Err e),
      (record (EvPrint "too many pubsub retries, giving up") w1).
    split; [reflexivity|].
    rewrite trace_record, attempts_app, sleeps_app, acquisitions_app.
    cbn -[Nat.add]. rewrite Aa, As, Ar, Aq, !app_nil_r.
    do 5 (split; [first [lia|reflexivity]|]).
    split; [|discriminate].
    intros _. split; [reflexivity|]. exists e, c, w0, w1.
    split; [reflexivity|]. split; [exact X|reflexivity].
  - exists 0, (Ok tt), w1. split; [reflexivity|].
    rewrite Aa, As, Ar, Aq. cbn [seq]. rewrite app_nil_r.
    do 5 (split; [first [lia|reflexivity]|]).
    split; [discriminate|reflexivity].
  - assert (Hlt : (25 <? tries) = false) by (apply Nat.ltb_ge; lia).
    rewrite Hlt.
    destruct (@cluster_backoff_facts (tries + 1) w1)
      as (Bc & Bo & Br & Ba & Bs & Bq).
    cbv zeta in *.
    destruct (IH (tries + 1) (snd (cluster_backoff (tries + 1) w1)))
      as (k & r & w' & E & Hk & Ia & Is & Ir & Iq & Ifail & Iok); [lia|].
    exists (S k), r, w'. split; [exact E|]. split; [lia|].
    rewrite Ia, Is, Ir, Iq, Bc, Ba, Bs, Br, Bq, Aa, As, Ar, Aq.
    replace (tries + 1 + 2) with (S (tries + 2)) by lia.
    replace (tries + 1 + 1) with (tries + 2) by lia.
    cbn [seq]. rewrite <- app_assoc. cbn [app].
    split; [lia|]. split; [reflexivity|]. split; [lia|]. split; [lia|].
    split.
    + intros F. destruct (Ifail F) as (-> & L). split; [reflexivity|exact L].
    + exact Iok.
Qed.

(** C1, as the code has it.  A call with [tries] makes at most
    [27 - tries] attempts, that is at most [26 - tries] retries: the guard
    is [tries > 25], tested after the failure, and [tries] counts the
    retries made so far.  Each retry is preceded by one increment of the
    reinitialization counter, by dropping the connection (so that each
    retry takes a connection from the pool) and by a sleep of [tries + 1]
    time units, [tries] being the number of the retry: with the default
    [tries = 0] the sleeps are 2, 3, ..., up to 27.  When all of these
    attempts fail, however each of them fails (at the first send, at the
    reconnect, or at the send repeated after a reconnect), the call has
    made exactly [26 - tries] retries, 26 by default, and raises the
    exception of its last attempt; it returns as soon as one attempt does
    not fail.  The calls around the protected send (the initialization of
    the pool, taking a connection, the increment of the counter and the
    sleep) are those of the boundary, which return. *)
Theorem cluster_execute_command_gives_up_after_26_retries
        (tries : nat) (w : world) :
  exists k r w',
    ClusterPubSub.execute_command args tries w = (r, w') /\
    k <= 26 - tries /\
    attempts (trace (env w')) = attempts (trace (env w)) + S k /\
    sleeps (trace (env w')) = sleeps (trace (env w)) ++ seq (tries + 2) k /\
    reinitialize_counter (env w') = reinitialize_counter (env w) + k /\
    acquisitions (trace (env w')) =
    acquisitions (trace (env w)) + k
    + match connection_ (self w) with Some _ => 0 | None => 1 end /\
    (attempts_fail (S (26 - tries)) args tries w = true ->
     k = 26 - tries /\
     exists e c wl wl',
       r = Err e /\
       PubSub._execute c (send_command c args) wl = (Err e, wl') /\
       w' = record (EvPrint "too many pubsub retries, giving up") wl') /\
    (attempts_fail (S (26 - tries)) args tries w = false -> r = Ok tt).
Proof.
  unfold ClusterPubSub.execute_command. now apply retry_loop.
Qed.

End ClusterRetry.

(** Any amount of fuel above [S (26 - tries)] gives the same run: the
    recursion of [execute_command] never runs out of it. *)
Lemma execute_command_rec_fuel (args : list pyval) (n : nat) :
  forall tries k w,
    26 - tries <= n ->
    ClusterPubSub.execute_command_rec (S n + k) args tries w =
    ClusterPubSub.execute_command_rec (S n) args tries w.
Proof.
  induction n as [|n IH]; intros tries k w Hn;
    cbn [Nat.add]; rewrite !execute_command_rec_step;
    destruct (cluster_prelude args w) as [[[]|e0] w0]; try reflexivity;
    match goal with
    | |- context [match ?x with pair _ _ => _ end] =>
        destruct x as [[a|e] w1]
    end; try reflexivity;
    destruct (25 <? tries) eqn:Hlt; try reflexivity.
  - apply Nat.ltb_ge in Hlt. lia.
  - apply Nat.ltb_ge in Hlt. apply (IH (tries + 1) k). lia.
Qed.

(** ** Replaying the registry on reconnect *)

Lemma set_fresh {V} (k : pyval) (v : V) (d : Dict.t V) :
  ~ In k (Dict.keys d) -> Dict.set k v d = d ++ [(k, v)].
Proof.
  induction d as [|[k0 v0] d IH]; simpl; intros H; [reflexivity|].
  destruct (pyval_eq_dec k k0) as [->|Hk]; [tauto|].
  rewrite IH by tauto. reflexivity.
Qed.

Lemma set_same {V} (k : pyval) (v : V) (d : Dict.t V) :
  Dict.get k d = Some v -> Dict.set k v d = d.
Proof.
  induction d as [|[k0 v0] d IH]; simpl; intros H; [discriminate|].
  destruct (pyval_eq_dec k k0) as [->|Hk].
  - congruence.
  - now rewrite IH.
Qed.

Lemma get_in_wf {V} (k : pyval) (v : V) (d : Dict.t V) :
  Dict.wf d -> In (k, v) d -> Dict.get k d = Some v.
Proof.
  unfold Dict.wf. induction d as [|[k0 v0] d IH]; simpl; intros Hwf Hin.
  - contradiction.
  - inversion Hwf as [|? ? Hnin Hwf']; subst.
    destruct Hin as [Hin|Hin].
    + injection Hin as -> ->. destruct (pyval_eq_dec k k); congruence.
    + destruct (pyval_eq_dec k k0) as [->|Hk]; [|now apply IH].
      exfalso. apply Hnin. apply (in_map fst) in Hin. exact Hin.
Qed.

Lemma update_included {V} (d new : Dict.t V) :
  (forall k v, In (k, v) new -> Dict.get k d = Some v) ->
  Dict.update d new = d.
Proof.
  unfold Dict.update. induction new as [|[k v] new IH]; simpl; intros H.
  - reflexivity.
  - rewrite set_same by (apply H; now left). apply IH.
    intros k' v' Hin. apply H. now right.
Qed.

Lemma update_same {V} (d : Dict.t V) : Dict.wf d -> Dict.update d d = d.
Proof.
  intros Hwf. apply update_included. intros k v. now apply get_in_wf.
Qed.

Lemma world_eta_channels (w : world) :
  {| self := set_channels (channels (self w)) (self w); env := env w |} = w.
Proof. destruct w as [[] ?]. reflexivity. Qed.

Lemma world_eta_patterns (w : world) :
  {| self := set_patterns (patterns (self w)) (self w); env := env w |} = w.
Proof. destruct w as [[] ?]. reflexivity. Qed.

(** Encoding the replayed name of a replayable key gives the key back. *)
Lemma encode_native_name (w : world) (k : pyval) :
  replayable (decode_responses (self w)) (encoding (self w)) k = true ->
  PubSub.encode (PStr (native_name (encoding (self w)) k)) w = (Ok k, w).
Proof.
  unfold replayable, PubSub.encode, native_name. run.
  destruct k as [| |t|b]; try discriminate.
  - intros ->. reflexivity.
  - destruct (decode_responses (self w)); [discriminate|]. cbn.
    destruct (bytes_decode (encoding (self w)) b) as [t|]; [|discriminate].
    destruct (str_encode (encoding (self w)) t) as [b'|]; [|discriminate].
    destruct (string_dec b' b) as [->|]; [reflexivity|discriminate].
Qed.

Lemma native_key_replayable (s : session) (k : pyval) :
  replayable (decode_responses s) (encoding s) k = true ->
  PubSub.native_key s k = Ok (PStr (native_name (encoding s) k)).
Proof.
  unfold replayable, PubSub.native_key, native_name.
  destruct k as [| |t|b]; try discriminate.
  - intros ->. reflexivity.
  - destruct (decode_responses s); [discriminate|]. cbn.
    destruct (bytes_decode (encoding s) b) as [t|]; [reflexivity|discriminate].
Qed.

Lemma native_name_injective (w : world) (k1 k2 : pyval) :
  replayable (decode_responses (self w)) (encoding (self w)) k1 = true ->
  replayable (decode_responses (self w)) (encoding (self w)) k2 = true ->
  native_name (encoding (self w)) k1 = native_name (encoding (self w)) k2 ->
  k1 = k2.
Proof.
  intros H1 H2 E.
  apply encode_native_name in H1. apply encode_native_name in H2.
  rewrite E in H1. congruence.
Qed.

Lemma replays_split (decode : bool) (enc : codec) (l : list pyval) :
  forallb (replays decode enc) l = true ->
  forallb (replayable decode enc) l = true /\
  forallb (not_self enc) l = true.
Proof.
  induction l as [|k l IH]; cbn; [tauto|].
  intros H. apply andb_prop in H. destruct H as [Hk Hl].
  unfold replays in Hk. apply andb_prop in Hk. destruct Hk as [-> ->].
  destruct (IH Hl) as [-> ->]. tauto.
Qed.

Section Replay.
Variable list_or_args : pyval -> list pyval -> list pyval.

Let subscribe := PubSub.subscribe PubSub.execute_command list_or_args.
Let psubscribe := PubSub.psubscribe PubSub.execute_command list_or_args.
Let on_connect := PubSub.on_connect PubSub.execute_command list_or_args.

Lemma keys_named_nodup (w : world) (d : mapping) :
  Dict.wf d ->
  forallb (replayable (decode_responses (self w)) (encoding (self w)))
          (Dict.keys d) = true ->
  NoDup (Dict.keys (named (encoding (self w)) d)).
Proof.
  unfold Dict.wf, Dict.keys, named. rewrite map_map. cbn [fst].
  induction d as [|[k v] d IH]; cbn; intros Hwf Hr; [constructor|].
  inversion Hwf as [|? ? Hnin Hwf']; subst.
  apply andb_prop in Hr. destruct Hr as [Hk Hd].
  constructor; [|now apply IH].
  intros Hin. apply in_map_iff in Hin. destruct Hin as ([k' v'] & E & Hin).
  cbn in E. injection E as E.
  assert (Hk' : replayable (decode_responses (self w)) (encoding (self w))
                  k' = true).
  { rewrite forallb_forall in Hd. apply Hd.
    apply (in_map fst) in Hin. exact Hin. }
  apply (native_name_injective w k' k Hk' Hk) in E. subst k'.
  apply Hnin. apply (in_map fst) in Hin. exact Hin.
Qed.

Lemma native_items_replayable (s : session) (d acc : mapping) :
  forallb (replayable (decode_responses s) (encoding s)) (Dict.keys d)
  = true ->
  NoDup (Dict.keys (acc ++ named (encoding s) d)) ->
  PubSub.native_items s d acc = Ok (acc ++ named (encoding s) d).
Proof.
  revert acc. induction d as [|[k v] d IH]; cbn; intros acc Hr Hn.
  - now rewrite app_nil_r.
  - apply andb_prop in Hr. destruct Hr as [Hk Hd].
    rewrite (native_key_replayable s k Hk).
    assert (Hfresh : ~ In (PStr (native_name (encoding s) k))
                       (Dict.keys acc)).
    { unfold Dict.keys in *. rewrite map_app in Hn. cbn in Hn.
      apply NoDup_remove_2 in Hn. intros Hin. apply Hn.
      apply in_or_app. now left. }
    rewrite (set_fresh _ _ _ Hfresh).
    rewrite IH; [now rewrite <- app_assoc|assumption|].
    now rewrite <- app_assoc.
Qed.

Lemma as_kwargs_named (enc : codec) (d : mapping) :
  forallb (not_self enc) (Dict.keys d) = true ->
  PubSub.as_kwargs (named enc d) = Ok (replay_kwargs enc d).
Proof.
  induction d as [|[k v] d IH]; [reflexivity|].
  unfold Dict.keys. cbn [map forallb fst].
  intros H. apply andb_prop in H. destruct H as [Hk Hd].
  unfold named, replay_kwargs. cbn [map PubSub.as_kwargs fst snd].
  unfold not_self in Hk.
  destruct (text_eq_dec (native_name enc k) (lit "self")); [discriminate|].
  unfold named, replay_kwargs in IH. rewrite (IH Hd). reflexivity.
Qed.

Lemma encode_kwargs_replay (w : world) (d acc : mapping) :
  forallb (replayable (decode_responses (self w)) (encoding (self w)))
          (Dict.keys d) = true ->
  NoDup (Dict.keys (acc ++ d)) ->
  PubSub.encode_kwargs (replay_kwargs (encoding (self w)) d) acc w
  = (Ok (acc ++ d), w).
Proof.
  revert acc. induction d as [|[k v] d IH]; cbn; intros acc Hr Hn.
  - now rewrite app_nil_r.
  - apply andb_prop in Hr. destruct Hr as [Hk Hd].
    unfold bind. rewrite (encode_native_name w k Hk).
    assert (Hfresh : ~ In k (Dict.keys acc)).
    { unfold Dict.keys in *. rewrite map_app in Hn. cbn in Hn.
      apply NoDup_remove_2 in Hn. intros Hin. apply Hn.
      apply in_or_app. now left. }
    rewrite (set_fresh _ _ _ Hfresh).
    unfold replay_kwargs in IH.
    rewrite IH; [now rewrite <- app_assoc|assumption|].
    now rewrite <- app_assoc.
Qed.

Lemma new_entries_replay (w : world) (d : mapping) :
  Dict.wf d ->
  forallb (replayable (decode_responses (self w)) (encoding (self w)))
          (Dict.keys d) = true ->
  PubSub.new_entries list_or_args []
    (replay_kwargs (encoding (self w)) d) w = (Ok d, w).
Proof.
  intros Hwf Hr. unfold PubSub.new_entries. cbn [PubSub.encode_all].
  unfold bind, ret. cbn [Dict.fromkeys Dict.update fold_left].
  apply (encode_kwargs_replay w d [] Hr). exact Hwf.
Qed.

(** Replaying a mapping the session already holds sends the command with
    the stored keys and changes nothing in the session. *)
Lemma subscribe_replay (w : world) :
  Dict.wf (channels (self w)) ->
  forallb (replayable (decode_responses (self w)) (encoding (self w)))
          (Dict.keys (channels (self w))) = true ->
  subscribe [] (replay_kwargs (encoding (self w)) (channels (self w))) w =
  PubSub.execute_command
    (PStr (lit "SUBSCRIBE") :: Dict.keys (channels (self w))) w.
Proof.
  intros Hwf Hr. unfold subscribe.
  pose proof (@new_entries_replay w _ Hwf Hr) as N.
  rewrite (@subscribe_eq list_or_args PubSub.execute_command [] _ w
             (channels (self w))) by (now rewrite N).
  destruct (execute_command_registry
              (PStr (lit "SUBSCRIBE") :: Dict.keys (channels (self w))) w)
    as [Rc _].
  destruct (PubSub.execute_command _ w) as [[r|e] w1]; [|reflexivity].
  cbn in Rc. rewrite <- Rc, update_same by (now rewrite Rc).
  now rewrite world_eta_channels.
Qed.

Lemma psubscribe_replay (w : world) :
  Dict.wf (patterns (self w)) ->
  forallb (replayable (decode_responses (self w)) (encoding (self w)))
          (Dict.keys (patterns (self w))) = true ->
  psubscribe [] (replay_kwargs (encoding (self w)) (patterns (self w))) w =
  PubSub.execute_command
    (PStr (lit "PSUBSCRIBE") :: Dict.keys (patterns (self w))) w.
Proof.
  intros Hwf Hr. unfold psubscribe.
  pose proof (@new_entries_replay w _ Hwf Hr) as N.
  rewrite (@psubscribe_eq list_or_args PubSub.execute_command [] _ w
             (patterns (self w))) by (now rewrite N).
  destruct (execute_command_registry
              (PStr (lit "PSUBSCRIBE") :: Dict.keys (patterns (self w))) w)
    as [_ Rp].
  destruct (PubSub.execute_command _ w) as [[r|e] w1]; [|reflexivity].
  cbn in Rp. rewrite <- Rp, update_same by (now rewrite Rp).
  now rewrite world_eta_patterns.
Qed.

End Replay.

Lemma execute_command_config (args : list pyval) (w : world) :
  decode_responses (self (snd (PubSub.execute_command args w)))
  = decode_responses (self w) /\
  encoding (self (snd (PubSub.execute_command args w))) = encoding (self w).
Proof.
  rewrite execute_command_eq.
  destruct (@_execute_wire_only (held_connection w)
              (send_command (held_connection w) args)
              (wire_only_send_command _ _) (acquired w)) as (K & _).
  destruct (PubSub._execute _ _ (acquired w)) as [[v|e] w']; cbn in *;
    rewrite K; unfold acquired; destruct (connection_ (self w));
    split; reflexivity.
Qed.

Section Reconnect.
Variable list_or_args : pyval -> list pyval -> list pyval.

Let subscribe := PubSub.subscribe PubSub.execute_command list_or_args.
Let psubscribe := PubSub.psubscribe PubSub.execute_command list_or_args.
Let on_connect := PubSub.on_connect PubSub.execute_command list_or_args.

Let replayable_in (w : world) (d : mapping) : Prop :=
  forallb (replays (decode_responses (self w)) (encoding (self w)))
          (Dict.keys d) = true.

(** The two halves of [on_connect], each as the call it makes. *)
Lemma on_connect_channels (w : world) :
  Dict.wf (channels (self w)) ->
  replayable_in w (channels (self w)) ->
  (if negb (Dict.is_empty (channels (self w))) then
     channels' <- lift (PubSub.native_items (self w) (channels (self w)) []) ;;
     kw <- lift (PubSub.as_kwargs channels') ;;
     subscribe [] kw
   else ret tt) w
  = when_nonempty (channels (self w))
      (subscribe [] (replay_kwargs (encoding (self w)) (channels (self w))))
      w.
Proof.
  intros Hwf Hrs. destruct (replays_split _ _ _ Hrs) as [Hr Hs].
  unfold when_nonempty.
  destruct (negb (Dict.is_empty (channels (self w)))); [|reflexivity].
  rewrite (@native_items_replayable (self w) (channels (self w)) [] Hr)
    by (apply (keys_named_nodup w); assumption).
  cbn [app]. unfold bind, lift at 1, ret.
  rewrite (as_kwargs_named _ _ Hs). reflexivity.
Qed.

Lemma on_connect_patterns (w : world) :
  Dict.wf (patterns (self w)) ->
  replayable_in w (patterns (self w)) ->
  (if negb (Dict.is_empty (patterns (self w))) then
     patterns' <- lift (PubSub.native_items (self w) (patterns (self w)) []) ;;
     kw <- lift (PubSub.as_kwargs patterns') ;;
     psubscribe [] kw
   else ret tt) w
  = when_nonempty (patterns (self w))
      (psubscribe [] (replay_kwargs (encoding (self w)) (patterns (self w))))
      w.
Proof.
  intros Hwf Hrs. destruct (replays_split _ _ _ Hrs) as [Hr Hs].
  unfold when_nonempty.
  destruct (negb (Dict.is_empty (patterns (self w)))); [|reflexivity].
  rewrite (@native_items_replayable (self w) (patterns (self w)) [] Hr)
    by (apply (keys_named_nodup w); assumption).
  cbn [app]. unfold bind, lift at 1, ret.
  rewrite (as_kwargs_named _ _ Hs). reflexivity.
Qed.

(** The session after the first half: mappings and encoding options are
    those of [w]. *)
Lemma after_channels (w : world) :
  let w1 := snd (when_nonempty (channels (self w))
                   (PubSub.execute_command
                      (PStr (lit "SUBSCRIBE")
                         :: Dict.keys (channels (self w)))) w) in
  channels (self w1) = channels (self w) /\
  patterns (self w1) = patterns (self w) /\
  decode_responses (self w1) = decode_responses (self w) /\
  encoding (self w1) = encoding (self w).
Proof.
  unfold when_nonempty.
  destruct (negb (Dict.is_empty (channels (self w)))); cbn;
    [|repeat split].
  destruct (execute_command_registry
              (PStr (lit "SUBSCRIBE") :: Dict.keys (channels (self w))) w).
  destruct (execute_command_config
              (PStr (lit "SUBSCRIBE") :: Dict.keys (channels (self w))) w).
  repeat split; assumption.
Qed.

(** What [on_connect] does on a registry whose keys it can replay. *)
Lemma on_connect_replay_spec (w : world) :
  Dict.wf (channels (self w)) ->
  Dict.wf (patterns (self w)) ->
  replayable_in w (channels (self w)) ->
  replayable_in w (patterns (self w)) ->
  let enc := encoding (self w) in
  on_connect w =
    (when_nonempty (channels (self w))
       (subscribe [] (replay_kwargs enc (channels (self w)))) ;;
     when_nonempty (patterns (self w))
       (psubscribe [] (replay_kwargs enc (patterns (self w))))) w
  /\
  on_connect w =
    (when_nonempty (channels (self w))
       (PubSub.execute_command
          (PStr (lit "SUBSCRIBE") :: Dict.keys (channels (self w)))) ;;
     when_nonempty (patterns (self w))
       (PubSub.execute_command
          (PStr (lit "PSUBSCRIBE") :: Dict.keys (patterns (self w))))) w
  /\
  channels (self (snd (on_connect w))) = channels (self w) /\
  patterns (self (snd (on_connect w))) = patterns (self w).
Proof.
  intros Hwc Hwp Hrc Hrp enc. subst enc.
  (* the first half, as a call and as a command *)
  pose proof (@on_connect_channels w Hwc Hrc) as C1.
  assert (C2 : when_nonempty (channels (self w))
                 (subscribe []
                    (replay_kwargs (encoding (self w))
                       (channels (self w)))) w
               = when_nonempty (channels (self w))
                   (PubSub.execute_command
                      (PStr (lit "SUBSCRIBE")
                         :: Dict.keys (channels (self w)))) w).
  { unfold when_nonempty.
    destruct (negb (Dict.is_empty (channels (self w)))); [|reflexivity].
    apply subscribe_replay; [assumption|].
    now destruct (replays_split _ _ _ Hrc). }
  pose proof (after_channels w) as A. cbv zeta in A.
  (* the second half, in the world the first half leaves *)
  assert (P : forall w1,
    channels (self w1) = channels (self w) ->
    patterns (self w1) = patterns (self w) ->
    decode_responses (self w1) = decode_responses (self w) ->
    encoding (self w1) = encoding (self w) ->
    (if negb (Dict.is_empty (patterns (self w1))) then
       patterns' <- lift (PubSub.native_items (self w1)
                            (patterns (self w1)) []) ;;
       kw <- lift (PubSub.as_kwargs patterns') ;;
       psubscribe [] kw
     else ret tt) w1
    = when_nonempty (patterns (self w))
        (psubscribe []
           (replay_kwargs (encoding (self w)) (patterns (self w)))) w1
    /\
    when_nonempty (patterns (self w))
      (psubscribe []
         (replay_kwargs (encoding (self w)) (patterns (self w)))) w1
    = when_nonempty (patterns (self w))
        (PubSub.execute_command
           (PStr (lit "PSUBSCRIBE") :: Dict.keys (patterns (self w)))) w1
    /\
    channels (self (snd (when_nonempty (patterns (self w))
        (PubSub.execute_command
           (PStr (lit "PSUBSCRIBE") :: Dict.keys (patterns (self w)))) w1)))
    = channels (self w) /\
    patterns (self (snd (when_nonempty (patterns (self w))
        (PubSub.execute_command
           (PStr (lit "PSUBSCRIBE") :: Dict.keys (patterns (self w)))) w1)))
    = patterns (self w)).
  { intros w1 Ec Ep Ed Ee.
    assert (Hwp1 : Dict.wf (patterns (self w1))) by (now rewrite Ep).
    assert (Hrp1 : replayable_in w1 (patterns (self w1))).
    { unfold replayable_in. now rewrite Ed, Ee, Ep. }
    split; [|split].
    - rewrite (@on_connect_patterns w1 Hwp1 Hrp1).
      now rewrite Ee, Ep.
    - unfold when_nonempty.
      destruct (negb (Dict.is_empty (patterns (self w)))); [|reflexivity].
      rewrite <- Ee, <- Ep. apply psubscribe_replay; [assumption|].
      now destruct (replays_split _ _ _ Hrp1).
    - unfold when_nonempty.
      destruct (negb (Dict.is_empty (patterns (self w))));
        [|split; assumption].
      destruct (execute_command_registry
                  (PStr (lit "PSUBSCRIBE") :: Dict.keys (patterns (self w)))
                  w1) as [Rc Rp].
      rewrite Rc, Rp. split; assumption. }
  (* putting the halves together *)
  assert (U : on_connect w =
    match (if negb (Dict.is_empty (channels (self w))) then
             channels' <- lift (PubSub.native_items (self w)
                                  (channels (self w)) []) ;;
             kw <- lift (PubSub.as_kwargs channels') ;;
             subscribe [] kw
           else ret tt) w with
    | (Ok _, w1) =>
        (if negb (Dict.is_empty (patterns (self w1))) then
           patterns' <- lift (PubSub.native_items (self w1)
                                (patterns (self w1)) []) ;;
           kw <- lift (PubSub.as_kwargs patterns') ;;
           psubscribe [] kw
         else ret tt) w1
    | (Err e, w1) => (Err e, w1)
    end) by reflexivity.
  assert (B : forall (m k : M unit) (x : world),
             (m ;; k) x = match m x with
                          | (Ok _, x') => k x'
                          | (Err e, x') => (Err e, x')
                          end) by reflexivity.
  rewrite U, C1, !B, C2.
  destruct (when_nonempty (channels (self w))
              (PubSub.execute_command
                 (PStr (lit "SUBSCRIBE") :: Dict.keys (channels (self w))))
              w) as [[[]|e] w1]; cbn [snd] in A;
    destruct A as (Ac & Ap & Ad & Ae).
  - destruct (P w1 Ac Ap Ad Ae) as (P1 & P2 & P3 & P4).
    rewrite P1, P2. repeat split; assumption.
  - cbn. repeat split; assumption.
Qed.

(** X21.  The replay of the registry, where the code achieves it.  Take
    a session whose mappings are dictionaries (no key twice) and whose keys
    [on_connect] can replay: [str] keys in a session that decodes
    responses, otherwise [bytes] keys that decode under the session's
    encoding and encode back to themselves; and no key whose name is
    [self].  Then [on_connect] is: when the channel mapping is not empty,
    one [subscribe] call whose keyword arguments are the entries of the
    channel mapping, in order, each key in its native text form with its
    handler; then, if that call did not raise and the pattern mapping is
    not empty, one [psubscribe] call made likewise from the pattern
    mapping.  The commands these calls hand to [execute_command] are
    [SUBSCRIBE] followed by exactly the stored channel keys and
    [PSUBSCRIBE] followed by exactly the stored pattern keys, and nothing
    else happens: afterwards both mappings are what they were. *)
Theorem on_connect_replays_registry (w : world) :
  Dict.wf (channels (self w)) ->
  Dict.wf (patterns (self w)) ->
  replayable_in w (channels (self w)) ->
  replayable_in w (patterns (self w)) ->
  let enc := encoding (self w) in
  on_connect w =
    (when_nonempty (channels (self w))
       (subscribe [] (replay_kwargs enc (channels (self w)))) ;;
     when_nonempty (patterns (self w))
       (psubscribe [] (replay_kwargs enc (patterns (self w))))) w
  /\
  on_connect w =
    (when_nonempty (channels (self w))
       (PubSub.execute_command
          (PStr (lit "SUBSCRIBE") :: Dict.keys (channels (self w)))) ;;
     when_nonempty (patterns (self w))
       (PubSub.execute_command
          (PStr (lit "PSUBSCRIBE") :: Dict.keys (patterns (self w))))) w
  /\
  channels (self (snd (on_connect w))) = channels (self w) /\
  patterns (self (snd (on_connect w))) = patterns (self w).
Proof. exact (@on_connect_replay_spec w). Qed.

End Reconnect.

(** * The theorems at concrete inputs *)

Ltac concrete_wf :=
  unfold Dict.wf; cbn; repeat constructor; cbn;
  intuition (cbv in *; discriminate).

(** A [message] for [news], which has handler 7, and one for a channel with
    no handler. *)
Lemma handle_message_delivery_witness :
  let w := Examples.subscribed_world (Examples.always (Returns RNone)) in
  let hello := PStr (lit "hello") in
  (exists w',
      PubSub.handle_message Examples.nativestr
        [PStr (lit "message"); Examples.news; hello] false w = (Ok None, w')
      /\ self w' = self w
      /\ trace (env w') =
         [EvHandler 7 {| msg_type := lit "message"; msg_pattern := PNone;
                         msg_channel := Examples.news; msg_data := hello |}
            (Returns RNone)])
  /\
  PubSub.handle_message Examples.nativestr
    [PStr (lit "message"); PStr (lit "other"); hello] false w
  = (Ok (Some {| msg_type := lit "message"; msg_pattern := PNone;
                 msg_channel := PStr (lit "other"); msg_data := hello |}), w).
Proof.
  intros w hello. split.
  - destruct (@handle_message_delivery Examples.nativestr w
                (PStr (lit "message")) [] false) as [H _].
    destruct (H Examples.news hello eq_refl) as [Hh _].
    exact (Hh 7 RNone eq_refl eq_refl).
  - destruct (@handle_message_delivery Examples.nativestr w
                (PStr (lit "message")) [] false) as [H _].
    destruct (H (PStr (lit "other")) hello eq_refl) as [_ Hn].
    exact (Hn eq_refl).
Defined.

(** An [unsubscribe] acknowledgement for a channel that was never
    subscribed. *)
Lemma handle_message_unsubscribe_ack_witness :
  let w := Examples.subscribed_world (Examples.always (Returns RNone)) in
  exists r w',
    PubSub.handle_message Examples.nativestr
      [PStr (lit "unsubscribe"); PStr (lit "x"); PInt 0] false w = (Ok r, w')
    /\ channels (self w') = channels (self w)
    /\ patterns (self w') = patterns (self w).
Proof.
  intros w.
  assert (Hc : Dict.wf (channels (self w))) by concrete_wf.
  assert (Hp : Dict.wf (patterns (self w))) by concrete_wf.
  destruct (@handle_message_unsubscribe_ack Examples.nativestr w
              (PStr (lit "unsubscribe")) (PStr (lit "x")) (PInt 0) [] false
              Hc Hp) as [H _].
  destruct (H eq_refl) as (r & w' & E & _ & _ & _ & Habs & Hpat & _).
  exists r, w'. split; [exact E|]. split; [|exact Hpat].
  apply Habs. reflexivity.
Defined.

(** The acknowledgement of the spec's scenario, [subscribe news 1], with
    both flags off. *)
Lemma handle_message_ack_suppression_witness :
  let w := Examples.subscribed_world (Examples.always (Returns RNone)) in
  fst (PubSub.handle_message Examples.nativestr
         [PStr (lit "subscribe"); Examples.news; PInt 1] false w)
  = Ok (Some {| msg_type := lit "subscribe"; msg_pattern := PNone;
                msg_channel := Examples.news; msg_data := PInt 1 |}).
Proof.
  intros w.
  destruct (@handle_message_ack_suppression Examples.nativestr w
              (PStr (lit "subscribe")) Examples.news (PInt 1) [] false
              (lit "subscribe") eq_refl (or_introl eq_refl)) as [_ H].
  exact (H eq_refl).
Defined.

(** A [pong] at time 100, and a reply of an unknown type, in the cluster
    variant. *)
Lemma cluster_handle_message_pong_and_unknown_witness :
  let w := Examples.subscribed_world (Examples.always (Returns RNone)) in
  (last_pong (self w) = None /\
   exists w',
     ClusterPubSub.handle_message Examples.nativestr
       [PStr (lit "pong")] false w = (Ok None, w')
     /\ last_pong (self w') = Some 100
     /\ channels (self w') = channels (self w)
     /\ patterns (self w') = patterns (self w)
     /\ env w' = env w)
  /\
  exists w',
    ClusterPubSub.handle_message Examples.nativestr
      [PStr (lit "hello"); PInt 1] false w = (Ok None, w')
    /\ self w' = self w
    /\ trace (env w') = [EvPrint "response not recegnized"].
Proof.
  intros w. split.
  - split; [reflexivity|].
    destruct (@cluster_handle_message_pong_and_unknown Examples.nativestr w
                PNone [] false) as [(w' & R & L & _ & C & P & _ & _ & _ & _ & E) _].
    exists w'. repeat split; assumption.
  - destruct (@cluster_handle_message_pong_and_unknown Examples.nativestr w
                (PStr (lit "hello")) [PInt 1] false) as [_ H].
    apply H.
    + intros E. cbv in E. discriminate E.
    + reflexivity.
Defined.

(** A [pmessage] matching the pattern [n*], which has handler 9: the
    cluster variant drops it without calling the handler. *)
Lemma cluster_handle_message_forwards_two_types_witness :
  let w := Examples.subscribed_world (Examples.always (Returns RNone)) in
  exists w',
    ClusterPubSub.handle_message Examples.nativestr
      [PStr (lit "pmessage"); PStr (lit "n*"); Examples.news;
       PStr (lit "hello")] false w = (Ok None, w')
    /\ self w' = self w
    /\ channels (self w') = channels (self w)
    /\ patterns (self w') = patterns (self w)
    /\ trace (env w') = [EvPrint "response not recegnized"].
Proof.
  intros w.
  destruct (@cluster_handle_message_forwards_two_types Examples.nativestr w
              (PStr (lit "pmessage"))
              [PStr (lit "n*"); Examples.news; PStr (lit "hello")] false)
    as [_ H].
  apply H. left. reflexivity.
Defined.

(** A send that fails with [ConnectionError], a reconnect that succeeds and
    a second send that fails again: the second failure reaches the caller
    and nothing follows it on the trace. *)
Lemma _execute_reconnects_and_retries_once_witness :
  let o := Examples.script
             [Raises ConnectionError; Returns RNone; Raises ConnectionError] in
  let w := Examples.new_world false Codec.utf8_codec o in
  let command := send_command Examples.conn0 Examples.subscribe_news in
  exists w',
    PubSub._execute Examples.conn0 command w = (Err ConnectionError, w')
    /\ trace (env w') =
       [EvSendCommand 0 Examples.subscribe_news (Raises ConnectionError);
        EvDisconnect 0;
        EvConnect 0 (Returns RNone);
        EvSendCommand 0 Examples.subscribe_news (Raises ConnectionError)].
Proof.
  intros o w command.
  destruct (@_execute_reconnects_and_retries_once Examples.conn0 command w
              (answered (EvSendCommand 0 Examples.subscribe_news) w)
              ConnectionError eq_refl (or_introl eq_refl)) as [_ H].
  destruct (H (or_introl eq_refl)) as [Hret _].
  eexists. split.
  - rewrite (Hret RNone eq_refl). reflexivity.
  - reflexivity.
Defined.

(** A [subscribe] and a [psubscribe] whose send returns, and a
    [subscribe] whose send raises. *)
Lemma subscribe_registry_ordering_witness :
  let args := [Examples.news] in
  let kw := [(lit "alerts", Some 3)] in
  let new := [(PBytes "news"%string, None);
              (PBytes "alerts"%string, Some 3)] in
  let sent := Examples.new_world false Codec.utf8_codec
                (Examples.always (Returns RNone)) in
  let lost := Examples.new_world false Codec.utf8_codec
                (Examples.always (Raises (OtherError "boom"))) in
  (exists w',
      PubSub.subscribe PubSub.execute_command Examples.list_or_args
        args kw sent = (Ok tt, w')
      /\ channels (self w') = new
      /\ patterns (self w') = []
      /\ trace (env w') =
         [EvGetConnection None None 0;
          EvRegisterConnectCallback 0;
          EvSendCommand 0
            [PStr (lit "SUBSCRIBE"); PBytes "news"%string;
             PBytes "alerts"%string] (Returns RNone)])
  /\
  (exists w',
      PubSub.psubscribe PubSub.execute_command Examples.list_or_args
        args kw sent = (Ok tt, w')
      /\ patterns (self w') = new
      /\ channels (self w') = []
      /\ trace (env w') =
         [EvGetConnection None None 0;
          EvRegisterConnectCallback 0;
          EvSendCommand 0
            [PStr (lit "PSUBSCRIBE"); PBytes "news"%string;
             PBytes "alerts"%string] (Returns RNone)])
  /\
  (exists w',
      PubSub.subscribe PubSub.execute_command Examples.list_or_args
        args kw lost = (Err (OtherError "boom"), w')
      /\ channels (self w') = [] /\ patterns (self w') = [])
  /\
  (exists w',
      PubSub.psubscribe PubSub.execute_command Examples.list_or_args
        args kw lost = (Err (OtherError "boom"), w')
      /\ channels (self w') = [] /\ patterns (self w') = []).
Proof.
  intros args kw new sent lost. split; [|split; [|split]].
  - destruct (@subscribe_registry_ordering Examples.list_or_args sent args kw
                new eq_refl) as [[_ H] _].
    destruct (H _ eq_refl) as (_ & (w' & E & C & P & _ & Ev & _) & _).
    exists w'. split; [exact E|]. split; [exact C|]. split; [exact P|].
    rewrite Ev. reflexivity.
  - destruct (@subscribe_registry_ordering Examples.list_or_args sent args kw
                new eq_refl) as [_ [_ H]].
    destruct (H _ eq_refl) as (_ & (w' & E & P & C & _ & Ev & _) & _).
    exists w'. split; [exact E|]. split; [exact P|]. split; [exact C|].
    rewrite Ev. reflexivity.
  - destruct (@subscribe_registry_ordering Examples.list_or_args lost args kw
                new eq_refl) as [[H _] _].
    destruct (H _ _ eq_refl) as (E & C & P).
    eexists. split; [exact E|]. split; [exact C|exact P].
  - destruct (@subscribe_registry_ordering Examples.list_or_args lost args kw
                new eq_refl) as [_ [H _]].
    destruct (H _ _ eq_refl) as (E & C & P).
    eexists. split; [exact E|]. split; [exact C|exact P].
Defined.

(** A first [subscribe] whose send is cancelled while the connection has
    unread data. *)
Lemma cancelled_send_still_registers_witness :
  let o := Examples.script [Raises CancelledError; Returns (RBool true)] in
  let w := Examples.new_world false Codec.utf8_codec o in
  exists w',
    PubSub.subscribe PubSub.execute_command Examples.list_or_args
      [Examples.news] [] w = (Ok tt, w')
    /\ channels (self w') = [(PBytes "news"%string, None)]
    /\ trace (env w') =
       [EvGetConnection None None 0;
        EvRegisterConnectCallback 0;
        EvSendCommand 0 Examples.subscribe_news (Raises CancelledError);
        EvCanRead 0 (Returns (RBool true));
        EvDisconnect 0].
Proof.
  intros o w.
  destruct (@cancelled_send_still_registers Examples.list_or_args w
              [Examples.news] [] [(PBytes "news"%string, None)] (RBool true)
              eq_refl eq_refl eq_refl)
    as (_ & (w' & E & C & _ & T) & _).
  exists w'. split; [exact E|]. split; [exact C|exact T].
Defined.

(** Replaying the raw-byte session of the examples. *)
Lemma on_connect_replays_registry_witness :
  let w := Examples.raw_world (Examples.always (Returns RNone)) in
  let w' := snd (PubSub.on_connect PubSub.execute_command
                   Examples.list_or_args w) in
  channels (self w') = [(PBytes "news"%string, Some 7)]
  /\ patterns (self w') = [(PBytes "n*"%string, None)]
  /\ trace (env w') =
     [EvGetConnection None None 0;
      EvRegisterConnectCallback 0;
      EvSendCommand 0 [PStr (lit "SUBSCRIBE"); PBytes "news"%string] (Returns RNone);
      EvSendCommand 0 [PStr (lit "PSUBSCRIBE"); PBytes "n*"%string] (Returns RNone)].
Proof.
  intros w w'.
  assert (Hc : Dict.wf (channels (self w))) by concrete_wf.
  assert (Hp : Dict.wf (patterns (self w))) by concrete_wf.
  destruct (@on_connect_replays_registry Examples.list_or_args w Hc Hp
              eq_refl eq_refl) as (_ & E & C & P).
  split; [exact C|]. split; [exact P|].
  unfold w'. rewrite E. reflexivity.
Defined.

(** C3.  [on_connect] does not re-subscribe every channel the session
    tracks.  It hands the stored keys to [subscribe] as keyword names, and
    two kinds of names that [subscribe] accepts and stores cannot travel
    that way: in a raw-byte session a name that is not valid in the
    session's encoding (the byte [0xFF] under UTF-8), which makes the
    decoding of line 69 raise; and in any session the name [self], which
    the keyword call refuses.  In both cases [on_connect] raises before
    any command is sent and the world is left as it was, so that the other
    channels of the session are not re-subscribed either. *)
Theorem on_connect_fails_on_stored_key :
  let subscribe :=
    PubSub.subscribe PubSub.execute_command Examples.list_or_args in
  let on_connect :=
    PubSub.on_connect PubSub.execute_command Examples.list_or_args in
  let raw := Examples.new_world false Codec.utf8_codec
               (Examples.always (Returns RNone)) in
  let txt := Examples.new_world true Codec.utf8_codec
               (Examples.always (Returns RNone)) in
  (exists w1,
      subscribe [Examples.undecodable] [] raw = (Ok tt, w1)
      /\ channels (self w1) = [(Examples.undecodable, None)]
      /\ on_connect w1 = (Err UnicodeError, w1))
  /\
  (exists w1,
      subscribe [PStr (lit "self")] [] txt = (Ok tt, w1)
      /\ channels (self w1) = [(PStr (lit "self"), None)]
      /\ on_connect w1 = (Err TypeError, w1))
  /\
  (exists w1,
      subscribe [PStr (lit "self")] [] raw = (Ok tt, w1)
      /\ channels (self w1) = [(PBytes "self"%string, None)]
      /\ on_connect w1 = (Err TypeError, w1))
  /\
  (exists w1,
      subscribe [Examples.news; Examples.undecodable] [] raw = (Ok tt, w1)
      /\ channels (self w1) =
         [(PBytes "news"%string, None); (Examples.undecodable, None)]
      /\ on_connect w1 = (Err UnicodeError, w1)).
Proof.
  intros subscribe on_connect raw txt.
  repeat split; eexists; (split; [reflexivity|]); split; reflexivity.
Qed.

(** The broker unreachable from the first [SUBSCRIBE] on; a broker that
    accepts every reconnect and fails every send; and a broker that is
    back for the third attempt. *)
Lemma cluster_execute_command_gives_up_after_26_retries_witness :
  let down := Examples.always (Raises ConnectionError) in
  let resend_fails :=
    fun t => if t mod 3 =? 1 then Returns RNone
             else Raises ConnectionError in
  let back := Examples.script [Raises (OtherError "boom");
                               Raises (OtherError "boom")] in
  let run o :=
    ClusterPubSub.execute_command Examples.subscribe_news 0
      (Examples.new_world false Codec.utf8_codec o) in
  let gives_up o :=
    exists e, fst (run o) = Err e
    /\ attempts (trace (env (snd (run o)))) = 27
    /\ sleeps (trace (env (snd (run o)))) = seq 2 26
    /\ reinitialize_counter (env (snd (run o))) = 26
    /\ acquisitions (trace (env (snd (run o)))) = 27 in
  gives_up down /\ gives_up resend_fails
  /\
  (fst (run back) = Ok tt
   /\ attempts (trace (env (snd (run back)))) = 3
   /\ sleeps (trace (env (snd (run back)))) = [2; 3]).
Proof.
  intros down resend_fails back run gives_up.
  assert (G : forall o,
             attempts_fail 27 Examples.subscribe_news 0
               (Examples.new_world false Codec.utf8_codec o) = true ->
             exists e, fst (run o) = Err e
             /\ attempts (trace (env (snd (run o)))) = 27
             /\ sleeps (trace (env (snd (run o)))) = seq 2 26
             /\ reinitialize_counter (env (snd (run o))) = 26
             /\ acquisitions (trace (env (snd (run o)))) = 27).
  { intros o F.
    destruct (@cluster_execute_command_gives_up_after_26_retries
                Examples.subscribe_news (PBytes "news"%string) eq_refl 0
                (Examples.new_world false Codec.utf8_codec o))
      as (k & r & w' & E & _ & A & S & R & Q & Hfail & _).
    destruct (Hfail F) as (-> & e & _ & _ & _ & -> & _).
    exists e. unfold run. rewrite E. cbn [fst snd].
    split; [reflexivity|]. split; [exact A|]. split; [exact S|].
    split; [exact R|exact Q]. }
  split; [apply G; vm_compute; reflexivity|].
  split; [apply G; vm_compute; reflexivity|].
  destruct (@cluster_execute_command_gives_up_after_26_retries
              Examples.subscribe_news (PBytes "news"%string) eq_refl 0
              (Examples.new_world false Codec.utf8_codec back))
    as (k & r & w' & E & _ & _ & _ & _ & _ & _ & Hok).
  split; [|vm_compute; split; reflexivity].
  unfold run. rewrite E. cbn [fst].
  apply Hok. vm_compute. reflexivity.
Defined.

(** C1, the claim as stated, fails.  With the broker unreachable the call
    makes 27 attempts, that is 26 retries and not 25: the 26th retry is
    issued, after sleeps of 2, 3, ..., 27 time units. *)
Lemma cluster_execute_command_26th_retry :
  let w := Examples.new_world false Codec.utf8_codec
             (Examples.always (Raises ConnectionError)) in
  let r := ClusterPubSub.execute_command Examples.subscribe_news 0 w in
  fst r = Err ConnectionError
  /\ attempts (trace (env (snd r))) = 27
  /\ sleeps (trace (env (snd r))) = seq 2 26
  /\ List.length (sleeps (trace (env (snd r)))) <> 25.
Proof.
  intros w r. vm_compute. repeat split. discriminate.
Qed.

(** * Further properties of the session *)

(** ** Normalizing names *)

Lemma encode_result (value : pyval) (w : world) :
  PubSub.encode value w = (fst (PubSub.encode value w), w).
Proof.
  pose proof (encode_pure value w) as P.
  destruct (PubSub.encode value w). cbn in *. now subst.
Qed.

Lemma encode_error (value : pyval) (w : world) (e : exn) :
  fst (PubSub.encode value w) = Err e -> e = UnicodeError.
Proof.
  unfold PubSub.encode. run.
  destruct value as [| |t|b]; cbn; try discriminate.
  - destruct (negb (decode_responses (self w))); [|discriminate].
    destruct (str_encode (encoding (self w)) t); cbn; congruence.
  - destruct (decode_responses (self w)); [|discriminate].
    destruct (bytes_decode (encoding (self w)) b); cbn; congruence.
Qed.

(** X1.  [encode] is a normalization: what it returns it returns again
    unchanged, a session that decodes responses never gets [bytes] out of
    it, and a session in raw-byte mode never gets a [str]. *)
Theorem encode_normalizes (w : world) (value k : pyval) :
  fst (PubSub.encode value w) = Ok k ->
  PubSub.encode k w = (Ok k, w) /\
  (decode_responses (self w) = true -> forall b, k <> PBytes b) /\
  (decode_responses (self w) = false -> forall t, k <> PStr t).
Proof.
  unfold PubSub.encode. run.
  destruct (decode_responses (self w)) eqn:D;
    destruct value as [|z|t|b]; cbn;
    try (match goal with
         | |- context [match ?x with Some _ => _ | None => _ end] =>
             destruct x
         end; cbn);
    intros H; try discriminate H; injection H as <-; cbn;
    (split; [reflexivity|]); split; intros; discriminate.
Qed.

Lemma encode_all_spec (args : list pyval) (w : world) :
  match fst (PubSub.encode_all args w) with
  | Ok ks => Forall2 (fun a k => fst (PubSub.encode a w) = Ok k) args ks
  | Err e => e = UnicodeError /\
             exists a, In a args /\ fst (PubSub.encode a w) = Err UnicodeError
  end.
Proof.
  induction args as [|a args IH]; cbn [PubSub.encode_all].
  - constructor.
  - unfold bind. rewrite (encode_result a w).
    destruct (fst (PubSub.encode a w)) as [k|e] eqn:Ea.
    + rewrite (surjective_pairing (PubSub.encode_all args w)).
      rewrite encode_all_pure.
      destruct (fst (PubSub.encode_all args w)) as [ks|e] eqn:Er; cbn.
      * now constructor.
      * destruct IH as [-> (a' & Hin & Ha')]. split; [reflexivity|].
        exists a'. split; [now right|assumption].
    + cbn. pose proof (encode_error a w Ea) as ->.
      split; [reflexivity|]. exists a. split; [now left|assumption].
Qed.

Lemma encode_kwargs_spec (kw : kwargs) (acc : mapping) (w : world) :
  match fst (PubSub.encode_kwargs kw acc w) with
  | Ok new =>
      exists ks,
        Forall2 (fun nh k => fst (PubSub.encode (PStr (fst nh)) w) = Ok k)
                kw ks /\
        new = fold_left (fun d p => Dict.set (fst p) (snd (snd p)) d)
                        (combine ks kw) acc
  | Err e => e = UnicodeError /\
             exists n h, In (n, h) kw /\
                         fst (PubSub.encode (PStr n) w) = Err UnicodeError
  end.
Proof.
  revert acc. induction kw as [|[n h] kw IH]; intros acc;
    cbn [PubSub.encode_kwargs].
  - exists []. split; [constructor|reflexivity].
  - unfold bind. rewrite (encode_result (PStr n) w).
    destruct (fst (PubSub.encode (PStr n) w)) as [k|e] eqn:Ea.
    + specialize (IH (Dict.set k h acc)).
      destruct (fst (PubSub.encode_kwargs kw (Dict.set k h acc) w))
        as [new|e] eqn:Er.
      * destruct IH as (ks & F & ->). exists (k :: ks).
        split; [now constructor|reflexivity].
      * destruct IH as [-> (n' & h' & Hin & Hn')]. split; [reflexivity|].
        exists n', h'. split; [now right|assumption].
    + cbn. pose proof (encode_error (PStr n) w Ea) as ->.
      split; [reflexivity|]. exists n, h. split; [now left|assumption].
Qed.

Lemma in_keys_fold_set {V A} (f : A -> pyval) (g : A -> V) (l : list A)
      (acc : Dict.t V) (k : pyval) :
  In k (Dict.keys (fold_left (fun d x => Dict.set (f x) (g x) d) l acc)) <->
  In k (Dict.keys acc) \/ In k (map f l).
Proof.
  revert acc. induction l as [|x l IH]; intros acc; cbn [fold_left map In].
  - tauto.
  - rewrite IH, in_keys_set. intuition.
Qed.

Lemma in_keys_fromkeys {V} (ks : list pyval) (k : pyval) :
  In k (Dict.keys (@Dict.fromkeys V ks)) <-> In k ks.
Proof.
  unfold Dict.fromkeys.
  rewrite (in_keys_fold_set (fun x => x) (fun _ => @None V)).
  rewrite map_id. cbn. tauto.
Qed.

Lemma in_keys_update_iff {V} (d new : Dict.t V) (k : pyval) :
  In k (Dict.keys (Dict.update d new)) <->
  In k (Dict.keys d) \/ In k (Dict.keys new).
Proof.
  unfold Dict.update.
  rewrite (in_keys_fold_set fst snd). reflexivity.
Qed.

Lemma Forall2_in_left {A B} (R : A -> B -> Prop) (l : list A) (l' : list B)
      (b : B) :
  Forall2 R l l' -> In b l' -> exists a, In a l /\ R a b.
Proof.
  induction 1 as [|a b' l l' HR F IH]; cbn; [tauto|].
  intros [<-|Hin].
  - exists a. split; [now left|assumption].
  - destruct (IH Hin) as (a' & Ha & HR'). exists a'. split; [now right|easy].
Qed.

Lemma Forall2_in_right {A B} (R : A -> B -> Prop) (l : list A) (l' : list B)
      (a : A) :
  Forall2 R l l' -> In a l -> exists b, In b l' /\ R a b.
Proof.
  induction 1 as [|a' b l l' HR F IH]; cbn; [tauto|].
  intros [<-|Hin].
  - exists b. split; [now left|assumption].
  - destruct (IH Hin) as (b' & Hb & HR'). exists b'. split; [now right|easy].
Qed.

Lemma map_fst_combine_kwargs (ks : list pyval) (kw : kwargs) :
  List.length ks = List.length kw ->
  map (fun p : pyval * (text * option handler) => fst p) (combine ks kw) = ks.
Proof.
  revert kw. induction ks as [|k ks IH]; intros [|nh kw]; cbn;
    try discriminate; [reflexivity|].
  intros H. injection H as H. now rewrite IH.
Qed.

Section Names.
Variable list_or_args : pyval -> list pyval -> list pyval.

(** The positional names of a call, as [list_or_args] flattens them. *)
Let names (args : list pyval) : list pyval :=
  match args with
  | [] => []
  | a :: rest => list_or_args a rest
  end.

(** X2.  A name that cannot be encoded (a positional name or the name of a
    keyword argument) makes [subscribe] and [psubscribe] raise a
    [UnicodeError] before anything is sent: whatever [execute_command] is,
    it is not run, and the world is as it was. *)
Theorem subscribe_rejects_unencodable_name
        (exec : list pyval -> M unit) (args : list pyval) (kw : kwargs)
        (w : world) :
  (exists a, In a (names args) /\
             fst (PubSub.encode a w) = Err UnicodeError) \/
  (exists n h, In (n, h) kw /\
               fst (PubSub.encode (PStr n) w) = Err UnicodeError) ->
  PubSub.subscribe exec list_or_args args kw w = (Err UnicodeError, w) /\
  PubSub.psubscribe exec list_or_args args kw w = (Err UnicodeError, w).
Proof.
  intros H.
  assert (N : PubSub.new_entries list_or_args args kw w
              = (Err UnicodeError, w)).
  { unfold PubSub.new_entries. fold (names args). unfold bind.
    pose proof (encode_all_spec (names args) w) as A.
    rewrite (surjective_pairing (PubSub.encode_all (names args) w)).
    rewrite encode_all_pure.
    destruct (fst (PubSub.encode_all (names args) w)) as [ks|e] eqn:Ea.
    - pose proof (encode_kwargs_spec kw
                    (Dict.update [] (Dict.fromkeys ks)) w) as K.
      rewrite (surjective_pairing (PubSub.encode_kwargs kw _ w)).
      rewrite encode_kwargs_pure.
      destruct (fst (PubSub.encode_kwargs kw _ w)) as [new|e] eqn:Ek.
      + exfalso. destruct H as [(a & Hin & Ha)|(n & h & Hin & Hn)].
        * destruct (Forall2_in_right _ A Hin) as (k & _ & Hk).
          cbv beta in Hk. rewrite Ha in Hk. discriminate Hk.
        * destruct K as (ks' & F & _).
          destruct (Forall2_in_right _ F Hin) as (k & _ & Hk).
          cbn [fst] in Hk. rewrite Hn in Hk. discriminate Hk.
      + destruct K as [-> _]. reflexivity.
    - destruct A as [-> _]. reflexivity. }
  unfold PubSub.subscribe, PubSub.psubscribe, bind. now rewrite N.
Qed.

Lemma new_entries_keys_spec (args : list pyval) (kw : kwargs) (w : world)
        (new : mapping) :
  fst (PubSub.new_entries list_or_args args kw w) = Ok new ->
  NoDup (Dict.keys new) /\
  forall k,
    In k (Dict.keys new) <->
    (exists a, In a (names args) /\ fst (PubSub.encode a w) = Ok k) \/
    (exists n h, In (n, h) kw /\ fst (PubSub.encode (PStr n) w) = Ok k).
Proof.
  intros H. split; [exact (new_entries_wf _ _ _ _ H)|].
  revert H. unfold PubSub.new_entries. fold (names args). unfold bind.
  pose proof (encode_all_spec (names args) w) as A.
  rewrite (surjective_pairing (PubSub.encode_all (names args) w)).
  rewrite encode_all_pure.
  destruct (fst (PubSub.encode_all (names args) w)) as [ks|e] eqn:Ea;
    [|discriminate].
  pose proof (encode_kwargs_spec kw (Dict.update [] (Dict.fromkeys ks)) w)
    as K.
  intros H. rewrite H in K. destruct K as (ks' & F & ->).
  intros k.
  rewrite (in_keys_fold_set
             (fun p : pyval * (text * option handler) => fst p)
             (fun p => snd (snd p))).
  rewrite in_keys_update_iff, in_keys_fromkeys.
  rewrite map_fst_combine_kwargs
    by (symmetry; exact (Forall2_length F)).
  cbn [Dict.keys map]. split.
  - intros [[[]|Hin]|Hin].
    + left. destruct (Forall2_in_left _ A Hin) as (a & Ha & Hk). eauto.
    + right. destruct (Forall2_in_left _ F Hin) as ([n h] & Hn & Hk).
      eauto.
  - intros [(a & Hin & Ha)|(n & h & Hin & Hn)].
    + left. right.
      destruct (Forall2_in_right _ A Hin) as (k' & Hk' & E).
      cbv beta in E. rewrite Ha in E. injection E as <-. exact Hk'.
    + right.
      destruct (Forall2_in_right _ F Hin) as (k' & Hk' & E).
      cbn [fst] in E. rewrite Hn in E. injection E as <-. exact Hk'.
Qed.


(** X3.  The keys a call hands to [SUBSCRIBE] are exactly the encoded
    positional names and the encoded names of the keyword arguments, each
    of them once, however often the caller repeats a name. *)
Theorem new_entries_keys (args : list pyval) (kw : kwargs) (w : world)
        (new : mapping) :
  fst (PubSub.new_entries list_or_args args kw w) = Ok new ->
  NoDup (Dict.keys new) /\
  forall k,
    In k (Dict.keys new) <->
    (exists a, In a (names args) /\ fst (PubSub.encode a w) = Ok k) \/
    (exists n h, In (n, h) kw /\ fst (PubSub.encode (PStr n) w) = Ok k).
Proof. apply new_entries_keys_spec. Qed.

End Names.

(** ** The registry under [subscribe] and [unsubscribe] *)

Lemma get_in_keys {V} (k : pyval) (d : Dict.t V) :
  In k (Dict.keys d) -> exists v, Dict.get k d = Some v.
Proof.
  induction d as [|[k0 v0] d IH]; cbn; [tauto|].
  intros [E|Hin]; destruct (pyval_eq_dec k k0); eauto.
  congruence.
Qed.

Lemma get_in {V} (k : pyval) (v : V) (d : Dict.t V) :
  Dict.get k d = Some v -> In (k, v) d.
Proof.
  induction d as [|[k0 v0] d IH]; cbn; [discriminate|].
  destruct (pyval_eq_dec k k0) as [->|Hne].
  - intros H. injection H as ->. now left.
  - intros H. right. now apply IH.
Qed.

Lemma set_all {V} (P : V -> Prop) (k : pyval) (v : V) (d : Dict.t V) :
  P v -> Forall (fun kv => P (snd kv)) d ->
  Forall (fun kv => P (snd kv)) (Dict.set k v d).
Proof.
  intros Hv. induction d as [|[k0 v0] d IH]; cbn; intros H.
  - now constructor.
  - inversion H as [|? ? H0 Hd]; subst.
    destruct (pyval_eq_dec k k0); constructor; auto.
Qed.

Lemma fold_set_all {V A} (P : V -> Prop) (f : A -> pyval) (g : A -> V)
      (l : list A) (acc : Dict.t V) :
  (forall x, In x l -> P (g x)) ->
  Forall (fun kv => P (snd kv)) acc ->
  Forall (fun kv => P (snd kv))
         (fold_left (fun d x => Dict.set (f x) (g x) d) l acc).
Proof.
  revert acc. induction l as [|x l IH]; cbn; intros acc Hl Hacc.
  - assumption.
  - apply IH; [auto|]. apply set_all; auto.
Qed.

Section RegistryUpdates.
Variable nativestr : pyval -> result text.
Variable list_or_args : pyval -> list pyval -> list pyval.

Let subscribe := PubSub.subscribe PubSub.execute_command list_or_args.
Let psubscribe := PubSub.psubscribe PubSub.execute_command list_or_args.
Let new_entries := PubSub.new_entries list_or_args.
Let handle := PubSub.handle_message nativestr.

Lemma subscribe_returned (args : list pyval) (kw : kwargs) (w w' : world) :
  subscribe args kw w = (Ok tt, w') ->
  exists new,
    fst (new_entries args kw w) = Ok new /\
    channels (self w') = Dict.update (channels (self w)) new /\
    patterns (self w') = patterns (self w).
Proof.
  intros H.
  destruct (fst (new_entries args kw w)) as [new|e] eqn:N.
  - exists new. split; [reflexivity|].
    unfold subscribe in H. rewrite (subscribe_eq _ _ _ _ _ N) in H.
    destruct (execute_command_registry
                (PStr (lit "SUBSCRIBE") :: Dict.keys new) w) as [Rc Rp].
    destruct (PubSub.execute_command _ w) as [[[]|e] w1]; [|discriminate].
    injection H as <-. cbn in *. now rewrite Rc, Rp.
  - exfalso. unfold subscribe, PubSub.subscribe, bind in H.
    unfold new_entries in N.
    destruct (PubSub.new_entries list_or_args args kw w) as [[n|e'] w1];
      cbn in N; congruence.
Qed.

Lemma psubscribe_returned (args : list pyval) (kw : kwargs) (w w' : world) :
  psubscribe args kw w = (Ok tt, w') ->
  exists new,
    fst (new_entries args kw w) = Ok new /\
    patterns (self w') = Dict.update (patterns (self w)) new /\
    channels (self w') = channels (self w).
Proof.
  intros H.
  destruct (fst (new_entries args kw w)) as [new|e] eqn:N.
  - exists new. split; [reflexivity|].
    unfold psubscribe in H. rewrite (psubscribe_eq _ _ _ _ _ N) in H.
    destruct (execute_command_registry
                (PStr (lit "PSUBSCRIBE") :: Dict.keys new) w) as [Rc Rp].
    destruct (PubSub.execute_command _ w) as [[[]|e] w1]; [|discriminate].
    injection H as <-. cbn in *. now rewrite Rc, Rp.
  - exfalso. unfold psubscribe, PubSub.psubscribe, bind in H.
    unfold new_entries in N.
    destruct (PubSub.new_entries list_or_args args kw w) as [[n|e'] w1];
      cbn in N; congruence.
Qed.

(** X4.  A handler given to [subscribe] for a key is the one
    [handle_message] calls for a [message] on that key, and a handler given
    to [psubscribe] the one called for a [pmessage] of that pattern: the
    stored key and the key of the reply are looked up alike. *)
Theorem subscribed_handler_is_called
        (args : list pyval) (kw : kwargs) (w w' : world) (new : mapping)
        (k t d : pyval) (rest : list pyval) (h : handler) (ign : bool)
        (v : retval) :
  fst (new_entries args kw w) = Ok new ->
  Dict.get k new = Some (Some h) ->
  next_outcome w' = Returns v ->
  (subscribe args kw w = (Ok tt, w') ->
   nativestr t = Ok (lit "message") ->
   exists w'',
     handle (t :: k :: d :: rest) ign w' = (Ok None, w'') /\
     trace (env w'') =
     trace (env w')
     ++ [EvHandler h {| msg_type := lit "message"; msg_pattern := PNone;
                        msg_channel := k; msg_data := d |} (Returns v)])
  /\
  (psubscribe args kw w = (Ok tt, w') ->
   nativestr t = Ok (lit "pmessage") ->
   forall c,
   exists w'',
     handle (t :: k :: c :: d :: rest) ign w' = (Ok None, w'') /\
     trace (env w'') =
     trace (env w')
     ++ [EvHandler h {| msg_type := lit "pmessage"; msg_pattern := k;
                        msg_channel := c; msg_data := d |} (Returns v)]).
Proof.
  intros N Hk Hv.
  assert (Hin : In k (Dict.keys new)).
  { destruct (in_dec pyval_eq_dec k (Dict.keys new)) as [Hin|Hnin];
      [assumption|].
    rewrite (get_not_in _ _ Hnin) in Hk. discriminate. }
  pose proof (new_entries_wf _ _ _ _ N) as Hwf.
  split.
  - intros S Hty.
    destruct (subscribe_returned _ _ _ S) as (new' & N' & C & _).
    rewrite N in N'. injection N' as <-.
    assert (Hnp : lit "message" <> lit "pmessage") by (intro; literal_neq).
    pose proof (@handle_message_plain nativestr w' t k d rest ign _ Hty Hnp)
      as E.
    replace (PubSub.is_type (lit "message") PubSub.UNSUBSCRIBE_MESSAGE_TYPES)
      with false in E by reflexivity.
    replace (PubSub.is_type (lit "message") PubSub.PUBLISH_MESSAGE_TYPES)
      with true in E by reflexivity.
    cbv zeta in E. cbn [self channels] in E.
    assert (Hw : {| self := self w'; env := env w' |} = w')
      by (now destruct w').
    rewrite Hw in E.
    assert (G : PubSub.get_handler k (channels (self w')) = Some h).
    { unfold PubSub.get_handler.
      now rewrite C, (get_update_present _ _ Hwf Hin), Hk. }
    rewrite G in E.
    destruct (@call_handler_returns w' h
                {| msg_type := lit "message"; msg_pattern := PNone;
                   msg_channel := k; msg_data := d |} v Hv) as [E1 E2].
    rewrite E1 in E. eexists. split; [exact E|exact E2].
  - intros S Hty c.
    destruct (psubscribe_returned _ _ _ S) as (new' & N' & P & _).
    rewrite N in N'. injection N' as <-.
    pose proof (@handle_message_pmessage nativestr w' t k c d rest ign Hty)
      as E.
    cbv zeta in E.
    assert (G : PubSub.get_handler k (patterns (self w')) = Some h).
    { unfold PubSub.get_handler.
      now rewrite P, (get_update_present _ _ Hwf Hin), Hk. }
    rewrite G in E.
    destruct (@call_handler_returns w' h
                {| msg_type := lit "pmessage"; msg_pattern := k;
                   msg_channel := c; msg_data := d |} v Hv) as [E1 E2].
    rewrite E1 in E. eexists. split; [exact E|exact E2].
Qed.

(** X5.  A [subscribe] call with positional names only binds each of its
    keys to no handler, whatever handler the key had before, so that later
    messages on it are returned instead of dispatched; every key outside
    the call keeps its binding, and the pattern mapping is untouched. *)
Theorem subscribe_positional_resets_handler
        (args : list pyval) (w w' : world) :
  subscribe args [] w = (Ok tt, w') ->
  exists new,
    fst (new_entries args [] w) = Ok new /\
    (forall k, In k (Dict.keys new) ->
               Dict.get k (channels (self w')) = Some None /\
               PubSub.get_handler k (channels (self w')) = None) /\
    (forall k, ~ In k (Dict.keys new) ->
               Dict.get k (channels (self w')) =
               Dict.get k (channels (self w))) /\
    patterns (self w') = patterns (self w).
Proof.
  intros S. destruct (subscribe_returned _ _ _ S) as (new & N & C & P).
  exists new. split; [exact N|].
  pose proof (new_entries_wf _ _ _ _ N) as Hwf.
  assert (Hnone : forall k v, Dict.get k new = Some v -> v = None).
  { revert N. unfold new_entries, PubSub.new_entries, bind.
    match goal with
    | |- context [PubSub.encode_all ?a w] =>
        rewrite (surjective_pairing (PubSub.encode_all a w)),
          encode_all_pure;
        destruct (fst (PubSub.encode_all a w)) as [ks|e]
    end; [|discriminate].
    cbn. intros N. injection N as <-. intros k v Hg.
    apply get_in in Hg.
    assert (F : Forall (fun kv : pyval * option handler => snd kv = None)
                  (Dict.update [] (Dict.fromkeys ks))).
    { unfold Dict.update.
      apply (fold_set_all (fun v => v = None) fst snd).
      - intros x Hx.
        assert (G : Forall (fun kv : pyval * option handler =>
                              snd kv = None) (Dict.fromkeys ks)).
        { unfold Dict.fromkeys.
          apply (fold_set_all (fun v => v = None) (fun x => x)
                   (fun _ => @None handler)); [reflexivity|constructor]. }
        rewrite Forall_forall in G. now apply G.
      - constructor. }
    rewrite Forall_forall in F. exact (F _ Hg). }
  split; [|split; [|exact P]].
  - intros k Hin. rewrite C.
    rewrite (get_update_present _ _ Hwf Hin).
    destruct (get_in_keys _ _ Hin) as (v & Hv).
    pose proof (Hnone _ _ Hv) as ->.
    unfold PubSub.get_handler.
    rewrite (get_update_present _ _ Hwf Hin), Hv. split; reflexivity.
  - intros k Hnin. rewrite C. now apply get_update_absent.
Qed.

(** X6.  [unsubscribe] and [punsubscribe] send their command and nothing
    else: both mappings, and with them [subscribed], are as before the
    call, whether the command went through or not.  Only the
    acknowledgement, once handled, removes a key. *)
Theorem unsubscribe_leaves_registry (args : list pyval) (w : world) :
  let w1 := snd (PubSub.unsubscribe PubSub.execute_command list_or_args
                   args w) in
  let w2 := snd (PubSub.punsubscribe PubSub.execute_command list_or_args
                   args w) in
  (channels (self w1) = channels (self w) /\
   patterns (self w1) = patterns (self w) /\
   PubSub.subscribed (self w1) = PubSub.subscribed (self w))
  /\
  (channels (self w2) = channels (self w) /\
   patterns (self w2) = patterns (self w) /\
   PubSub.subscribed (self w2) = PubSub.subscribed (self w)).
Proof.
  intros w1 w2. subst w1 w2.
  unfold PubSub.unsubscribe, PubSub.punsubscribe, PubSub.subscribed.
  split;
    match goal with
    | |- context [PubSub.execute_command ?cmd w] =>
        destruct (execute_command_registry cmd w) as [-> ->]
    end; repeat split; reflexivity.
Qed.

End RegistryUpdates.

(** ** What dispatch does to the session *)

Lemma keys_discard (k k' : pyval) (d : mapping) :
  In k' (Dict.keys (PubSub.discard k d)) -> In k' (Dict.keys d).
Proof.
  unfold PubSub.discard.
  destruct (Dict.del k d) as [d'|] eqn:E; [|tauto].
  revert d' E. induction d as [|[k0 v0] d IH]; cbn; intros d' E.
  - discriminate.
  - destruct (pyval_eq_dec k k0).
    + injection E as <-. tauto.
    + destruct (Dict.del k d) as [d''|]; [|discriminate].
      injection E as <-. cbn. intros [H|H]; [now left|].
      right. now apply (IH d'').
Qed.

Section DispatchEffects.
Variable nativestr : pyval -> result text.

Let handle := PubSub.handle_message nativestr.

(** Whatever the reply and however [handle_message] ends, the session it
    leaves is the one it found, or that one with a key discarded from one
    mapping. *)
Lemma handle_message_session (response : list pyval) (ign : bool)
      (w : world) :
  let s := self w in
  let s' := self (snd (handle response ign w)) in
  s' = s \/
  (exists k, s' = set_channels (PubSub.discard k (channels s)) s) \/
  (exists k, s' = set_patterns (PubSub.discard k (patterns s)) s).
Proof.
  unfold handle, PubSub.handle_message. run.
  destruct response as [|t rest]; [now left|].
  destruct (nativestr t) as [ty|e]; [|now left]. run.
  destruct (text_eq_dec ty (lit "pmessage")) as [->|Hnp].
  - destruct rest as [|p [|c [|d rest]]]; run; try (now left).
    replace (PubSub.is_type (lit "pmessage") PubSub.UNSUBSCRIBE_MESSAGE_TYPES)
      with false by reflexivity.
    replace (PubSub.is_type (lit "pmessage") PubSub.PUBLISH_MESSAGE_TYPES)
      with true by reflexivity.
    run. cbn [self msg_pattern].
    destruct (text_eq_dec (lit "pmessage") (lit "pmessage")) as [_|E];
      [|contradiction].
    destruct (PubSub.get_handler p (patterns (self w))); [|now left].
    unfold call_handler, await. destruct (next_outcome w); now left.
  - destruct rest as [|c [|d rest]]; run; try (now left).
    destruct (PubSub.is_type ty PubSub.UNSUBSCRIBE_MESSAGE_TYPES);
      [destruct (text_eq_dec ty (lit "punsubscribe"))|]; run;
      cbn [self env msg_channel];
      destruct (PubSub.is_type ty PubSub.PUBLISH_MESSAGE_TYPES);
      try (destruct (text_eq_dec ty (lit "pmessage")); [contradiction|]);
      repeat match goal with
             | |- context [PubSub.get_handler ?k ?m] =>
                 destruct (PubSub.get_handler k m)
             | |- context [call_handler ?h ?m ?x] =>
                 unfold call_handler, await; destruct (next_outcome x)
             | |- context [ign || ?b] => destruct (ign || b)
             end;
      cbn [snd self];
      first [ now left
            | right; left; eexists; reflexivity
            | right; right; eexists; reflexivity ].
Qed.

(** X7.  [handle_message] never adds a subscription: every key of either
    mapping afterwards was there before, with the connection, the flags and
    the encoding options as they were.  This holds of every reply, also of
    one that makes it raise. *)
Theorem handle_message_only_removes (response : list pyval) (ign : bool)
        (w : world) :
  let s := self w in
  let s' := self (snd (handle response ign w)) in
  (forall k, In k (Dict.keys (channels s')) -> In k (Dict.keys (channels s)))
  /\
  (forall k, In k (Dict.keys (patterns s')) -> In k (Dict.keys (patterns s)))
  /\ connection_ s' = connection_ s
  /\ ignore_subscribe_messages s' = ignore_subscribe_messages s
  /\ decode_responses s' = decode_responses s
  /\ encoding s' = encoding s
  /\ last_pong s' = last_pong s.
Proof.
  intros s s'.
  destruct (handle_message_session response ign w) as [E|[[k E]|[k E]]];
    fold s s' in E; rewrite E; cbn; repeat split; auto;
    intros k'; apply keys_discard.
Qed.

(** X8.  A reply too short for its type (fewer than three elements, or
    four for a [pmessage]; the empty reply included) makes [handle_message]
    raise an [IndexError] before it touches anything: in particular a short
    [unsubscribe] acknowledgement removes no key. *)
Theorem handle_message_short_reply (w : world) (t : pyval)
        (rest : list pyval) (ign : bool) (ty : text) :
  nativestr t = Ok ty ->
  handle [] ign w = (Err IndexError, w) /\
  (ty <> lit "pmessage" -> List.length rest < 2 ->
   handle (t :: rest) ign w = (Err IndexError, w)) /\
  (ty = lit "pmessage" -> List.length rest < 3 ->
   handle (t :: rest) ign w = (Err IndexError, w)).
Proof.
  intros Hty. unfold handle, PubSub.handle_message. run.
  split; [reflexivity|]. rewrite Hty. run. split.
  - intros Hnp Hlen.
    destruct (text_eq_dec ty (lit "pmessage")); [contradiction|].
    destruct rest as [|c [|d rest]]; cbn in Hlen; try lia; reflexivity.
  - intros -> Hlen.
    destruct (text_eq_dec (lit "pmessage") (lit "pmessage")) as [_|E];
      [|contradiction].
    destruct rest as [|p [|c [|d rest]]]; cbn in Hlen; try lia; reflexivity.
Qed.

End DispatchEffects.

(** ** The pull API *)

Lemma execute_command_connected (args : list pyval) (w : world) :
  connection_ (self (snd (PubSub.execute_command args w))) <> None.
Proof.
  rewrite execute_command_eq.
  destruct (@_execute_wire_only (held_connection w)
              (send_command (held_connection w) args)
              (wire_only_send_command _ _) (acquired w)) as (K & _).
  destruct (PubSub._execute _ _ (acquired w)) as [[v|e] w']; cbn in *;
    rewrite K; unfold acquired;
    destruct (connection_ (self w)) eqn:E; cbn; congruence.
Qed.

Lemma parse_response_self (block : bool) (timeout : Z) (w : world) :
  self (snd (PubSub.parse_response block timeout w)) = self w.
Proof.
  unfold PubSub.parse_response. run.
  destruct (connection_ (self w)) as [c|]; [|reflexivity].
  assert (W : wire_only (PubSub._execute c (read_response c)))
    by (apply _execute_wire_only, wire_only_read_response).
  destruct (negb block && (0 <? timeout)%Z).
  - destruct (W w) as (S & _).
    destruct (PubSub._execute c (read_response c) w) as [[v|e] w1];
      exact S.
  - destruct (W w) as (S & _). exact S.
Qed.

Section Keeping.
Variable P : session -> Prop.

Lemma keeps_ret {A} (a : A) : keeps P (ret a).
Proof. intros w H. exact H. Qed.

Lemma keeps_raise {A} (e : exn) : keeps P (@raise A e).
Proof. intros w H. exact H. Qed.

Lemma keeps_lift {A} (r : result A) : keeps P (lift r).
Proof. destruct r; [apply keeps_ret|apply keeps_raise]. Qed.

Lemma keeps_bind {A B} (m : M A) (k : A -> M B) :
  keeps P m -> (forall a, keeps P (k a)) -> keeps P (bind m k).
Proof.
  intros Hm Hk w H. unfold bind. specialize (Hm w H).
  destruct (m w) as [[a|e] w']; cbn in *; [|assumption].
  now apply Hk.
Qed.

Lemma keeps_get_self : keeps P get_self.
Proof. intros w H. exact H. Qed.

End Keeping.

Section PullAPI.
Variable nativestr : pyval -> result text.
Variable list_or_args : pyval -> list pyval -> list pyval.

Let subscribe := PubSub.subscribe PubSub.execute_command list_or_args.
Let psubscribe := PubSub.psubscribe PubSub.execute_command list_or_args.
Let unsubscribe := PubSub.unsubscribe PubSub.execute_command list_or_args.
Let punsubscribe := PubSub.punsubscribe PubSub.execute_command list_or_args.
Let on_connect := PubSub.on_connect PubSub.execute_command list_or_args.
Let handle := PubSub.handle_message nativestr.
Let listen := PubSub.listen handle.
Let get_message := PubSub.get_message handle.

Lemma keeps_connected_subscribe (args : list pyval) (kw : kwargs) :
  keeps connected_if_subscribed (subscribe args kw) /\
  keeps connected_if_subscribed (psubscribe args kw).
Proof.
  split; intros w H;
    destruct (fst (PubSub.new_entries list_or_args args kw w))
      as [new|e] eqn:N.
  - unfold subscribe. rewrite (subscribe_eq _ _ _ _ _ N).
    pose proof (execute_command_connected
                  (PStr (lit "SUBSCRIBE") :: Dict.keys new) w) as Hc.
    destruct (PubSub.execute_command _ w) as [[[]|e] w1]; cbn in *;
      intros _; exact Hc.
  - unfold subscribe, PubSub.subscribe, bind.
    pose proof (new_entries_pure list_or_args args kw w) as Pu.
    destruct (PubSub.new_entries list_or_args args kw w) as [[n|e'] w1];
      cbn in *; [discriminate|]. now subst.
  - unfold psubscribe. rewrite (psubscribe_eq _ _ _ _ _ N).
    pose proof (execute_command_connected
                  (PStr (lit "PSUBSCRIBE") :: Dict.keys new) w) as Hc.
    destruct (PubSub.execute_command _ w) as [[[]|e] w1]; cbn in *;
      intros _; exact Hc.
  - unfold psubscribe, PubSub.psubscribe, bind.
    pose proof (new_entries_pure list_or_args args kw w) as Pu.
    destruct (PubSub.new_entries list_or_args args kw w) as [[n|e'] w1];
      cbn in *; [discriminate|]. now subst.
Qed.

Lemma keeps_connected_handle (response : list pyval) (ign : bool) :
  keeps connected_if_subscribed (handle response ign).
Proof.
  intros w H. unfold connected_if_subscribed in *.
  destruct (@handle_message_session nativestr response ign w)
    as [E|[[k E]|[k E]]]; unfold handle; rewrite E; cbn; [exact H| |];
    intros S; apply H; unfold PubSub.subscribed in *; cbn in S.
  - destruct (channels (self w)) as [|kv d]; [exact S|].
    cbn. reflexivity.
  - destruct (patterns (self w)) as [|kv d]; [exact S|].
    cbn. now rewrite orb_true_r.
Qed.

(** X9.  A session that tracks a subscription holds a connection, the one
    thing [parse_response] asks for: every operation of the session keeps
    this, however it ends. *)
Theorem connected_if_subscribed_is_kept
        (args : list pyval) (kw : kwargs) (response : list pyval)
        (ign : bool) (timeout : Z) :
  keeps connected_if_subscribed (subscribe args kw) /\
  keeps connected_if_subscribed (psubscribe args kw) /\
  keeps connected_if_subscribed (unsubscribe args) /\
  keeps connected_if_subscribed (punsubscribe args) /\
  keeps connected_if_subscribed on_connect /\
  keeps connected_if_subscribed (handle response ign) /\
  keeps connected_if_subscribed listen /\
  keeps connected_if_subscribed (get_message ign timeout) /\
  keeps connected_if_subscribed PubSub.reset.
Proof.
  assert (Hparse : forall block t,
            keeps connected_if_subscribed (PubSub.parse_response block t)).
  { intros block t w H. now rewrite parse_response_self. }
  assert (Hreply : forall r, keeps connected_if_subscribed
                               (PubSub.as_reply r)).
  { intros []; first [apply keeps_ret|apply keeps_raise]. }
  split; [apply keeps_connected_subscribe|].
  split; [apply keeps_connected_subscribe|].
  split; [intros w _ _; apply execute_command_connected|].
  split; [intros w _ _; apply execute_command_connected|].
  split.
  { unfold on_connect, PubSub.on_connect.
    apply keeps_bind; [apply keeps_get_self|]. intros s.
    apply keeps_bind.
    - destruct (negb (Dict.is_empty (channels s))); [|apply keeps_ret].
      apply keeps_bind; [apply keeps_lift|]. intros d.
      apply keeps_bind; [apply keeps_lift|]. intros k.
      apply keeps_connected_subscribe.
    - intros _. apply keeps_bind; [apply keeps_get_self|]. intros s'.
      destruct (negb (Dict.is_empty (patterns s'))); [|apply keeps_ret].
      apply keeps_bind; [apply keeps_lift|]. intros d.
      apply keeps_bind; [apply keeps_lift|]. intros k.
      apply keeps_connected_subscribe. }
  split; [apply keeps_connected_handle|].
  split.
  { unfold listen, PubSub.listen.
    apply keeps_bind; [apply keeps_get_self|]. intros s.
    destruct (PubSub.subscribed s); [|apply keeps_ret].
    apply keeps_bind; [apply Hparse|]. intros r.
    apply keeps_bind; [apply Hreply|]. intros l.
    apply keeps_connected_handle. }
  split.
  { unfold get_message, PubSub.get_message.
    apply keeps_bind; [apply Hparse|]. intros r.
    destruct (truthy r); [|apply keeps_ret].
    apply keeps_bind; [apply Hreply|]. intros l.
    apply keeps_connected_handle. }
  intros w _. unfold PubSub.reset. run.
  destruct (connection_ (self w)); cbn; intros S; discriminate S.
Qed.

(** X10.  When the read fails, [get_message] with a positive timeout
    returns [None] and leaves the failure behind, while with the default
    timeout of zero the failure reaches the caller; the message handler is
    not run in either case.  Without a connection it raises the usage
    error whatever the timeout. *)
Theorem get_message_read_failure
        (h : list pyval -> bool -> M (option message))
        (c : connection) (w w1 : world) (e : exn) (ign : bool)
        (timeout : Z) :
  (connection_ (self w) = Some c ->
   PubSub._execute c (read_response c) w = (Err e, w1) ->
   PubSub.get_message h ign timeout w =
   if (0 <? timeout)%Z then (Ok None, w1) else (Err e, w1))
  /\
  (connection_ (self w) = None ->
   PubSub.get_message h ign timeout w = (Err (OtherError "RuntimeError"), w)).
Proof.
  split.
  - intros Hc Hx. unfold PubSub.get_message, PubSub.parse_response. run.
    rewrite Hc. cbn [negb andb]. destruct (0 <? timeout)%Z; rewrite Hx;
      reflexivity.
  - intros Hc. unfold PubSub.get_message, PubSub.parse_response. run.
    rewrite Hc. reflexivity.
Qed.

(** X11.  A read that is cancelled gives [None] to its caller:
    [get_message] tests the response and returns [None], but [listen] hands
    it to [handle_message], which subscripts it: the cancellation comes out
    of [listen] as a [TypeError]. *)
Theorem listen_after_cancelled_read
        (h : list pyval -> bool -> M (option message))
        (c : connection) (w : world) (v : retval) (ign : bool)
        (timeout : Z) :
  connection_ (self w) = Some c ->
  PubSub.subscribed (self w) = true ->
  oracle (env w) (tick (env w)) = Raises CancelledError ->
  oracle (env w) (S (tick (env w))) = Returns v ->
  let w1 := answered (EvCanRead (conn_id c))
              (answered (EvReadResponse (conn_id c)) w) in
  let w' := if truthy v then record (EvDisconnect (conn_id c)) w1 else w1 in
  PubSub.listen h w = (Err TypeError, w') /\
  PubSub.get_message h ign timeout w = (Ok None, w').
Proof.
  intros Hc Hs H0 H1 w1 w'.
  assert (Hr : read_response c w =
               (Err CancelledError, answered (EvReadResponse (conn_id c)) w)).
  { unfold read_response, await, next_outcome. now rewrite H0. }
  assert (Hn : next_outcome (answered (EvReadResponse (conn_id c)) w)
               = Returns v).
  { unfold next_outcome, answered. cbn. exact H1. }
  pose proof (@_execute_cancelled c (read_response c) w _ v Hr Hn) as E.
  fold w1 in E. fold w' in E.
  split.
  - unfold PubSub.listen, PubSub.parse_response. run.
    rewrite Hs, Hc. cbn [negb andb]. rewrite E. reflexivity.
  - unfold PubSub.get_message, PubSub.parse_response. run.
    rewrite Hc. cbn [negb andb].
    destruct (0 <? timeout)%Z; rewrite E; reflexivity.
Qed.

(** X12.  [reset] (and [close]) disconnects the held connection, clears
    its connect callbacks and hands it back to the pool, in that order, and
    leaves a session with no connection and no subscription, its options
    untouched; on a session without a connection it records nothing, so a
    second [reset] is harmless.  The next command takes a connection from
    the pool and registers the reconnect hook again. *)
Theorem reset_tears_down (w : world) (args : list pyval) :
  exists w',
    PubSub.reset w = (Ok (connection_ (self w)), w') /\
    PubSub.close w = PubSub.reset w /\
    connection_ (self w') = None /\
    channels (self w') = [] /\
    patterns (self w') = [] /\
    PubSub.subscribed (self w') = false /\
    ignore_subscribe_messages (self w') = ignore_subscribe_messages (self w) /\
    decode_responses (self w') = decode_responses (self w) /\
    encoding (self w') = encoding (self w) /\
    trace (env w') =
    trace (env w)
    ++ match connection_ (self w) with
       | Some c => [EvDisconnect (conn_id c);
                    EvClearConnectCallbacks (conn_id c)]
       | None => []
       end /\
    PubSub.reset w' = (Ok None, w') /\
    exists tr,
      trace (env (snd (PubSub.execute_command args w'))) =
      trace (env w')
      ++ [EvGetConnection None None (next_conn (env w));
          EvRegisterConnectCallback (next_conn (env w))]
      ++ tr.
Proof.
  assert (X : forall w',
    connection_ (self w') = None ->
    next_conn (env w') = next_conn (env w) ->
    exists tr,
      trace (env (snd (PubSub.execute_command args w'))) =
      trace (env w')
      ++ [EvGetConnection None None (next_conn (env w));
          EvRegisterConnectCallback (next_conn (env w))]
      ++ tr).
  { intros w' Hc Hn. rewrite execute_command_eq.
    destruct (@_execute_wire_only (held_connection w')
                (send_command (held_connection w') args)
                (wire_only_send_command _ _) (acquired w'))
      as (_ & _ & _ & _ & tr & T & _).
    exists tr.
    destruct (PubSub._execute _ _ (acquired w')) as [[v|e'] w2];
      cbn [snd] in *; rewrite T; unfold acquired, held_connection;
      rewrite Hc; cbn; rewrite Hn, <- !app_assoc; reflexivity. }
  destruct (PubSub.reset w) as [r w'] eqn:R.
  revert R. unfold PubSub.close, PubSub.reset, disconnect,
    clear_connect_callbacks.
  run. unfold record. destruct w as [s e]. cbn [self env] in *.
  destruct (connection_ s) as [c|] eqn:Ec; cbn [self env];
    intros R; injection R as <- <-;
    (eexists; split; [reflexivity|]);
    (split; [reflexivity|]); cbn [self env connection_ channels patterns
      set_channels set_patterns set_connection ignore_subscribe_messages
      decode_responses encoding trace log PubSub.subscribed Dict.is_empty
      negb orb];
    rewrite ?Ec; cbv beta iota;
    repeat (split; [first [reflexivity
                          | now rewrite <- app_assoc
                          | now rewrite app_nil_r]|]);
    apply X; first [reflexivity|exact Ec].
Qed.

End PullAPI.

(** ** The worker thread *)

Lemma keys_nil {V} (d : Dict.t V) : Dict.keys d = [] -> d = [].
Proof. destruct d; [reflexivity|discriminate]. Qed.

Lemma keys_discard_perm (k : pyval) (d : mapping) :
  In k (Dict.keys d) ->
  Permutation (Dict.keys d) (k :: Dict.keys (PubSub.discard k d)).
Proof.
  unfold PubSub.discard.
  induction d as [|[k0 v0] d IH]; cbn; [tauto|].
  intros Hin. destruct (pyval_eq_dec k k0) as [->|Hne].
  - reflexivity.
  - destruct Hin as [E|Hin]; [congruence|]. specialize (IH Hin).
    destruct (Dict.del k d) as [d'|] eqn:E.
    + cbn. rewrite IH. apply perm_swap.
    + apply get_del_none in E.
      destruct (get_in_keys _ _ Hin) as (v & Hv). congruence.
Qed.

Lemma first_unhandled_none (d : mapping) :
  PubSub.first_unhandled d = None <->
  Forall (fun kv => snd kv <> None) d.
Proof.
  induction d as [|[k [h|]] d IH]; cbn.
  - split; [constructor|reflexivity].
  - rewrite IH. split.
    + intros H. constructor; [discriminate|assumption].
    + intros H. now inversion H.
  - split; [discriminate|]. intros H. inversion H. cbn in *. congruence.
Qed.

(** X14.  [run_in_thread] starts the worker exactly when every tracked
    channel and every tracked pattern has a handler; a single entry without
    one makes it raise a [PubSubError] with nothing started. *)
Theorem run_in_thread_checks_handlers (daemon : bool) (w : world) :
  let handled (d : mapping) := Forall (fun kv => snd kv <> None) d in
  (handled (channels (self w)) /\ handled (patterns (self w)) ->
   PubSub.run_in_thread daemon w =
   (Ok tt, record (EvEnsureFuture "PubSubWorkerThread._run") w))
  /\
  (~ (handled (channels (self w)) /\ handled (patterns (self w))) ->
   PubSub.run_in_thread daemon w = (Err (OtherError "PubSubError"), w)).
Proof.
  intros handled. unfold PubSub.run_in_thread. run.
  pose proof (first_unhandled_none (channels (self w))) as Hc.
  pose proof (first_unhandled_none (patterns (self w))) as Hp.
  destruct (PubSub.first_unhandled (channels (self w))) as [k|];
    [|destruct (PubSub.first_unhandled (patterns (self w))) as [k|]].
  - split; [|reflexivity]. intros [H _]. apply Hc in H. discriminate.
  - split; [|reflexivity]. intros [_ H]. apply Hp in H. discriminate.
  - split; [reflexivity|]. intros H. exfalso. apply H.
    split; [now apply Hc|now apply Hp].
Qed.

Section Worker.
Variable nativestr : pyval -> result text.
Hypothesis nativestr_str : forall s, nativestr (PStr s) = Ok s.

Let _run := PubSubWorkerThread._run nativestr.

(** One round of the loop on an acknowledgement. *)
Lemma _run_acknowledgement (fuel : nat) (w : world) (c : connection)
      (a : ack) :
  connection_ (self w) = Some c ->
  PubSub.subscribed (self w) = true ->
  next_outcome w = Returns (RReply (reply_of a)) ->
  _run (S fuel) w =
  _run fuel
    {| self :=
         match a with
         | AckChannel k _ =>
             set_channels (PubSub.discard k (channels (self w))) (self w)
         | AckPattern k _ =>
             set_patterns (PubSub.discard k (patterns (self w))) (self w)
         end;
       env := env (answered (EvReadResponse (conn_id c)) w) |}.
Proof.
  intros Hc Hs Ho. unfold _run. cbn [PubSubWorkerThread._run].
  unfold PubSub.get_message, PubSub.parse_response, PubSub.as_reply. run.
  rewrite Hs. run. rewrite Hc. cbn [negb andb Z.ltb Z.compare].
  assert (R : PubSub._execute c (read_response c) w =
              (Ok (RReply (reply_of a)),
               answered (EvReadResponse (conn_id c)) w)).
  { apply _execute_ok. unfold read_response, await. now rewrite Ho. }
  rewrite R.
  destruct a as [k n|k n]; cbn [reply_of truthy].
  - assert (Hnp : lit "unsubscribe" <> lit "pmessage")
      by (intro; literal_neq).
    rewrite (@handle_message_plain nativestr _ _ k n [] true _
               (nativestr_str _) Hnp).
    reflexivity.
  - assert (Hnp : lit "punsubscribe" <> lit "pmessage")
      by (intro; literal_neq).
    rewrite (@handle_message_plain nativestr _ _ k n [] true _
               (nativestr_str _) Hnp).
    reflexivity.
Qed.

(** X13.  The cooperative stop of the worker.  When the replies that
    arrive are the acknowledgements of all tracked channels and patterns,
    in any order, the loop of [_run] reads exactly these replies, each
    removing its key, then finds the session unsubscribed and closes it:
    the connection is disconnected, its callbacks cleared, and it is handed
    back to the pool. *)
Theorem worker_stops_when_acknowledged (acks : list ack) :
  forall (w : world) (c : connection) (more : nat),
    connection_ (self w) = Some c ->
    Permutation (channel_acks acks) (Dict.keys (channels (self w))) ->
    Permutation (pattern_acks acks) (Dict.keys (patterns (self w))) ->
    (forall i, i < List.length acks ->
               oracle (env w) (tick (env w) + i) =
               Returns (RReply (reply_of (nth i acks
                                            (AckChannel PNone PNone))))) ->
    exists w',
      _run (S (List.length acks) + more) w = (Ok (Ended (Some c)), w') /\
      connection_ (self w') = None /\
      channels (self w') = [] /\
      patterns (self w') = [] /\
      trace (env w') =
      trace (env w)
      ++ map (fun a => EvReadResponse (conn_id c)
                         (Returns (RReply (reply_of a)))) acks
      ++ [EvDisconnect (conn_id c); EvClearConnectCallbacks (conn_id c)].
Proof.
  induction acks as [|a acks IH]; intros w c more Hc Pc Pp Ho.
  - cbn in Pc, Pp. apply Permutation_nil in Pc, Pp.
    apply keys_nil in Pc, Pp.
    unfold _run. cbn [List.length Nat.add PubSubWorkerThread._run].
    unfold PubSub.close, PubSub.reset, disconnect, clear_connect_callbacks,
      PubSub.subscribed.
    run. rewrite Pc, Pp. cbn [Dict.is_empty negb orb]. run. rewrite Hc.
    eexists. split; [reflexivity|]. cbn. repeat split.
    now rewrite <- app_assoc.
  - assert (Hs : PubSub.subscribed (self w) = true).
    { unfold PubSub.subscribed. destruct a as [k n|k n]; cbn in Pc, Pp.
      - destruct (channels (self w)); [|reflexivity].
        apply Permutation_sym, Permutation_nil in Pc. discriminate.
      - destruct (patterns (self w)); [|now rewrite orb_true_r].
        apply Permutation_sym, Permutation_nil in Pp. discriminate. }
    assert (Hn : next_outcome w = Returns (RReply (reply_of a))).
    { unfold next_outcome. specialize (Ho 0 (Nat.lt_0_succ _)).
      now rewrite Nat.add_0_r in Ho. }
    cbn [List.length Nat.add].
    rewrite (@_run_acknowledgement _ w c a Hc Hs Hn).
    match goal with
    | |- context [_run _ ?x] => set (w1 := x)
    end.
    destruct (IH w1 c more) as (w' & R & Rc & Rch & Rp & T).
    + unfold w1. destruct a; exact Hc.
    + unfold w1. destruct a as [k n|k n]; cbn [self channels set_channels
        set_patterns channel_acks flat_map app] in *.
      * assert (Hin : In k (Dict.keys (channels (self w)))).
        { apply (Permutation_in _ Pc). now left. }
        apply keys_discard_perm in Hin.
        apply (Permutation_cons_inv (a := k)).
        now rewrite Pc.
      * exact Pc.
    + unfold w1. destruct a as [k n|k n]; cbn [self patterns set_channels
        set_patterns pattern_acks flat_map app] in *.
      * exact Pp.
      * assert (Hin : In k (Dict.keys (patterns (self w)))).
        { apply (Permutation_in _ Pp). now left. }
        apply keys_discard_perm in Hin.
        apply (Permutation_cons_inv (a := k)).
        now rewrite Pp.
    + intros i Hi. unfold w1. cbn [env answered oracle tick advance_tick log].
      specialize (Ho (S i) (proj1 (Nat.succ_lt_mono _ _) Hi)).
      cbn [nth] in Ho. rewrite <- Ho. f_equal. lia.
    + exists w'. split; [exact R|]. split; [exact Rc|].
      split; [exact Rch|]. split; [exact Rp|].
      rewrite T. unfold w1. cbn [env]. rewrite trace_answered, Hn.
      cbn [map]. now rewrite <- app_assoc.
Qed.

End Worker.

(** ** The cluster variant on its own *)

(** X15.  [ping_handler], left to itself, ends only when the session holds
    no connection.  While one is held every round sends one [ping] on it
    and sleeps 2 time units; a ping that raises is printed and the loop goes
    on, so that no number of rounds ends the loop or changes the session. *)
Theorem ping_handler_keeps_pinging (n : nat) :
  forall (w : world),
    (connection_ (self w) = None ->
     ClusterPubSub.ping_handler (S n) w = (Ok (Ended tt), w))
    /\
    (forall c, connection_ (self w) = Some c ->
     exists w',
       ClusterPubSub.ping_handler n w = (Ok OutOfFuel, w') /\
       self w' = self w /\
       oracle (env w') = oracle (env w) /\
       tick (env w') = tick (env w) + n /\
       now (env w') = now (env w) + 2 * n /\
       trace (env w') =
       trace (env w)
       ++ flat_map (fun t => ping_round (conn_id c) (oracle (env w) t))
                   (seq (tick (env w)) n)).
Proof.
  induction n as [|n IH]; intros w; split.
  - intros Hc. cbn [ClusterPubSub.ping_handler]. run. now rewrite Hc.
  - intros c Hc. exists w. cbn. rewrite app_nil_r.
    repeat split; lia.
  - intros Hc. cbn [ClusterPubSub.ping_handler]. run. now rewrite Hc.
  - intros c Hc. cbn [ClusterPubSub.ping_handler]. run. rewrite Hc.
    unfold send_command, await, print, sleep. run.
    destruct (next_outcome w) as [v|e] eqn:Eo; cbv beta iota;
      match goal with
      | |- context [ClusterPubSub.ping_handler n ?x] => set (w1 := x)
      end;
      (destruct (IH w1) as [_ H];
       destruct (H c Hc) as (w' & R & Rs & Ro & Rt & Rn & Rtr);
       exists w'; split; [exact R|];
       rewrite Rs, Ro, Rt, Rn, Rtr; unfold w1, answered, record;
       cbn [self env oracle tick now trace log advance_tick advance_clock
            seq flat_map];
       pose proof Eo as Eo'; unfold next_outcome in Eo';
       rewrite ?Eo, ?Eo'; unfold ping_round;
       cbn [app]; rewrite <- !app_assoc; cbn [app];
       repeat split; try lia; reflexivity).
Qed.

Lemma cluster_prelude_tick (args : list pyval) (w : world) :
  tick (env (snd (cluster_prelude args w))) = tick (env w).
Proof.
  unfold cluster_prelude, pool_initialize, get_connection,
    register_connect_callback. run. unfold record.
  destruct w as [s e]. cbn [self env].
  destruct (connection_ s); [reflexivity|].
  destruct args as [|a0 [|ch args']]; try reflexivity.
  cbn [self env set_connection set_last_pong reconnect_closed_coro].
  destruct (reconnect_closed_coro s); reflexivity.
Qed.

(** X16.  A command with no argument after its name (a bare
    [UNSUBSCRIBE], as [unsubscribe()] sends) has no channel to pin the
    connection by.  On a session without a connection
    [ClusterPubSub.execute_command] raises an [IndexError] straight away:
    no connection is taken and nothing is retried.  On a session with a
    connection a failed send is followed by one back-off and then by that
    same [IndexError], which replaces the failure of the send. *)
Theorem cluster_command_without_channel
        (args : list pyval) (tries : nat) (w : world) :
  nth_error args 1 = None ->
  (connection_ (self w) = None ->
   ClusterPubSub.execute_command args tries w =
   (Err IndexError, record EvPoolInitialize w))
  /\
  (forall c e w1,
      connection_ (self w) = Some c ->
      tries <= 25 ->
      PubSub._execute c (send_command c args) (record EvPoolInitialize w)
      = (Err e, w1) ->
      exists w',
        ClusterPubSub.execute_command args tries w = (Err IndexError, w') /\
        connection_ (self w') = None /\
        trace (env w') =
        trace (env w1)
        ++ [EvIncrementReinitializeCounter; EvSleep (tries + 2);
            EvPrint "Redis pubsub _execute exception"; EvPoolInitialize]).
Proof.
  intros Hargs.
  assert (P0 : forall x, connection_ (self x) = None ->
                cluster_prelude args x = (Err IndexError,
                                          record EvPoolInitialize x)).
  { intros x Hx. unfold cluster_prelude, pool_initialize. run.
    cbn [self record]. rewrite Hx.
    destruct args as [|a0 [|ch args']]; try discriminate Hargs;
      reflexivity. }
  split.
  - intros Hc. unfold ClusterPubSub.execute_command.
    rewrite execute_command_rec_step, (P0 w Hc). reflexivity.
  - intros c e w1 Hc Ht Hx. unfold ClusterPubSub.execute_command.
    assert (P1 : cluster_prelude args w = (Ok tt, record EvPoolInitialize w)).
    { unfold cluster_prelude, pool_initialize. run. cbn [self record].
      now rewrite Hc. }
    rewrite execute_command_rec_step, P1. cbn [self record]. rewrite Hc, Hx.
    assert (Hlt : (25 <? tries) = false) by (apply Nat.ltb_ge; lia).
    rewrite Hlt.
    destruct (26 - tries) as [|m] eqn:Em; [lia|].
    destruct (@cluster_backoff_facts (tries + 1) w1) as (Bc & _).
    cbv zeta in Bc.
    rewrite execute_command_rec_step, (P0 _ Bc).
    eexists. split; [reflexivity|]. split.
    + unfold cluster_backoff, increment_reinitialize_counter, sleep, print.
      run. reflexivity.
    + unfold cluster_backoff, increment_reinitialize_counter, sleep, print.
      run. unfold record. cbn -[Nat.add].
      replace (tries + 1 + 1) with (tries + 2) by lia.
      rewrite <- ?app_assoc. reflexivity.
Qed.

(** X17.  When the first send returns, [ClusterPubSub.execute_command]
    returns after that one attempt, whatever [tries] it was given: there is
    no back-off, the reinitialization counter is not touched, and the
    returned send is the last event. *)
Theorem cluster_command_sent_at_once
        (args : list pyval) (channel : pyval) (tries : nat) (w : world)
        (v : retval) :
  nth_error args 1 = Some channel ->
  oracle (env w) (tick (env w)) = Returns v ->
  exists w' c tr,
    ClusterPubSub.execute_command args tries w = (Ok tt, w') /\
    connection_ (self w') = Some c /\
    reinitialize_counter (env w') = reinitialize_counter (env w) /\
    sleeps (trace (env w')) = sleeps (trace (env w)) /\
    attempts (trace (env w')) = attempts (trace (env w)) + 1 /\
    trace (env w') = tr ++ [EvSendCommand (conn_id c) args (Returns v)].
Proof.
  intros Hch Ho.
  destruct (@cluster_prelude_facts args channel w Hch)
    as (w0 & c & P & Pc & Po & Pr & Pa & Ps & _).
  pose proof (cluster_prelude_tick args w) as Pt. rewrite P in Pt.
  cbn [snd] in Pt.
  assert (Hn : next_outcome w0 = Returns v).
  { unfold next_outcome. now rewrite Po, Pt. }
  assert (X : PubSub._execute c (send_command c args) w0 =
              (Ok v, answered (EvSendCommand (conn_id c) args) w0)).
  { apply _execute_ok. unfold send_command, await. now rewrite Hn. }
  exists (answered (EvSendCommand (conn_id c) args) w0), c, (trace (env w0)).
  unfold ClusterPubSub.execute_command.
  rewrite execute_command_rec_step, P, Pc, X.
  split; [reflexivity|]. split; [exact Pc|].
  rewrite trace_answered, Hn, attempts_app, sleeps_app. cbn.
  rewrite app_nil_r. repeat split; try assumption. lia.
Qed.

(** ** Names that can be replayed *)


Section TextNames.
Variable list_or_args : pyval -> list pyval -> list pyval.

Let names (args : list pyval) : list pyval :=
  match args with
  | [] => []
  | a :: rest => list_or_args a rest
  end.

Let subscribe := PubSub.subscribe PubSub.execute_command list_or_args.
Let on_connect := PubSub.on_connect PubSub.execute_command list_or_args.




End TextNames.

(** ** Pulling messages *)

Section PullDelivery.
Variable nativestr : pyval -> result text.

Let handle := PubSub.handle_message nativestr.

(** X20.  A reply that the connection returns is read once and handed to
    [handle_message]: by [listen] on a subscribed session (never ignoring
    acknowledgements), by [get_message] unless the reply is empty, which it
    drops.  A [message] for a channel without handler is thus returned to the
    caller of [get_message], with the session as it was.  On a session with
    no subscription [listen] returns nothing and reads nothing. *)
Theorem pulled_reply_is_dispatched
        (c : connection) (w : world) (r : list pyval) (ign : bool)
        (timeout : Z) :
  connection_ (self w) = Some c ->
  oracle (env w) (tick (env w)) = Returns (RReply r) ->
  let w1 := answered (EvReadResponse (conn_id c)) w in
  (PubSub.subscribed (self w) = true ->
   PubSub.listen handle w = handle r false w1)
  /\
  (PubSub.subscribed (self w) = false -> PubSub.listen handle w = (Ok None, w))
  /\
  PubSub.get_message handle ign timeout w =
  match r with
  | [] => (Ok None, w1)
  | _ :: _ => handle r ign w1
  end
  /\
  (forall t ch d rest,
      r = t :: ch :: d :: rest ->
      nativestr t = Ok (lit "message") ->
      PubSub.get_handler ch (channels (self w)) = None ->
      PubSub.get_message handle ign timeout w =
      (Ok (Some {| msg_type := lit "message"; msg_pattern := PNone;
                   msg_channel := ch; msg_data := d |}), w1)).
Proof.
  intros Hc Ho w1.
  assert (R : PubSub._execute c (read_response c) w = (Ok (RReply r), w1)).
  { apply _execute_ok. unfold read_response, await, next_outcome.
    now rewrite Ho. }
  assert (P : forall block t,
             PubSub.parse_response block t w = (Ok (RReply r), w1)).
  { intros block t. unfold PubSub.parse_response. run. rewrite Hc.
    destruct (negb block && (0 <? t)%Z); [|exact R].
    unfold try_except. now rewrite R. }
  assert (G : PubSub.get_message handle ign timeout w =
              match r with
              | [] => (Ok None, w1)
              | _ :: _ => handle r ign w1
              end).
  { unfold PubSub.get_message. run. rewrite P.
    destruct r; reflexivity. }
  split; [|split; [|split]].
  - intros Hs. unfold PubSub.listen. run. rewrite Hs, P. reflexivity.
  - intros Hs. unfold PubSub.listen. run. now rewrite Hs.
  - exact G.
  - intros t ch d rest -> Ht Hh. rewrite G. unfold handle.
    rewrite (@handle_message_plain nativestr w1 t ch d rest ign
               (lit "message") Ht);
      [|intros E; vm_compute in E; discriminate E].
    cbv zeta.
    replace (PubSub.is_type (lit "message") PubSub.UNSUBSCRIBE_MESSAGE_TYPES)
      with false by reflexivity.
    replace (PubSub.is_type (lit "message") PubSub.PUBLISH_MESSAGE_TYPES)
      with true by reflexivity.
    cbv iota.
    replace (self w1) with (self w) by reflexivity.
    rewrite Hh. reflexivity.
Qed.

End PullDelivery.

(** * The further properties at concrete inputs *)

(** In raw-byte mode the text [news] becomes the bytes [news], which
    [encode] then leaves alone. *)
Lemma encode_normalizes_witness :
  let w := Examples.new_world false Codec.utf8_codec
             (Examples.always (Returns RNone)) in
  PubSub.encode (PBytes "news"%string) w = (Ok (PBytes "news"%string), w) /\
  forall t, PBytes "news"%string <> PStr t.
Proof.
  intros w.
  destruct (@encode_normalizes w Examples.news (PBytes "news"%string) eq_refl)
    as (H1 & _ & H3).
  split; [exact H1|exact (H3 eq_refl)].
Defined.

(** A [subscribe] in text mode whose second name is not valid UTF-8. *)
Lemma subscribe_rejects_unencodable_name_witness :
  let w := Examples.new_world true Codec.utf8_codec
             (Examples.always (Returns RNone)) in
  let args := [Examples.news; Examples.undecodable] in
  PubSub.subscribe PubSub.execute_command Examples.list_or_args args [] w
  = (Err UnicodeError, w) /\
  PubSub.psubscribe PubSub.execute_command Examples.list_or_args args [] w
  = (Err UnicodeError, w).
Proof.
  intros w args.
  apply (@subscribe_rejects_unencodable_name Examples.list_or_args
           PubSub.execute_command args [] w).
  left. exists Examples.undecodable. split.
  - right. left. reflexivity.
  - reflexivity.
Defined.

(** One positional name and one keyword name in raw-byte mode. *)
Lemma new_entries_keys_witness :
  let w := Examples.new_world false Codec.utf8_codec
             (Examples.always (Returns RNone)) in
  let kw := [(lit "alerts", Some 3)] in
  let new := [(PBytes "news"%string, None);
              (PBytes "alerts"%string, Some 3)] in
  fst (PubSub.new_entries Examples.list_or_args [Examples.news] kw w) = Ok new
  /\ NoDup (Dict.keys new)
  /\ forall k,
      In k (Dict.keys new) <->
      (exists a, In a [Examples.news] /\ fst (PubSub.encode a w) = Ok k) \/
      (exists n h, In (n, h) kw /\ fst (PubSub.encode (PStr n) w) = Ok k).
Proof.
  intros w kw new. split; [reflexivity|].
  exact (@new_entries_keys Examples.list_or_args [Examples.news] kw w new
           eq_refl).
Defined.

(** [subscribe(news=7)] in text mode, then a message on [news]. *)
Lemma subscribed_handler_is_called_witness :
  let w := Examples.new_world true Codec.utf8_codec
             (Examples.always (Returns RNone)) in
  let w' := snd (PubSub.subscribe PubSub.execute_command Examples.list_or_args
                   [] [(lit "news", Some 7)] w) in
  let hello := PStr (lit "hello") in
  channels (self w') = [(Examples.news, Some 7)] /\
  exists w'',
    PubSub.handle_message Examples.nativestr
      [PStr (lit "message"); Examples.news; hello] false w' = (Ok None, w'')
    /\ trace (env w'') =
       trace (env w')
       ++ [EvHandler 7 {| msg_type := lit "message"; msg_pattern := PNone;
                          msg_channel := Examples.news; msg_data := hello |}
             (Returns RNone)].
Proof.
  intros w w' hello. split; [reflexivity|].
  destruct (@subscribed_handler_is_called Examples.nativestr
              Examples.list_or_args [] [(lit "news", Some 7)] w w'
              [(Examples.news, Some 7)] Examples.news (PStr (lit "message"))
              hello [] 7 false RNone eq_refl eq_refl eq_refl) as [H _].
  exact (H eq_refl eq_refl).
Defined.

(** [news] is subscribed with handler 7; [subscribe('news')] takes the
    handler away. *)
Lemma subscribe_positional_resets_handler_witness :
  let w := Examples.subscribed_world (Examples.always (Returns RNone)) in
  let w' := snd (PubSub.subscribe PubSub.execute_command Examples.list_or_args
                   [Examples.news] [] w) in
  PubSub.get_handler Examples.news (channels (self w)) = Some 7 /\
  Dict.get Examples.news (channels (self w')) = Some None /\
  PubSub.get_handler Examples.news (channels (self w')) = None.
Proof.
  intros w w'. split; [reflexivity|].
  destruct (@subscribe_positional_resets_handler Examples.list_or_args
              [Examples.news] w w' eq_refl) as (new & N & H & _).
  apply H. vm_compute in N. injection N as <-. left. reflexivity.
Defined.

(** A [message] reply with no data item. *)
Lemma handle_message_short_reply_witness :
  let w := Examples.subscribed_world (Examples.always (Returns RNone)) in
  PubSub.handle_message Examples.nativestr [] false w = (Err IndexError, w) /\
  PubSub.handle_message Examples.nativestr
    [PStr (lit "message"); Examples.news] false w = (Err IndexError, w).
Proof.
  intros w.
  destruct (@handle_message_short_reply Examples.nativestr w
              (PStr (lit "message")) [Examples.news] false (lit "message")
              eq_refl) as (H0 & H1 & _).
  split; [exact H0|]. apply H1.
  - intros E. vm_compute in E. discriminate E.
  - cbn. lia.
Defined.

(** A read that raises: swallowed by [get_message] with a timeout, raised
    without one; and a session with no connection. *)
Lemma get_message_read_failure_witness :
  let o := Examples.always (Raises (OtherError "boom")) in
  let w := with_connection Examples.conn0 (Examples.subscribed_world o) in
  let w1 := answered (EvReadResponse 0) w in
  let h := PubSub.handle_message Examples.nativestr in
  PubSub.get_message h true 1 w = (Ok None, w1) /\
  PubSub.get_message h true 0 w = (Err (OtherError "boom"), w1) /\
  PubSub.get_message h true 1 (Examples.subscribed_world o)
  = (Err (OtherError "RuntimeError"), Examples.subscribed_world o).
Proof.
  intros o w w1 h. split; [|split].
  - destruct (@get_message_read_failure h Examples.conn0 w w1
                (OtherError "boom") true 1) as [H _].
    exact (H eq_refl eq_refl).
  - destruct (@get_message_read_failure h Examples.conn0 w w1
                (OtherError "boom") true 0) as [H _].
    exact (H eq_refl eq_refl).
  - destruct (@get_message_read_failure h Examples.conn0
                (Examples.subscribed_world o) w1 (OtherError "boom") true 1)
      as [_ H].
    exact (H eq_refl).
Defined.

(** A read cancelled while the connection has unread data. *)
Lemma listen_after_cancelled_read_witness :
  let o := Examples.script [Raises CancelledError; Returns (RBool true)] in
  let w := with_connection Examples.conn0 (Examples.subscribed_world o) in
  let w' := record (EvDisconnect 0)
              (answered (EvCanRead 0) (answered (EvReadResponse 0) w)) in
  let h := PubSub.handle_message Examples.nativestr in
  PubSub.listen h w = (Err TypeError, w') /\
  PubSub.get_message h false 0 w = (Ok None, w').
Proof.
  intros o w w' h.
  exact (@listen_after_cancelled_read h Examples.conn0 w (RBool true) false 0
           eq_refl eq_refl eq_refl eq_refl).
Defined.

(** All handlers present, and a pattern without one. *)
Lemma run_in_thread_checks_handlers_witness :
  let o := Examples.always (Returns RNone) in
  PubSub.run_in_thread true (Examples.subscribed_world o)
  = (Ok tt, record (EvEnsureFuture "PubSubWorkerThread._run")
              (Examples.subscribed_world o)) /\
  PubSub.run_in_thread true (Examples.raw_world o)
  = (Err (OtherError "PubSubError"), Examples.raw_world o).
Proof.
  intros o. split.
  - destruct (@run_in_thread_checks_handlers true
                (Examples.subscribed_world o)) as [H _].
    apply H. split; repeat constructor; discriminate.
  - destruct (@run_in_thread_checks_handlers true (Examples.raw_world o))
      as [_ H].
    apply H. intros [_ P]. inversion P as [|x l Px Pl]. now apply Px.
Defined.

(** The worker of a session subscribed to [news] and to the pattern [n*]
    reads the two acknowledgements and stops. *)
Lemma worker_stops_when_acknowledged_witness :
  let acks := [AckPattern (PStr (lit "n*")) (PInt 1);
               AckChannel Examples.news (PInt 0)] in
  let o := Examples.script
             (map (fun a => Returns (RReply (reply_of a))) acks) in
  let w := with_connection Examples.conn0 (Examples.subscribed_world o) in
  exists w',
    PubSubWorkerThread._run Examples.nativestr 3 w
    = (Ok (Ended (Some Examples.conn0)), w') /\
    connection_ (self w') = None /\
    channels (self w') = [] /\
    patterns (self w') = [] /\
    trace (env w') =
    [EvReadResponse 0 (Returns (RReply [PStr (lit "punsubscribe");
                                        PStr (lit "n*"); PInt 1]));
     EvReadResponse 0 (Returns (RReply [PStr (lit "unsubscribe");
                                        Examples.news; PInt 0]));
     EvDisconnect 0; EvClearConnectCallbacks 0].
Proof.
  intros acks o w.
  apply (@worker_stops_when_acknowledged Examples.nativestr
           (fun s => eq_refl) acks w Examples.conn0 0 eq_refl
           (Permutation_refl _) (Permutation_refl _)).
  intros i Hi. destruct i as [|[|i]]; [reflexivity|reflexivity|].
  cbn in Hi. lia.
Defined.

(** Two rounds of [ping_handler]: the first ping returns, the second
    raises. *)
Lemma ping_handler_keeps_pinging_witness :
  let o := Examples.script [Returns RNone; Raises ConnectionError] in
  let w := with_connection Examples.conn0
             (Examples.new_world false Codec.utf8_codec o) in
  let ping := [PStr (lit "ping")] in
  exists w',
    ClusterPubSub.ping_handler 2 w = (Ok OutOfFuel, w') /\
    now (env w') = 104 /\
    trace (env w') =
    [EvSendCommand 0 ping (Returns RNone); EvSleep 2;
     EvSendCommand 0 ping (Raises ConnectionError);
     EvPrint "unable to ping cluster connection"; EvSleep 2].
Proof.
  intros o w ping.
  destruct (@ping_handler_keeps_pinging 2 w) as [_ H].
  destruct (H Examples.conn0 eq_refl) as (w' & R & _ & _ & _ & Rn & Rt).
  exists w'. split; [exact R|]. split; [exact Rn|exact Rt].
Defined.

(** A bare [UNSUBSCRIBE] on a cluster session: with no connection, and
    with one whose send raises. *)
Lemma cluster_command_without_channel_witness :
  let o := Examples.always (Raises (OtherError "boom")) in
  let args := [PStr (lit "UNSUBSCRIBE")] in
  let w := Examples.new_world false Codec.utf8_codec o in
  let wc := with_connection Examples.conn0 w in
  ClusterPubSub.execute_command args 0 w
  = (Err IndexError, record EvPoolInitialize w) /\
  exists w',
    ClusterPubSub.execute_command args 0 wc = (Err IndexError, w') /\
    connection_ (self w') = None /\
    trace (env w') =
    [EvPoolInitialize; EvSendCommand 0 args (Raises (OtherError "boom"));
     EvIncrementReinitializeCounter; EvSleep 2;
     EvPrint "Redis pubsub _execute exception"; EvPoolInitialize].
Proof.
  intros o args w wc. split.
  - destruct (@cluster_command_without_channel args 0 w eq_refl) as [H _].
    exact (H eq_refl).
  - destruct (@cluster_command_without_channel args 0 wc eq_refl) as [_ H].
    apply (H Examples.conn0 (OtherError "boom")
             (answered (EvSendCommand 0 args) (record EvPoolInitialize wc))
             eq_refl (Nat.le_0_l 25) eq_refl).
Defined.

(** A cluster [SUBSCRIBE] whose first send returns. *)
Lemma cluster_command_sent_at_once_witness :
  let w := Examples.new_world false Codec.utf8_codec
             (Examples.always (Returns RNone)) in
  exists w' c tr,
    ClusterPubSub.execute_command Examples.subscribe_news 7 w = (Ok tt, w') /\
    connection_ (self w') = Some c /\
    reinitialize_counter (env w') = 0 /\
    sleeps (trace (env w')) = [] /\
    attempts (trace (env w')) = 1 /\
    trace (env w') =
    tr ++ [EvSendCommand (conn_id c) Examples.subscribe_news (Returns RNone)].
Proof.
  intros w.
  exact (@cluster_command_sent_at_once Examples.subscribe_news
           (PBytes "news"%string) 7 w RNone eq_refl eq_refl).
Defined.



(** A message on a channel nobody handles, pulled by [get_message]. *)
Lemma pulled_reply_is_dispatched_witness :
  let other := PStr (lit "other") in
  let hello := PStr (lit "hello") in
  let o := Examples.always
             (Returns (RReply [PStr (lit "message"); other; hello])) in
  let w := with_connection Examples.conn0 (Examples.subscribed_world o) in
  PubSub.get_message (PubSub.handle_message Examples.nativestr) true 0 w =
  (Ok (Some {| msg_type := lit "message"; msg_pattern := PNone;
               msg_channel := other; msg_data := hello |}),
   answered (EvReadResponse 0) w).
Proof.
  intros other hello o w.
  destruct (@pulled_reply_is_dispatched Examples.nativestr Examples.conn0 w
              [PStr (lit "message"); other; hello] true 0 eq_refl eq_refl)
    as (_ & _ & _ & H).
  exact (H (PStr (lit "message")) other hello [] eq_refl eq_refl eq_refl).
Defined.
